(** * The mystical bridge: a shallow embedding of [api_client.py] and
      [integration_bridge.py]

    The development follows the two Python modules.  [Py] holds the fragment
    of Python's dynamic values and exceptions the code relies on, [Datetime]
    the naive timestamps and their ISO-8601 rendering, [ApiClient] the
    request loop of [MysticalAPIClient._make_request], and [Bridge] the
    methods of [MysticalBridge].  Effects (attribute updates, the clock, the
    state file, the remote store, logging, handler calls) are threaded
    explicitly through a state-and-exception monad.

    Conventions.  Python strings are Rocq strings, so lengths and
    iteration count bytes and agree with Python on ASCII text.  Floats do
    not occur.  Exceptions are those that [except Exception] catches.
    A handler registered on the bridge returns or raises and does not call
    back into the bridge. *)

From Stdlib Require Import ZArith String Ascii List Bool Lia DecimalString.
From Stdlib Require Import Sorted Permutation.
From stdpp Require Import base gmap strings list fin_maps.
Import ListNotations.

Local Open Scope string_scope.
Local Open Scope list_scope.
Local Open Scope Z_scope.

(** ** Python values, exceptions and the operations on them *)

Module Py.

(** Naive [datetime] objects: microseconds elapsed since 0001-01-01T00:00:00. *)
Definition datetime := Z.

(** The values that flow through the bridge: what [json.load] produces,
    plus [datetime] objects (pydantic's [.dict()] keeps them).  A [dict] is
    an association list in insertion order; keys are strings, as in every
    dictionary the two modules build or decode. *)
#[warnings="-register-all"]
Inductive pyval : Type :=
| PNone
| PBool (b : bool)
| PInt (n : Z)
| PStr (s : string)
| PDatetime (t : datetime)
| PList (l : list pyval)
| PDict (d : list (string * pyval)).

(** The exception classes that occur. [RequestException] stands for the
    whole [requests.exceptions.RequestException] family. *)
Inductive exn : Type :=
| TypeError
| KeyError (k : string)
| AttributeError
| ValueError (msg : string)
| OSError
| OverflowError
| JSONDecodeError
| RequestException (msg : string)
| MysticalAPIError (msg : string)
| ValidationError
| HandlerError (msg : string).

(** A call either returns a value or raises. *)
Inductive result (A : Type) : Type :=
| Ok (a : A)
| Raise (e : exn).
Arguments Ok {A} a.
Arguments Raise {A} e.

Definition is_ok {A} (r : result A) : bool :=
  match r with Ok _ => true | Raise _ => false end.

(** *** Dictionaries in insertion order *)

Section Dict.
Context {V : Type}.

Fixpoint dict_lookup (d : list (string * V)) (k : string) : option V :=
  match d with
  | [] => None
  | (k', v) :: rest => if String.eqb k' k then Some v else dict_lookup rest k
  end.

(** [d.get(k, dflt)] *)
Definition dict_get (d : list (string * V)) (k : string) (dflt : V) : V :=
  match dict_lookup d k with Some v => v | None => dflt end.

(** [d[k] = v]: an existing key keeps its position, a new one goes last. *)
Fixpoint dict_set (d : list (string * V)) (k : string) (v : V)
  : list (string * V) :=
  match d with
  | [] => [(k, v)]
  | (k', v') :: rest =>
      if String.eqb k' k then (k', v) :: rest
      else (k', v') :: dict_set rest k v
  end.

Definition dict_keys (d : list (string * V)) : list string := map fst d.
Definition dict_values (d : list (string * V)) : list V := map snd d.
End Dict.

(** *** Strings *)

(** [needle in hay] on strings. *)
Fixpoint str_contains (needle hay : string) : bool :=
  String.prefix needle hay ||
  match hay with
  | EmptyString => false
  | String _ rest => str_contains needle rest
  end.

(** Iterating a string yields its one-character strings. *)
Fixpoint str_chars (s : string) : list string :=
  match s with
  | EmptyString => []
  | String c rest => String c EmptyString :: str_chars rest
  end.

(** [str(n)] for an [int]. *)
Definition str_of_int (n : Z) : string := NilZero.string_of_int (Z.to_int n).

(** [sum(l)] *)
Definition total (l : list Z) : Z := fold_right Z.add 0 l.

(** [needle] occurs in [hay]. *)
Definition embeds (needle hay : string) : Prop :=
  exists pre post, hay = pre +:+ needle +:+ post.

(** *** Dynamic operations *)

(** [==] between a string and an arbitrary value. *)
Definition eq_str (s : string) (v : pyval) : bool :=
  match v with PStr s' => String.eqb s s' | _ => false end.

(** [bool(v)] *)
Definition truthy (v : pyval) : bool :=
  match v with
  | PNone => false
  | PBool b => b
  | PInt n => negb (n =? 0)
  | PStr s => negb (String.eqb s "")
  | PDatetime _ => true
  | PList l => match l with [] => false | _ => true end
  | PDict d => match d with [] => false | _ => true end
  end.

(** [key in v] for a string [key]. *)
Definition py_contains (key : string) (v : pyval) : result bool :=
  match v with
  | PDict d => Ok (match dict_lookup d key with Some _ => true | None => false end)
  | PList l => Ok (existsb (eq_str key) l)
  | PStr s => Ok (str_contains key s)
  | _ => Raise TypeError
  end.

(** [v[key]] for a string [key]. *)
Definition py_getitem (v : pyval) (key : string) : result pyval :=
  match v with
  | PDict d => match dict_lookup d key with
               | Some x => Ok x
               | None => Raise (KeyError key)
               end
  | _ => Raise TypeError
  end.

(** [v.get(key, dflt)] *)
Definition py_get (v : pyval) (key : string) (dflt : pyval) : result pyval :=
  match v with
  | PDict d => Ok (dict_get d key dflt)
  | _ => Raise AttributeError
  end.

(** [v[key] = x] for a string [key]. *)
Definition py_setitem (v : pyval) (key : string) (x : pyval) : result pyval :=
  match v with
  | PDict d => Ok (PDict (dict_set d key x))
  | _ => Raise TypeError
  end.

(** [for x in v]: the items the loop visits. *)
Definition py_iter (v : pyval) : result (list pyval) :=
  match v with
  | PList l => Ok l
  | PDict d => Ok (map PStr (dict_keys d))
  | PStr s => Ok (map PStr (str_chars s))
  | _ => Raise TypeError
  end.

(** [list(v.keys())] *)
Definition py_keys (v : pyval) : result pyval :=
  match v with
  | PDict d => Ok (PList (map PStr (dict_keys d)))
  | _ => Raise AttributeError
  end.

(** [v + 1], as in [v += 1]; [bool] is a subclass of [int]. *)
Definition py_succ (v : pyval) : result pyval :=
  match v with
  | PInt n => Ok (PInt (n + 1))
  | PBool b => Ok (PInt ((if b then 1 else 0) + 1))
  | _ => Raise TypeError
  end.

End Py.
Export Py.

(** ** Timestamps *)

Module Datetime.

Definition usec_per_second : Z := 1000000.
Definition usec_per_day : Z := 86400 * usec_per_second.

(** [timedelta(hours=h)] and [timedelta(seconds=s)], in microseconds. *)
Definition timedelta_hours (h : Z) : Z := h * 3600 * usec_per_second.
Definition timedelta_seconds (s : Z) : Z := s * usec_per_second.

(** [datetime.min] and [datetime.max]: the first microsecond of year 1
    and the last of year 9999. *)
Definition datetime_min : datetime := 0.
Definition datetime_max : datetime := 3652059 * usec_per_day - 1.

(** The largest number of days a [timedelta] holds, either way. *)
Definition max_delta_days : Z := 999999999.

(** [timedelta(seconds=s)] for an integer [s], which raises when the
    number of whole days is out of range. *)
Definition timedelta_of_seconds (s : Z) : result Z :=
  if Z.abs (s / 86400) <=? max_delta_days
  then Ok (timedelta_seconds s)
  else Raise OverflowError.

(** [t - d] for a datetime [t] and a timedelta [d], which raises when the
    result is no date between [datetime.min] and [datetime.max]. *)
Definition datetime_minus (t : datetime) (d : Z) : result datetime :=
  if (datetime_min <=? t - d) && (t - d <=? datetime_max)
  then Ok (t - d)
  else Raise OverflowError.

Definition days_before_month (m : Z) : Z :=
  nth (Z.to_nat m) [0; 0; 31; 59; 90; 120; 151; 181; 212; 243; 273; 304; 334] 0.
Definition days_in_month (m : Z) : Z :=
  nth (Z.to_nat m) [0; 31; 28; 31; 30; 31; 30; 31; 31; 30; 31; 30; 31] 0.

(** The standard library's ordinal-to-date conversion, on the number of
    whole days since 0001-01-01. *)
Definition ord2ymd (days : Z) : Z * Z * Z :=
  let n400 := days / 146097 in
  let n := days mod 146097 in
  let n100 := n / 36524 in
  let n := n mod 36524 in
  let n4 := n / 1461 in
  let n := n mod 1461 in
  let n1 := n / 365 in
  let n := n mod 365 in
  let year := n400 * 400 + 1 + n100 * 100 + n4 * 4 + n1 in
  if (n1 =? 4) || (n100 =? 4) then (year - 1, 12, 31)
  else
    let leapyear := (n1 =? 3) && (negb (n4 =? 24) || (n100 =? 3)) in
    let month := (n + 50) / 32 in
    let preceding :=
      days_before_month month + (if (2 <? month) && leapyear then 1 else 0) in
    if n <? preceding then
      let month' := month - 1 in
      let preceding' :=
        preceding
        - (days_in_month month' + (if (month' =? 2) && leapyear then 1 else 0)) in
      (year, month', n - preceding' + 1)
    else (year, month, n - preceding + 1).

(** ["%0<width>d" % n] for a non-negative [n]. *)
Definition zero_pad (width : nat) (n : Z) : string :=
  let digits := str_of_int n in
  string_of_list_ascii (repeat "0"%char (width - String.length digits))
  +:+ digits.

(** [t.isoformat(sep)]: fractional seconds appear only when non-zero. *)
Definition isoformat_sep (sep : string) (t : datetime) : string :=
  let '(y, m, d) := ord2ymd (t / usec_per_day) in
  let rest := t mod usec_per_day in
  let secs := rest / usec_per_second in
  let us := rest mod usec_per_second in
  zero_pad 4 y +:+ "-" +:+ zero_pad 2 m +:+ "-" +:+ zero_pad 2 d +:+ sep
  +:+ zero_pad 2 (secs / 3600) +:+ ":" +:+ zero_pad 2 (secs / 60 mod 60)
  +:+ ":" +:+ zero_pad 2 (secs mod 60)
  +:+ (if us =? 0 then "" else "." +:+ zero_pad 6 us).

Definition isoformat (t : datetime) : string := isoformat_sep "T" t.

(** [str(t)] *)
Definition str_of_datetime (t : datetime) : string := isoformat_sep " " t.

(** 2025-01-01T00:00:00, a convenient origin for examples. *)
Definition y2025 : datetime := 739251 * usec_per_day.

End Datetime.
Export Datetime.

(** ** The remote store client: [api_client.py] *)

Module ApiClient.

(** [PythonConfig] of [models.py]. *)
Record PythonConfig := {
  api_base_url : string;
  timeout : Z;
  max_retries : Z;
  cache_enabled : bool;
  cache_duration : Z;
  debug_mode : bool;
  mystical_theme : bool
}.

Definition default_config : PythonConfig :=
  {| api_base_url := "http://localhost:5000/api"; timeout := 30;
     max_retries := 3; cache_enabled := true; cache_duration := 300;
     debug_mode := false; mystical_theme := true |}.

(** What the request loop reads of a [requests.Response]: the status code
    and what [response.json()] does. *)
Record Response := {
  status_code : Z;
  json : result pyval
}.

(** One call of [session.request]: a response, or a
    [requests.exceptions.RequestException] whose text is [msg]. *)
Inductive outcome : Type :=
| Responded (r : Response)
| Failed (msg : string).

(** A request as handed to the session: method, URL, keyword arguments. *)
Definition request : Type := string * string * list (string * pyval).

(** The client with its surroundings: [server n req] is what the [n]-th
    call of [session.request] does, [sent] lists the calls made so far and
    [slept] the arguments of [time.sleep], both oldest first. *)
Record client := {
  config : PythonConfig;
  server : nat -> request -> outcome;
  sent : list request;
  slept : list Z
}.

Definition session_request (req : request) (c : client) : outcome * client :=
  (server c (length (sent c)) req,
   {| config := config c; server := server c;
      sent := sent c ++ [req]; slept := slept c |}).

Definition sleep (secs : Z) (c : client) : client :=
  {| config := config c; server := server c;
     sent := sent c; slept := slept c ++ [secs] |}.

Section MakeRequest.
(** [str()] of a list or dictionary; its exact text plays no role. *)
Variable str_of_container : pyval -> string.

(** How an f-string renders a value. *)
Definition format_value (v : pyval) : string :=
  match v with
  | PNone => "None"
  | PBool true => "True"
  | PBool false => "False"
  | PInt n => str_of_int n
  | PStr s => s
  | PDatetime t => str_of_datetime t
  | _ => str_of_container v
  end.

(** The message built for a response with status 400 or more. *)
Definition status_message (cfg : PythonConfig) (r : Response) : string :=
  let error_msg :=
    if mystical_theme cfg
    then "🌙 The cosmic energies have disrupted the connection (Status: "
         +:+ str_of_int (status_code r) +:+ ")"
    else "API request failed with status " +:+ str_of_int (status_code r) in
  match json r with
  | Ok body =>
      match py_get body "message" (PStr "") with
      | Ok error_detail =>
          if truthy error_detail
          then error_msg +:+ " - " +:+ format_value error_detail
          else error_msg
      | Raise _ => error_msg
      end
  | Raise _ => error_msg
  end.

(** The message built when the last attempt fails in transport. *)
Definition transport_message (cfg : PythonConfig) (e : string) : string :=
  if mystical_theme cfg
  then "⚡ The ethereal channels are blocked: " +:+ e
  else "Request failed: " +:+ e.

(** [for attempt in range(...)]: [remaining] iterations are left and the
    next one has number [attempt].  Falling off the end of the loop
    returns [None]. *)
Fixpoint attempt_loop (remaining : nat) (attempt : Z) (req : request)
    (c : client) : result (option Response) * client :=
  match remaining with
  | O => (Ok None, c)
  | S remaining' =>
      let '(o, c1) := session_request req c in
      match o with
      | Responded response =>
          if 400 <=? status_code response
          then (Raise (MysticalAPIError (status_message (config c) response)), c1)
          else (Ok (Some response), c1)
      | Failed e =>
          if attempt =? max_retries (config c)
          then (Raise (MysticalAPIError (transport_message (config c) e)), c1)
          else attempt_loop remaining' (attempt + 1) req (sleep (2 ^ attempt) c1)
      end
  end.

(** The keyword arguments actually sent: the configured timeout is
    filled in unless the caller gave one. *)
Definition with_timeout (cfg : PythonConfig) (kwargs : list (string * pyval))
  : list (string * pyval) :=
  match dict_lookup kwargs "timeout" with
  | Some _ => kwargs
  | None => dict_set kwargs "timeout" (PInt (timeout cfg))
  end.

Definition prepared (cfg : PythonConfig) (method endpoint : string)
    (kwargs : list (string * pyval)) : request :=
  (method, api_base_url cfg +:+ endpoint, with_timeout cfg kwargs).

Definition _make_request (method endpoint : string)
    (kwargs : list (string * pyval)) (c : client)
  : result (option Response) * client :=
  attempt_loop (Z.to_nat (max_retries (config c) + 1)) 0
    (prepared (config c) method endpoint kwargs) c.
End MakeRequest.

(** The delays [2^0, ..., 2^(k-1)] slept after [k] failed attempts. *)
Definition backoff_from (a : Z) (k : nat) : list Z :=
  map (fun i => 2 ^ (a + Z.of_nat i)) (seq 0 k).
Definition backoff (k : nat) : list Z := backoff_from 0 k.

(** A server scripted by a list of outcomes; once the script is used up it
    keeps failing. *)
Definition scripted (script : list outcome) : nat -> request -> outcome :=
  fun n _ => nth n script (Failed "connection refused").

Definition fresh_client (cfg : PythonConfig) (script : list outcome) : client :=
  {| config := cfg; server := scripted script; sent := []; slept := [] |}.

(** The client after [k] attempts that failed in transport, the first of
    them being attempt number [a]. *)
Definition after_failures (k : nat) (a : Z) (req : request) (c : client)
  : client :=
  {| config := config c; server := server c;
     sent := sent c ++ repeat req k;
     slept := slept c ++ backoff_from a k |}.

(** The retry scenario: two transport failures, then a response. *)
Definition scenario_config : PythonConfig :=
  {| api_base_url := "http://localhost:5000/api"; timeout := 30;
     max_retries := 2; cache_enabled := true; cache_duration := 300;
     debug_mode := false; mystical_theme := true |}.

Definition ok_response : Response :=
  {| status_code := 200; json := Ok (PDict [("status", PStr "ok")]) |}.

Definition scenario_client : client :=
  fresh_client scenario_config
    [Failed "Connection refused"; Failed "Read timed out";
     Responded ok_response].

Definition health_request : request :=
  ("GET", "http://localhost:5000/api/health", [("timeout", PInt 30)]).

End ApiClient.

(** ** The bridge: [integration_bridge.py] *)

Module Bridge.

(** *** Records of [models.py] *)

Record BridgeConfig := {
  sync_interval : Z;
  auto_sync : bool;
  bidirectional : bool;
  config_conflict_resolution : string;
  shared_state_file : string
}.

Definition default_config : BridgeConfig :=
  {| sync_interval := 5; auto_sync := true; bidirectional := true;
     config_conflict_resolution := "manual";
     shared_state_file := "mystical_bridge_state.json" |}.

Record Bookmark := {
  bookmark_id : string;
  bookmark_entryId : string;
  isBookmarked : bool;
  personalNotes : option string;
  bookmark_createdAt : datetime;
  bookmark_updatedAt : datetime
}.

(** [CodexEntry] and its subclass [CodexEntryWithBookmark] in one record:
    [bookmark] is [None] for a plain [CodexEntry], which has no such
    attribute, and [Some b] for a [CodexEntryWithBookmark] whose attribute
    holds [b]. *)
Record CodexEntry := {
  entry_id : string;
  filename : string;
  entry_type : string;
  size : Z;
  originalSize : option Z;
  processedDate : option datetime;
  summary : string;
  keyChunks : option (list string);
  fullText : option string;
  category : string;
  subcategory : option string;
  keyTerms : option (list string);
  bookmark : option (option Bookmark)
}.

Record Collection := {
  collection_id : string;
  title : string;
  entryIds : list string;
  notes : option string;
  isPublic : bool;
  collection_createdAt : datetime;
  collection_updatedAt : datetime
}.

Record CollectionWithEntries := {
  collection : Collection;
  entries : list CodexEntry
}.

Record Annotation := {
  annotation_id : string;
  annotation_entryId : string;
  content : string;
  authorName : string;
  annotation_createdAt : datetime
}.

(** *** [.dict()] of the models *)

Definition py_option {A} (f : A -> pyval) (o : option A) : pyval :=
  match o with Some a => f a | None => PNone end.

Definition py_strings (l : list string) : pyval := PList (map PStr l).

Definition bookmark_dict (b : Bookmark) : pyval :=
  PDict [("id", PStr (bookmark_id b));
         ("entryId", PStr (bookmark_entryId b));
         ("isBookmarked", PBool (isBookmarked b));
         ("personalNotes", py_option PStr (personalNotes b));
         ("createdAt", PDatetime (bookmark_createdAt b));
         ("updatedAt", PDatetime (bookmark_updatedAt b))].

Definition entry_dict (e : CodexEntry) : list (string * pyval) :=
  [("id", PStr (entry_id e));
   ("filename", PStr (filename e));
   ("type", PStr (entry_type e));
   ("size", PInt (size e));
   ("originalSize", py_option PInt (originalSize e));
   ("processedDate", py_option PDatetime (processedDate e));
   ("summary", PStr (summary e));
   ("keyChunks", py_option py_strings (keyChunks e));
   ("fullText", py_option PStr (fullText e));
   ("category", PStr (category e));
   ("subcategory", py_option PStr (subcategory e));
   ("keyTerms", py_option py_strings (keyTerms e))]
  ++ match bookmark e with
     | Some b => [("bookmark", py_option bookmark_dict b)]
     | None => []
     end.

(** *** The dataclasses of the bridge *)

Record BridgeMessage := {
  message_type : string;
  timestamp : datetime;
  source : string;
  payload : pyval;
  message_id : string
}.

(** The version counters and [pending_changes] are annotated [int] and
    [List[str]], but [_load_shared_state] stores whatever the file holds,
    so they are dynamic values here. *)
Record SyncState := {
  last_sync : datetime;
  react_version : pyval;
  python_version : pyval;
  pending_changes : pyval;
  conflict_resolution : string
}.

(** [SyncState(last_sync=t)] *)
Definition new_SyncState (t : datetime) : SyncState :=
  {| last_sync := t; react_version := PInt 0; python_version := PInt 0;
     pending_changes := PList []; conflict_resolution := "manual" |}.

(** *** The surroundings of a bridge *)

(** A registered callable: it returns or raises; its name identifies it
    in the trace. *)
Record handler := {
  handler_name : string;
  handler_call : BridgeMessage -> result unit
}.

(** The file at [shared_state_path], seen through [exists], [open] and
    [json.load]. *)
Inductive file_content : Type :=
| FileAbsent
| FileUnreadable
| FileCorrupt
| FileJson (v : pyval).

(** Whether a decodable document is on disk. *)
Definition is_saved (f : file_content) : bool :=
  match f with FileJson _ => true | _ => false end.

(** One reading of the system clock: [datetime.now()] sees [wall],
    [int(time.time() * 1000)] sees [epoch_ms]. *)
Record instant := { wall : datetime; epoch_ms : Z }.

Inductive level : Type := Debug | Info | Warning | Error.

(** The logging calls of the module, by call site. *)
Inductive log_record : Type :=
| Log_state_loaded
| Log_load_failed (e : exn)
| Log_state_saved
| Log_save_failed (e : exn)
| Log_handler_error (e : exn)
| Log_export_failed (e : exn)
| Log_skipping_invalid (annotation_data : pyval)
| Log_imported (count : nat)
| Log_import_failed (e : exn)
| Log_sync_failed (e : exn)
| Log_change_detection_failed (e : exn)
| Log_cache_cleared
| Log_force_sync_completed
| Log_force_sync_failed (e : exn).

Inductive remote_call : Type :=
| Get_collections
| Create_annotation (entry_id content author_name : pyval)
| Create_bookmark (entry_id is_bookmarked personal_notes : pyval)
| Create_collection (title entry_ids notes is_public : pyval).

(** The calls [import_python_annotations] makes. *)
Definition creates_annotation (c : remote_call) : Prop :=
  match c with Create_annotation _ _ _ => True | _ => False end.

(** What the bridge does to the outside, oldest first. *)
Inductive effect : Type :=
| Logged (lvl : level) (r : log_record)
| Queued (m : BridgeMessage)
| Invoked (name : string) (m : BridgeMessage)
| Remote (c : remote_call) (returned : bool)
| Wrote (v : pyval).

(** Readings of a trace: the handler calls, the remote calls and those
    of them that raised, the messages queued, the items an import skipped
    and the failures it logged. *)
Definition invoked (es : list effect) : list (string * BridgeMessage) :=
  flat_map (fun e => match e with Invoked n m => [(n, m)] | _ => [] end) es.

Definition remote_calls (es : list effect) : list remote_call :=
  flat_map (fun e => match e with Remote c _ => [c] | _ => [] end) es.

Definition failed_calls (es : list effect) : list remote_call :=
  flat_map (fun e => match e with Remote c false => [c] | _ => [] end) es.

Definition queued (es : list effect) : list BridgeMessage :=
  flat_map (fun e => match e with Queued m => [m] | _ => [] end) es.

Definition skipped (es : list effect) : list pyval :=
  flat_map (fun e => match e with
                     | Logged Warning (Log_skipping_invalid a) => [a]
                     | _ => []
                     end) es.

Definition import_errors (es : list effect) : list exn :=
  flat_map (fun e => match e with
                     | Logged Error (Log_import_failed x) => [x]
                     | _ => []
                     end) es.

(** The interface of the injected [api_client], as far as the bridge uses
    it; [R] is the state of the remote store behind it. *)
Class Client (R : Type) := {
  get_collections : R -> result (list CollectionWithEntries) * R;
  create_annotation : pyval -> pyval -> pyval -> R -> result Annotation * R;
  create_bookmark : pyval -> pyval -> pyval -> R -> result Bookmark * R;
  create_collection :
    pyval -> pyval -> pyval -> pyval -> R -> result Collection * R
}.

(** [default=str] of [json.dump]: what [json.load] reads back from a file
    that [json.dump] wrote. *)
Fixpoint json_roundtrip (v : pyval) : pyval :=
  match v with
  | PDatetime t => PStr (str_of_datetime t)
  | PList l => PList (map json_roundtrip l)
  | PDict d => PDict (map (fun kv => let '(k, x) := kv in (k, json_roundtrip x)) d)
  | _ => v
  end.

(** ASCII whitespace, where [str.split()] cuts. *)
Definition is_space (c : ascii) : bool :=
  let n := nat_of_ascii c in
  (((9 <=? n) && (n <=? 13)) || ((28 <=? n) && (n <=? 32)))%nat.

Fixpoint count_words (in_word : bool) (s : string) : Z :=
  match s with
  | EmptyString => 0
  | String c rest =>
      if is_space c then count_words false rest
      else (if in_word then 0 else 1) + count_words true rest
  end.

(** [len(text.split())] on ASCII text: beyond it Python also cuts on the
    Unicode spaces and counts code points where bytes are counted here. *)
Definition word_count (s : string) : Z := count_words false s.

(** [list(set)] of the strings seen; Python leaves the order open, the
    order of first occurrence is used here. *)
Fixpoint set_update (seen : list string) (new : list string) : list string :=
  match new with
  | [] => seen
  | x :: rest =>
      set_update (if existsb (String.eqb x) seen then seen else seen ++ [x]) rest
  end.

(** *** The bridge object and the monad of its methods *)

Section Methods.
Context {R : Type} `{Client R}.

(** [datetime.fromisoformat] on a string: a timestamp or [ValueError]. *)
Variable fromisoformat : string -> result datetime.

(** The attributes of a [MysticalBridge] ([config] to [local_cache]),
    then its surroundings: the state file and whether it can be opened
    for writing, the clock ([clock n] is the [n]-th reading, [ticks]
    counts the readings made) and the trace of effects. *)
Record bridge := {
  config : BridgeConfig;
  client : R;
  sync_state : SyncState;
  message_queue : list BridgeMessage;
  event_handlers : gmap string (list handler);
  local_cache : pyval;
  state_file : file_content;
  file_writable : bool;
  clock : nat -> instant;
  ticks : nat;
  trace : list effect
}.

Definition set_client (x : R) (w : bridge) : bridge :=
  {| config := config w; client := x; sync_state := sync_state w;
     message_queue := message_queue w; event_handlers := event_handlers w;
     local_cache := local_cache w; state_file := state_file w;
     file_writable := file_writable w; clock := clock w; ticks := ticks w;
     trace := trace w |}.

Definition set_sync_state (x : SyncState) (w : bridge) : bridge :=
  {| config := config w; client := client w; sync_state := x;
     message_queue := message_queue w; event_handlers := event_handlers w;
     local_cache := local_cache w; state_file := state_file w;
     file_writable := file_writable w; clock := clock w; ticks := ticks w;
     trace := trace w |}.

Definition set_message_queue (x : list BridgeMessage) (w : bridge) : bridge :=
  {| config := config w; client := client w; sync_state := sync_state w;
     message_queue := x; event_handlers := event_handlers w;
     local_cache := local_cache w; state_file := state_file w;
     file_writable := file_writable w; clock := clock w; ticks := ticks w;
     trace := trace w |}.

Definition set_event_handlers (x : gmap string (list handler)) (w : bridge)
  : bridge :=
  {| config := config w; client := client w; sync_state := sync_state w;
     message_queue := message_queue w; event_handlers := x;
     local_cache := local_cache w; state_file := state_file w;
     file_writable := file_writable w; clock := clock w; ticks := ticks w;
     trace := trace w |}.

Definition set_local_cache (x : pyval) (w : bridge) : bridge :=
  {| config := config w; client := client w; sync_state := sync_state w;
     message_queue := message_queue w; event_handlers := event_handlers w;
     local_cache := x; state_file := state_file w;
     file_writable := file_writable w; clock := clock w; ticks := ticks w;
     trace := trace w |}.

Definition set_state_file (x : file_content) (w : bridge) : bridge :=
  {| config := config w; client := client w; sync_state := sync_state w;
     message_queue := message_queue w; event_handlers := event_handlers w;
     local_cache := local_cache w; state_file := x;
     file_writable := file_writable w; clock := clock w; ticks := ticks w;
     trace := trace w |}.

Definition set_ticks (x : nat) (w : bridge) : bridge :=
  {| config := config w; client := client w; sync_state := sync_state w;
     message_queue := message_queue w; event_handlers := event_handlers w;
     local_cache := local_cache w; state_file := state_file w;
     file_writable := file_writable w; clock := clock w; ticks := x;
     trace := trace w |}.

Definition record (e : effect) (w : bridge) : bridge :=
  {| config := config w; client := client w; sync_state := sync_state w;
     message_queue := message_queue w; event_handlers := event_handlers w;
     local_cache := local_cache w; state_file := state_file w;
     file_writable := file_writable w; clock := clock w; ticks := ticks w;
     trace := trace w ++ [e] |}.

(** A method body: from the state before to an outcome and the state
    after.  A raised exception keeps the state reached so far. *)
Definition M (A : Type) : Type := bridge -> result A * bridge.

Definition ret {A} (a : A) : M A := fun w => (Ok a, w).

Definition bind {A B} (m : M A) (k : A -> M B) : M B :=
  fun w => match m w with
           | (Ok a, w') => k a w'
           | (Raise e, w') => (Raise e, w')
           end.

Definition raise {A} (e : exn) : M A := fun w => (Raise e, w).

(** [try: body / except Exception as e: handle e] *)
Definition try_except {A} (body : M A) (handle : exn -> M A) : M A :=
  fun w => match body w with
           | (Ok a, w') => (Ok a, w')
           | (Raise e, w') => handle e w'
           end.

(** An expression that only computes. *)
Definition lift {A} (r : result A) : M A := fun w => (r, w).

(** An attribute read, an attribute write. *)
Definition gets {A} (f : bridge -> A) : M A := fun w => (Ok (f w), w).
Definition modify (f : bridge -> bridge) : M unit := fun w => (Ok tt, f w).

Notation "x <- m ;; k" := (bind m (fun x => k))
  (at level 100, m at next level, right associativity).
Notation "m ;; k" := (bind m (fun _ => k))
  (at level 100, right associativity).

(** [for x in items: body x] *)
Fixpoint for_each {A} (items : list A) (body : A -> M unit) : M unit :=
  match items with
  | [] => ret tt
  | x :: rest => body x ;; for_each rest body
  end.

(** *** Primitive steps *)

(** [datetime.now()] *)
Definition now : M datetime :=
  fun w => (Ok (wall (clock w (ticks w))), set_ticks (S (ticks w)) w).

(** [int(time.time() * 1000)] *)
Definition time_ms : M Z :=
  fun w => (Ok (epoch_ms (clock w (ticks w))), set_ticks (S (ticks w)) w).

(** [self.logger.<lvl>(...)] *)
Definition log (lvl : level) (r : log_record) : M unit :=
  modify (record (Logged lvl r)).

(** A call through [self.client], noted in the trace with the way it
    ended. *)
Definition remote {A} (c : remote_call) (call : R -> result A * R) : M A :=
  fun w => let '(r, x) := call (client w) in
           (r, set_client x (record (Remote c (is_ok r)) w)).

Definition set_last_sync (t : datetime) : M unit :=
  modify (fun w =>
    let s := sync_state w in
    set_sync_state
      {| last_sync := t; react_version := react_version s;
         python_version := python_version s;
         pending_changes := pending_changes s;
         conflict_resolution := conflict_resolution s |} w).

Definition set_react_version (v : pyval) : M unit :=
  modify (fun w =>
    let s := sync_state w in
    set_sync_state
      {| last_sync := last_sync s; react_version := v;
         python_version := python_version s;
         pending_changes := pending_changes s;
         conflict_resolution := conflict_resolution s |} w).

Definition set_python_version (v : pyval) : M unit :=
  modify (fun w =>
    let s := sync_state w in
    set_sync_state
      {| last_sync := last_sync s; react_version := react_version s;
         python_version := v;
         pending_changes := pending_changes s;
         conflict_resolution := conflict_resolution s |} w).

Definition set_pending_changes (v : pyval) : M unit :=
  modify (fun w =>
    let s := sync_state w in
    set_sync_state
      {| last_sync := last_sync s; react_version := react_version s;
         python_version := python_version s;
         pending_changes := v;
         conflict_resolution := conflict_resolution s |} w).

(** [with open(path, 'w') as f: json.dump(data, f, indent=2, default=str)] *)
Definition write_file (data : pyval) : M unit :=
  fun w => if file_writable w
           then (Ok tt, set_state_file (FileJson (json_roundtrip data))
                          (record (Wrote (json_roundtrip data)) w))
           else (Raise OSError, w).

(** [datetime.fromisoformat(v)] on a dynamic value. *)
Definition py_fromisoformat (v : pyval) : result datetime :=
  match v with
  | PStr s => fromisoformat s
  | _ => Raise TypeError
  end.

(** *** The local cache file *)

Definition _load_shared_state : M unit :=
  try_except
    (file <- gets state_file ;;
     match file with
     | FileAbsent => ret tt
     | FileUnreadable => raise OSError
     | FileCorrupt => raise JSONDecodeError
     | FileJson state_data =>
         has_sync_state <- lift (py_contains "sync_state" state_data) ;;
         (if has_sync_state : bool then
            sync_data <- lift (py_getitem state_data "sync_state") ;;
            stamp <- lift (py_getitem sync_data "last_sync") ;;
            t <- lift (py_fromisoformat stamp) ;;
            set_last_sync t ;;
            rv <- lift (py_get sync_data "react_version" (PInt 0)) ;;
            set_react_version rv ;;
            pv <- lift (py_get sync_data "python_version" (PInt 0)) ;;
            set_python_version pv ;;
            pc <- lift (py_get sync_data "pending_changes" (PList [])) ;;
            set_pending_changes pc
          else ret tt) ;;
         cache <- lift (py_get state_data "local_cache" (PDict [])) ;;
         modify (set_local_cache cache) ;;
         log Info Log_state_loaded
     end)
    (fun e => log Warning (Log_load_failed e)).

(** The document [_save_shared_state] builds; [updated] is the clock
    reading taken for ['last_updated']. *)
Definition state_document (w : bridge) (updated : datetime) : pyval :=
  PDict
    [("sync_state",
      PDict [("last_sync", PStr (isoformat (last_sync (sync_state w))));
             ("react_version", react_version (sync_state w));
             ("python_version", python_version (sync_state w));
             ("pending_changes", pending_changes (sync_state w));
             ("conflict_resolution",
              PStr (conflict_resolution (sync_state w)))]);
     ("local_cache", local_cache w);
     ("metadata",
      PDict [("bridge_version", PStr "1.0");
             ("last_updated", PStr (isoformat updated));
             ("auto_sync", PBool (auto_sync (config w)));
             ("bidirectional", PBool (bidirectional (config w)))])].

Definition _save_shared_state : M unit :=
  try_except
    (updated <- now ;;
     state_data <- gets (fun w => state_document w updated) ;;
     write_file state_data ;;
     log Debug Log_state_saved)
    (fun e => log Error (Log_save_failed e)).

(** [MysticalBridge(config, api_client)] in given surroundings. *)
Definition blank (cfg : BridgeConfig) (api_client : R)
    (file : file_content) (writable : bool) (clk : nat -> instant)
  : bridge :=
  {| config := cfg; client := api_client;
     sync_state := new_SyncState (wall (clk O));
     message_queue := []; event_handlers := ∅; local_cache := PDict [];
     state_file := file; file_writable := writable; clock := clk;
     ticks := 1; trace := [] |}.

Definition __init__ (cfg : BridgeConfig) (api_client : R)
    (file : file_content) (writable : bool) (clk : nat -> instant)
  : bridge :=
  snd (_load_shared_state (blank cfg api_client file writable clk)).

(** *** The event bus *)

Definition register_event_handler (event_type : string) (h : handler)
  : M unit :=
  modify (fun w =>
    set_event_handlers
      (<[event_type := default [] (event_handlers w !! event_type) ++ [h]]>
         (event_handlers w)) w).

(** [self.message_queue.put(message)] on the unbounded queue. *)
Definition queue_put (message : BridgeMessage) : M unit :=
  modify (fun w =>
    set_message_queue (message_queue w ++ [message])
      (record (Queued message) w)).

(** [handler(message)] *)
Definition invoke (h : handler) (message : BridgeMessage) : M unit :=
  modify (record (Invoked (handler_name h) message)) ;;
  lift (handler_call h message).

Definition new_message (event_type : string) (payload : pyval)
  : M BridgeMessage :=
  stamp <- now ;;
  ms <- time_ms ;;
  ret {| message_type := event_type; timestamp := stamp;
         source := "python"; payload := payload;
         message_id := "python_" +:+ str_of_int ms |}.

Definition call_handlers (message : BridgeMessage) (hs : list handler)
  : M unit :=
  for_each hs (fun h =>
    try_except (invoke h message)
      (fun e => log Error (Log_handler_error e))).

Definition emit_event (event_type : string) (payload : pyval) : M unit :=
  message <- new_message event_type payload ;;
  queue_put message ;;
  registered <- gets (fun w => event_handlers w !! event_type) ;;
  match registered with
  | Some hs => call_handlers message hs
  | None => ret tt
  end.

(** The message [emit_event] builds in state [w]. *)
Definition event_message (event_type : string) (payload : pyval) (w : bridge)
  : BridgeMessage :=
  {| message_type := event_type;
     timestamp := wall (clock w (ticks w));
     source := "python";
     payload := payload;
     message_id := "python_" +:+ str_of_int (epoch_ms (clock w (S (ticks w)))) |}.

(** What delivering [message] to [h] leaves in the trace. *)
Definition delivery (message : BridgeMessage) (h : handler) : list effect :=
  Invoked (handler_name h) message
  :: match handler_call h message with
     | Ok _ => []
     | Raise e => [Logged Error (Log_handler_error e)]
     end.

(** A bridge whose remote store, queue, clock and trace have moved on and
    whose other attributes and surroundings are as before. *)
Definition touch (x : R) (queued : list BridgeMessage) (readings : nat)
    (es : list effect) (w : bridge) : bridge :=
  {| config := config w; client := x; sync_state := sync_state w;
     message_queue := message_queue w ++ queued;
     event_handlers := event_handlers w;
     local_cache := local_cache w; state_file := state_file w;
     file_writable := file_writable w; clock := clock w;
     ticks := ticks w + readings;
     trace := trace w ++ es |}.

(** *** Export *)

(** The local variables of the loop over the collection's entries. *)
Record tally := {
  exported : list pyval;
  total_size : Z;
  categories : list (string * Z);
  all_key_terms : list string;
  dates : list (option datetime)
}.

Definition empty_tally : tally :=
  {| exported := []; total_size := 0; categories := [];
     all_key_terms := []; dates := [] |}.

(** One iteration.  [entry.fullText.split()] fails on [None], and
    [entry.bookmark] on an entry that is no [CodexEntryWithBookmark]. *)
Definition tally_entry (acc : tally) (entry : CodexEntry) : result tally :=
  match fullText entry with
  | None => Raise AttributeError
  | Some text =>
      match bookmark entry with
      | None => Raise AttributeError
      | Some bm =>
          let python_metadata :=
            PDict
              [("word_count", PInt (word_count text));
               ("char_count", PInt (Z.of_nat (String.length text)));
               ("summary_length",
                PInt (Z.of_nat (String.length (summary entry))));
               ("has_bookmark",
                PBool (match bm with Some _ => true | None => false end));
               ("bookmark_notes",
                match bm with
                | Some b => py_option PStr (personalNotes b)
                | None => PNone
                end)] in
          Ok {| exported :=
                  exported acc
                  ++ [PDict (dict_set (entry_dict entry)
                               "python_metadata" python_metadata)];
                total_size := total_size acc + size entry;
                categories :=
                  dict_set (categories acc) (category entry)
                    (dict_get (categories acc) (category entry) 0 + 1);
                all_key_terms :=
                  match keyTerms entry with
                  | Some (t :: ts) => set_update (all_key_terms acc) (t :: ts)
                  | _ => all_key_terms acc
                  end;
                dates := dates acc ++ [processedDate entry] |}
      end
  end.

Fixpoint tally_entries (acc : tally) (es : list CodexEntry) : result tally :=
  match es with
  | [] => Ok acc
  | entry :: rest =>
      match tally_entry acc entry with
      | Ok acc' => tally_entries acc' rest
      | Raise e => Raise e
      end
  end.

Fixpoint all_present {A} (l : list (option A)) : option (list A) :=
  match l with
  | [] => Some []
  | None :: _ => None
  | Some a :: rest =>
      match all_present rest with
      | Some r => Some (a :: r)
      | None => None
      end
  end.

(** The ['date_range'] entry: [min] and [max] raise [TypeError] when a
    [None] is compared, and a lone [None] has no [isoformat]. *)
Definition date_range (ds : list (option datetime)) : result pyval :=
  match ds with
  | [] => Ok (PDict [("earliest", PNone); ("latest", PNone)])
  | [None] => Raise AttributeError
  | d :: rest =>
      match all_present (d :: rest) with
      | Some (t :: ts) =>
          Ok (PDict [("earliest", PStr (isoformat (fold_right Z.min t ts)));
                     ("latest", PStr (isoformat (fold_right Z.max t ts)))])
      | _ => Raise TypeError
      end
  end.

Definition py_categories (c : list (string * Z)) : pyval :=
  PDict (map (fun kv => (fst kv, PInt (snd kv))) c).

Definition export_document (target : CollectionWithEntries)
    (at_ : datetime) (t : tally) (range : pyval) : pyval :=
  PDict
    [("collection_info",
      PDict [("id", PStr (collection_id (collection target)));
             ("title", PStr (title (collection target)));
             ("notes", py_option PStr (notes (collection target)));
             ("entry_count", PInt (Z.of_nat (length (entries target))));
             ("exported_at", PStr (isoformat at_));
             ("export_source", PStr "mystical_bridge")]);
     ("entries", PList (exported t));
     ("metadata",
      PDict [("total_size", PInt (total_size t));
             ("categories", py_categories (categories t));
             ("key_terms", py_strings (all_key_terms t));
             ("date_range", range)])].

Definition cache_key (id : string) : string := "collection_export_" +:+ id.

(** [self.local_cache[key] = value] *)
Definition cache_store (key : string) (value : pyval) : M unit :=
  cache <- gets local_cache ;;
  cache' <- lift (py_setitem cache key value) ;;
  modify (set_local_cache cache').

Definition export_collection_for_python (id : string) : M pyval :=
  try_except
    (collections <- remote Get_collections get_collections ;;
     match find (fun c => String.eqb (collection_id (collection c)) id)
             collections with
     | None => raise (ValueError ("Collection " +:+ id +:+ " not found"))
     | Some target_collection =>
         info_stamp <- now ;;
         t <- lift (tally_entries empty_tally (entries target_collection)) ;;
         range <- lift (date_range (dates t)) ;;
         let export_data :=
           export_document target_collection info_stamp t range in
         exported_at <- now ;;
         expiry_base <- now ;;
         cache_store (cache_key id)
           (PDict [("data", export_data);
                   ("exported_at", PStr (isoformat exported_at));
                   ("expires_at",
                    PStr (isoformat (expiry_base + timedelta_hours 1)))]) ;;
         emit_event "collection_exported"
           (PDict [("collection_id", PStr id);
                   ("entry_count", PInt (Z.of_nat (length (exported t))));
                   ("total_size", PInt (total_size t))]) ;;
         ret export_data
     end)
    (fun e => log Error (Log_export_failed e) ;; raise e).

(** Readings of an exported document: the number of exported items and
    the sum of the category histogram. *)
Definition exported_count (export_data : pyval) : option nat :=
  match py_getitem export_data "entries" with
  | Ok (PList l) => Some (length l)
  | _ => None
  end.

Definition sum_counts (d : list (string * pyval)) : option Z :=
  fold_right (fun kv acc => match snd kv, acc with
                            | PInt n, Some a => Some (n + a)
                            | _, _ => None
                            end) (Some 0) d.

Definition histogram_total (export_data : pyval) : option Z :=
  match py_getitem export_data "metadata" with
  | Ok metadata =>
      match py_getitem metadata "categories" with
      | Ok (PDict c) => sum_counts c
      | _ => None
      end
  | Raise _ => None
  end.

(** [self.local_cache[key][field]] *)
Definition cached_field (w : bridge) (key field : string) : result pyval :=
  match py_getitem (local_cache w) key with
  | Ok entry => py_getitem entry field
  | Raise e => Raise e
  end.

(** *** Import *)

(** Whether an item of a batch is a dictionary. *)
Definition is_record (item : pyval) : bool :=
  match item with PDict _ => true | _ => false end.

Definition required_fields : list string :=
  ["entryId"; "content"; "authorName"].

(** [all(key in annotation_data for key in keys)] *)
Fixpoint has_all (keys : list string) (annotation_data : pyval)
  : result bool :=
  match keys with
  | [] => Ok true
  | key :: rest =>
      match py_contains key annotation_data with
      | Ok true => has_all rest annotation_data
      | Ok false => Ok false
      | Raise e => Raise e
      end
  end.

(** [self.client.create_annotation(...)] with its arguments. *)
Definition create_from (annotation_data : pyval) : M Annotation :=
  entry_id <- lift (py_getitem annotation_data "entryId") ;;
  content <- lift (py_getitem annotation_data "content") ;;
  author_name <-
    lift (py_get annotation_data "authorName" (PStr "Python Bridge")) ;;
  remote (Create_annotation entry_id content author_name)
    (create_annotation entry_id content author_name).

(** The loop of [import_python_annotations]; [imported_ids] is the list
    it appends to, handed back together with the way the loop ended. *)
Fixpoint import_loop (items : list pyval) (imported_ids : list string)
    (w : bridge) : list string * result unit * bridge :=
  match items with
  | [] => (imported_ids, Ok tt, w)
  | annotation_data :: rest =>
      match has_all required_fields annotation_data with
      | Raise e => (imported_ids, Raise e, w)
      | Ok false =>
          import_loop rest imported_ids
            (snd (log Warning (Log_skipping_invalid annotation_data) w))
      | Ok true =>
          match create_from annotation_data w with
          | (Ok annotation, w') =>
              import_loop rest (imported_ids ++ [annotation_id annotation]) w'
          | (Raise e, w') => (imported_ids, Raise e, w')
          end
      end
  end.

Definition import_python_annotations (annotations_data : pyval)
  : M (list string) :=
  fun w =>
    let failed (imported_ids : list string) (e : exn) (w' : bridge) :=
      (Ok imported_ids, snd (log Error (Log_import_failed e) w')) in
    match py_iter annotations_data with
    | Raise e => failed [] e w
    | Ok items =>
        match import_loop items [] w with
        | (imported_ids, Raise e, w') => failed imported_ids e w'
        | (imported_ids, Ok _, w') =>
            match
              (emit_event "annotations_imported"
                 (PDict [("count", PInt (Z.of_nat (length imported_ids)));
                         ("annotation_ids", py_strings imported_ids)]) ;;
               log Info (Log_imported (length imported_ids))) w'
            with
            | (Ok _, w'') => (Ok imported_ids, w'')
            | (Raise e, w'') => failed imported_ids e w''
            end
        end
    end.

(** *** Synchronisation of local data *)

Definition sync_bookmark (bookmark_data : pyval) : M unit :=
  entry_id <- lift (py_getitem bookmark_data "entryId") ;;
  is_bookmarked <- lift (py_get bookmark_data "isBookmarked" (PBool true)) ;;
  personal_notes <- lift (py_get bookmark_data "personalNotes" PNone) ;;
  remote (Create_bookmark entry_id is_bookmarked personal_notes)
    (create_bookmark entry_id is_bookmarked personal_notes) ;;
  ret tt.

Definition sync_collection (collection_data : pyval) : M unit :=
  title <- lift (py_getitem collection_data "title") ;;
  entry_ids <- lift (py_get collection_data "entryIds" (PList [])) ;;
  notes <- lift (py_get collection_data "notes" PNone) ;;
  is_public <- lift (py_get collection_data "isPublic" (PBool false)) ;;
  remote (Create_collection title entry_ids notes is_public)
    (create_collection title entry_ids notes is_public) ;;
  ret tt.

(** [if key in python_data: ... python_data[key] ...] *)
Definition when_present (key : string) (python_data : pyval)
    (body : pyval -> M unit) : M unit :=
  present <- lift (py_contains key python_data) ;;
  if present : bool
  then (value <- lift (py_getitem python_data key) ;; body value)
  else ret tt.

Definition sync_python_data_to_react (python_data : pyval) : M bool :=
  try_except
    (when_present "bookmarks" python_data (fun bookmarks =>
       items <- lift (py_iter bookmarks) ;;
       for_each items sync_bookmark) ;;
     when_present "annotations" python_data (fun annotations =>
       import_python_annotations annotations ;; ret tt) ;;
     when_present "collections" python_data (fun collections =>
       items <- lift (py_iter collections) ;;
       for_each items sync_collection) ;;
     version <- gets (fun w => python_version (sync_state w)) ;;
     version' <- lift (py_succ version) ;;
     set_python_version version' ;;
     stamp <- now ;;
     set_last_sync stamp ;;
     _save_shared_state ;;
     data_types <- lift (py_keys python_data) ;;
     sync_version <- gets (fun w => python_version (sync_state w)) ;;
     emit_event "python_data_synced"
       (PDict [("data_types", data_types);
               ("sync_version", sync_version)]) ;;
     ret true)
    (fun e => log Error (Log_sync_failed e) ;; ret false).

(** *** Polling and utilities *)

(** [current_time - timedelta(seconds=self.config.sync_interval * 2)] *)
Definition time_threshold (current_time : datetime) (interval : Z)
  : result datetime :=
  match timedelta_of_seconds (interval * 2) with
  | Ok doubled => datetime_minus current_time doubled
  | Raise e => Raise e
  end.

Definition _check_for_changes : M unit :=
  try_except
    (current_time <- now ;;
     interval <- gets (fun w => sync_interval (config w)) ;;
     _ <- lift (time_threshold current_time interval) ;;
     previous <- gets (fun w => last_sync (sync_state w)) ;;
     span <- lift (timedelta_of_seconds interval) ;;
     if span <? current_time - previous
     then (set_last_sync current_time ;; _save_shared_state)
     else ret tt)
    (fun e => log Error (Log_change_detection_failed e)).

Definition clear_cache : M unit :=
  cache <- gets local_cache ;;
  match cache with
  | PDict _ => modify (set_local_cache (PDict []))
  | PList _ => modify (set_local_cache (PList []))
  | _ => raise AttributeError
  end ;;
  _save_shared_state ;;
  log Info Log_cache_cleared.

Definition force_sync : M unit :=
  try_except
    (_check_for_changes ;;
     stamp <- now ;;
     set_last_sync stamp ;;
     _save_shared_state ;;
     emitted_at <- now ;;
     sync_version <- gets (fun w => python_version (sync_state w)) ;;
     emit_event "force_sync_completed"
       (PDict [("timestamp", PStr (isoformat emitted_at));
               ("sync_version", sync_version)]) ;;
     log Info Log_force_sync_completed)
    (fun e => log Error (Log_force_sync_failed e)).

(** The operations a caller can run on a bridge, and their effect on
    its state. *)
Inductive operation : Type :=
| Register_event_handler (event_type : string) (h : handler)
| Emit_event (event_type : string) (payload : pyval)
| Export_collection_for_python (id : string)
| Import_python_annotations (annotations_data : pyval)
| Sync_python_data_to_react (python_data : pyval)
| Check_for_changes
| Save_shared_state
| Clear_cache
| Force_sync.

Definition run (op : operation) (w : bridge) : bridge :=
  match op with
  | Register_event_handler t h => snd (register_event_handler t h w)
  | Emit_event t p => snd (emit_event t p w)
  | Export_collection_for_python id => snd (export_collection_for_python id w)
  | Import_python_annotations a => snd (import_python_annotations a w)
  | Sync_python_data_to_react d => snd (sync_python_data_to_react d w)
  | Check_for_changes => snd (_check_for_changes w)
  | Save_shared_state => snd (_save_shared_state w)
  | Clear_cache => snd (clear_cache w)
  | Force_sync => snd (force_sync w)
  end.

(** *** Notions for the proofs *)

(** A step that only moves the bridge on: the remote store, the queue
    (by ['annotations_imported'] messages only), the clock and the trace
    change; when the step returns, any remote call that raised was a
    [create_annotation]. *)
Definition moves_on {A} (m : M A) : Prop :=
  forall w r w',
    m w = (r, w') ->
    exists x q n es,
      w' = touch x q n es w
      /\ Forall (fun msg => message_type msg = "annotations_imported") q
      /\ (is_ok r = true -> Forall creates_annotation (failed_calls es)).

(** A step that leaves the reading [f] of the bridge as it was. *)
Definition keeps {X A} (f : bridge -> X) (m : M A) : Prop :=
  forall w, f (snd (m w)) = f w.

(** The local version counter. *)
Definition version (w : bridge) : pyval := python_version (sync_state w).

(** The document and the state [_save_shared_state] leaves behind. *)
Definition saved_document (w : bridge) : pyval :=
  json_roundtrip (state_document w (wall (clock w (ticks w)))).

Definition saved (w : bridge) : bridge :=
  if file_writable w
  then record (Logged Debug Log_state_saved)
         (set_state_file (FileJson (saved_document w))
            (record (Wrote (saved_document w)) (set_ticks (S (ticks w)) w)))
  else record (Logged Error (Log_save_failed OSError))
         (set_ticks (S (ticks w)) w).

End Methods.

(** *** A scripted remote store, for examples *)

(** [mock_collections] is what listing the collections gives,
    [mock_script] says for each create call in turn whether it succeeds
    (calls beyond the script succeed), [mock_calls] counts the create
    calls made. *)
Record mock := {
  mock_collections : result (list CollectionWithEntries);
  mock_script : list bool;
  mock_calls : nat
}.

Definition mock_text (v : pyval) : string :=
  match v with PStr s => s | _ => "" end.

Definition mock_create {A} (made : string -> A) (m : mock) : result A * mock :=
  let m' := {| mock_collections := mock_collections m;
               mock_script := mock_script m;
               mock_calls := S (mock_calls m) |} in
  if nth (mock_calls m) (mock_script m) true
  then (Ok (made (str_of_int (Z.of_nat (mock_calls m)))), m')
  else (Raise (MysticalAPIError "API request failed with status 500"), m').

#[export] Instance mock_client : Client mock := {
  get_collections m := (mock_collections m, m);
  create_annotation entry_id content author_name :=
    mock_create (fun n =>
      {| annotation_id := "annotation_" +:+ n;
         annotation_entryId := mock_text entry_id;
         content := mock_text content;
         authorName := mock_text author_name;
         annotation_createdAt := y2025 |});
  create_bookmark entry_id is_bookmarked personal_notes :=
    mock_create (fun n =>
      {| bookmark_id := "bookmark_" +:+ n;
         bookmark_entryId := mock_text entry_id;
         isBookmarked := truthy is_bookmarked;
         personalNotes := None;
         bookmark_createdAt := y2025;
         bookmark_updatedAt := y2025 |});
  create_collection title entry_ids notes is_public :=
    mock_create (fun n =>
      {| collection_id := "collection_" +:+ n;
         title := mock_text title;
         entryIds := [];
         notes := None;
         isPublic := truthy is_public;
         collection_createdAt := y2025;
         collection_updatedAt := y2025 |})
}.

Definition mock_store (script : list bool) : mock :=
  {| mock_collections := Ok []; mock_script := script; mock_calls := 0 |}.

(** A clock that starts at 2025-01-01T00:00:00 and advances by one
    microsecond per reading. *)
Definition ticking : nat -> instant :=
  fun n => {| wall := Z.of_nat n + y2025;
              epoch_ms := 1735689600000 |}.

(** A [fromisoformat] that knows the one string the examples use. *)
Definition parse_example (s : string) : result datetime :=
  if String.eqb s "2025-01-01T00:00:00" then Ok y2025
  else Raise (ValueError "Invalid isoformat string").

(** A collection of two bookmarkable entries, and a store that lists it. *)
Definition sample_entry (id category text : string) : CodexEntry :=
  {| entry_id := id; filename := id +:+ ".txt"; entry_type := "text";
     size := 120; originalSize := None; processedDate := Some y2025;
     summary := "A short summary"; keyChunks := None;
     fullText := Some text; category := category; subcategory := None;
     keyTerms := Some ["moon"; "tide"]; bookmark := Some None |}.

Definition sample_collection : CollectionWithEntries :=
  {| collection :=
       {| collection_id := "c1"; title := "Lunar notes"; entryIds := ["e1"; "e2"];
          notes := None; isPublic := false;
          collection_createdAt := y2025; collection_updatedAt := y2025 |};
     entries := [sample_entry "e1" "cosmogenesis" "the moon rises";
                 sample_entry "e2" "cosmogenesis" "the tide turns"] |}.

Definition sample_store : mock :=
  {| mock_collections := Ok [sample_collection]; mock_script := [];
     mock_calls := 0 |}.

Definition unreachable_store : mock :=
  {| mock_collections :=
       Raise (MysticalAPIError "Request failed: Connection refused");
     mock_script := []; mock_calls := 0 |}.

Definition annotation_record (entry content author : string) : pyval :=
  PDict [("entryId", PStr entry); ("content", PStr content);
         ("authorName", PStr author)].

End Bridge.

(** ** What [json] keeps as it is *)

Module Json.

(** A value with no [datetime] object in it: [json.dump] needs no
    [default] for it. *)
Fixpoint json_plain (v : pyval) : bool :=
  match v with
  | PDatetime _ => false
  | PList l => forallb json_plain l
  | PDict d => forallb (fun kv => json_plain (snd kv)) d
  | _ => true
  end.

End Json.

(** ** The cache and the guarded methods of the client *)

Module ApiMethods.
Import ApiClient.

(** [OracleResponse] of [models.py]. *)
Record OracleResponse := {
  response : string;
  consultationId : string
}.

(** The client object as its methods see it: the request loop's part
    ([core]), the two cache dictionaries, [time.time()] ([time n] is the
    [n]-th reading, in microseconds; [time_reads] counts the readings made)
    and the lines printed. *)
Record api := {
  core : client;
  _cache : gmap string pyval;
  _cache_timestamps : gmap string Z;
  time : nat -> Z;
  time_reads : nat;
  printed : list string
}.

Definition set_core (c : client) (a : api) : api :=
  {| core := c; _cache := _cache a;
     _cache_timestamps := _cache_timestamps a; time := time a;
     time_reads := time_reads a; printed := printed a |}.

Definition set_caches (values : gmap string pyval) (stamps : gmap string Z)
    (a : api) : api :=
  {| core := core a; _cache := values; _cache_timestamps := stamps;
     time := time a; time_reads := time_reads a; printed := printed a |}.

(** [MysticalAPIClient(config)] in given surroundings. *)
Definition new_api (cfg : PythonConfig) (srv : nat -> request -> outcome)
    (clk : nat -> Z) : api :=
  {| core := {| config := cfg; server := srv; sent := []; slept := [] |};
     _cache := ∅; _cache_timestamps := ∅; time := clk; time_reads := 0;
     printed := [] |}.

(** A method body of the client. *)
Definition Call (A : Type) : Type := api -> result A * api.

Definition ret {A} (x : A) : Call A := fun a => (Ok x, a).

Definition bind {A B} (m : Call A) (k : A -> Call B) : Call B :=
  fun a => match m a with
           | (Ok x, a') => k x a'
           | (Raise e, a') => (Raise e, a')
           end.

Definition raise {A} (e : exn) : Call A := fun a => (Raise e, a).

Definition lift {A} (r : result A) : Call A := fun a => (r, a).

Definition gets {A} (f : api -> A) : Call A := fun a => (Ok (f a), a).
Definition modify (f : api -> api) : Call unit := fun a => (Ok tt, f a).

(** [try: body / except: handle e] *)
Definition try_except {A} (body : Call A) (handle : exn -> Call A) : Call A :=
  fun a => match body a with
           | (Ok x, a') => (Ok x, a')
           | (Raise e, a') => handle e a'
           end.

(** [time.time()] *)
Definition time_time : Call Z :=
  fun a => (Ok (time a (time_reads a)),
            {| core := core a; _cache := _cache a;
               _cache_timestamps := _cache_timestamps a; time := time a;
               time_reads := S (time_reads a); printed := printed a |}).

(** [print(line)] *)
Definition print (line : string) : Call unit :=
  fun a => (Ok tt,
            {| core := core a; _cache := _cache a;
               _cache_timestamps := _cache_timestamps a; time := time a;
               time_reads := time_reads a; printed := printed a ++ [line] |}).

(** [str.lower()], on ASCII letters; other bytes stay. *)
Definition lower_char (c : ascii) : ascii :=
  let n := nat_of_ascii c in
  if ((65 <=? n) && (n <=? 90))%nat then ascii_of_nat (n + 32) else c.

Fixpoint lower (s : string) : string :=
  match s with
  | EmptyString => EmptyString
  | String c rest => String (lower_char c) (lower rest)
  end.

(** [[parse(x) for x in data]]: the first failure ends it. *)
Fixpoint parse_each {A} (parse : pyval -> result A) (items : list pyval)
  : result (list A) :=
  match items with
  | [] => Ok []
  | x :: rest =>
      match parse x with
      | Ok y => match parse_each parse rest with
                | Ok ys => Ok (y :: ys)
                | Raise e => Raise e
                end
      | Raise e => Raise e
      end
  end.

Definition parse_all {A} (parse : pyval -> result A) (data : pyval)
  : result (list A) :=
  match py_iter data with
  | Ok items => parse_each parse items
  | Raise e => Raise e
  end.

(** [response.json()] on what [_make_request] returned; [None] has no
    such method. *)
Definition response_json (r : option Response) : result pyval :=
  match r with
  | Some r => json r
  | None => Raise AttributeError
  end.

(** The terms [consult_oracle] takes for a sign of exhausted limits. *)
Definition fallback_terms : list string :=
  ["quota"; "billing"; "rate"; "limit"; "429"; "meditation";
   "cosmic energies"].

Definition fallback_text : string :=
  "The Oracle is currently in deep meditation due to cosmic energy limitations. Your query has been received and will be answered when the mystical channels clear.".

Section Methods.
(** [str()] of a list or dictionary, of an exception that carries no text
    of its own, and the two pydantic constructors applied to [**data]. *)
Variable str_of_container : pyval -> string.
Variable str_of_exception : exn -> string.
Variable CodexEntryWithBookmark : pyval -> result Bridge.CodexEntry.
Variable parse_OracleResponse : pyval -> result OracleResponse.

Local Notation "x <- m ;; k" := (bind m (fun x => k))
  (at level 100, m at next level, right associativity).
Local Notation "m ;; k" := (bind m (fun _ => k))
  (at level 100, right associativity).

(** [str(e)] *)
Definition str_of_exn (e : exn) : string :=
  match e with
  | MysticalAPIError msg | RequestException msg | ValueError msg
  | HandlerError msg => msg
  | _ => str_of_exception e
  end.

(** [self._make_request(method, endpoint, **kwargs)] *)
Definition request (method endpoint : string)
    (kwargs : list (string * pyval)) : Call (option Response) :=
  fun a =>
    let '(r, c) := _make_request str_of_container method endpoint kwargs
                     (core a) in
    (r, set_core c a).

Definition _get_cached (key : string) : Call pyval :=
  enabled <- gets (fun a => cache_enabled (config (core a))) ;;
  if negb enabled then ret PNone
  else
    found <- gets (fun a => _cache a !! key) ;;
    match found with
    | Some value =>
        timestamp <- gets (fun a => default 0 (_cache_timestamps a !! key)) ;;
        now <- time_time ;;
        duration <- gets (fun a => cache_duration (config (core a))) ;;
        if now - timestamp <? timedelta_seconds duration then ret value
        else
          modify (fun a => set_caches (delete key (_cache a))
                             (delete key (_cache_timestamps a)) a) ;;
          ret PNone
    | None => ret PNone
    end.

Definition _set_cache (key : string) (value : pyval) : Call unit :=
  enabled <- gets (fun a => cache_enabled (config (core a))) ;;
  if enabled : bool then
    modify (fun a => set_caches (<[key := value]> (_cache a))
                       (_cache_timestamps a) a) ;;
    now <- time_time ;;
    modify (fun a => set_caches (_cache a)
                       (<[key := now]> (_cache_timestamps a)) a)
  else ret tt.

Definition get_all_entries : Call (list Bridge.CodexEntry) :=
  let cache_key := "all_entries" in
  cached <- _get_cached cache_key ;;
  if truthy cached then lift (parse_all CodexEntryWithBookmark cached)
  else
    response <- request "GET" "/codex/entries" [] ;;
    entries_data <- lift (response_json response) ;;
    _set_cache cache_key entries_data ;;
    lift (parse_all CodexEntryWithBookmark entries_data).

Definition get_entry (entry_id : string) : Call (option Bridge.CodexEntry) :=
  let cache_key := "entry_" +:+ entry_id in
  cached <- _get_cached cache_key ;;
  if truthy cached then
    entry <- lift (CodexEntryWithBookmark cached) ;;
    ret (Some entry)
  else
    try_except
      (response <- request "GET" ("/codex/entries/" +:+ entry_id) [] ;;
       entry_data <- lift (response_json response) ;;
       _set_cache cache_key entry_data ;;
       entry <- lift (CodexEntryWithBookmark entry_data) ;;
       ret (Some entry))
      (fun e => match e with
                | MysticalAPIError _ => ret None
                | _ => raise e
                end).

Definition consult_oracle (query : string) (context : option string)
  : Call OracleResponse :=
  try_except
    (let oracle_request :=
       PDict [("query", PStr query);
              ("context", Bridge.py_option PStr context)] in
     response <- request "POST" "/oracle/consult"
                   [("json", oracle_request)] ;;
     data <- lift (response_json response) ;;
     lift (parse_OracleResponse data))
    (fun e =>
       let error_str := str_of_exn e in
       if existsb (fun term => str_contains term (lower error_str))
            fallback_terms
       then
         print "🌙 Oracle consultation temporarily unavailable due to API limits" ;;
         now <- time_time ;;
         ret {| response := fallback_text;
                consultationId :=
                  "fallback_oracle_" +:+ str_of_int (now / usec_per_second) |}
       else raise (MysticalAPIError
                     ("Oracle consultation failed: " +:+ error_str))).

Definition check_connection : Call bool :=
  try_except
    (response <- request "GET" "/health" [] ;;
     match response with
     | Some r => ret (status_code r =? 200)
     | None => raise AttributeError
     end)
    (fun _ => ret false).

Definition get_system_info : Call pyval :=
  try_except
    (response <- request "GET" "/system/info" [] ;;
     lift (response_json response))
    (fun _ => ret (PDict [("status", PStr "unknown");
                          ("connection", PBool false)])).

End Methods.

(** *** Notions for the proofs *)

(** The two cache dictionaries have the same keys. *)
Definition caches_agree (a : api) : Prop :=
  dom (_cache a) = dom (_cache_timestamps a).

(** A method that keeps a property of the client. *)
Definition preserves {A} (P : api -> Prop) (m : Call A) : Prop :=
  forall a, P a -> P (snd (m a)).

(** *** A scripted server and constructors, for examples *)

(** A clock that starts at zero and advances by one second per reading. *)
Definition seconds : nat -> Z := fun n => Z.of_nat n * usec_per_second.

(** A constructor that accepts any object with a string ['id']. *)
Definition entry_of_id (data : pyval) : result Bridge.CodexEntry :=
  match data with
  | PDict d =>
      match dict_lookup d "id" with
      | Some (PStr id) => Ok (Bridge.sample_entry id "cosmogenesis" "the moon rises")
      | _ => Raise ValidationError
      end
  | _ => Raise TypeError
  end.

Definition oracle_of_dict (data : pyval) : result OracleResponse :=
  match data with
  | PDict d =>
      match dict_lookup d "response", dict_lookup d "consultationId" with
      | Some (PStr r), Some (PStr c) =>
          Ok {| response := r; consultationId := c |}
      | _, _ => Raise ValidationError
      end
  | _ => Raise TypeError
  end.

Definition exception_name (e : exn) : string :=
  match e with
  | TypeError => "TypeError"
  | KeyError k => k
  | AttributeError => "AttributeError"
  | OSError => "OSError"
  | JSONDecodeError => "JSONDecodeError"
  | ValidationError => "ValidationError"
  | _ => ""
  end.

(** A client whose server answers every request with [status] and
    [body]. *)
Definition answering (cfg : PythonConfig) (status : Z) (body : result pyval)
  : api :=
  new_api cfg (fun _ _ => Responded {| status_code := status; json := body |})
    seconds.

End ApiMethods.

(** ** The message loop of the bridge *)

Module Daemon.
Import Bridge.

(** The logging calls of the message loop and of the analysis export, by
    call site. *)
Inductive note : Type :=
| Note_processing (type source : string)
| Note_unknown_type (type : string)
| Note_processing_error (e : exn)
| Note_collection_exported (collection_id : pyval)
| Note_data_synced
| Note_data_sync_failed
| Note_status_update (source : string) (status : pyval)
| Note_analysis_export_failed (e : exn).

(** The message types the loop acts on. *)
Definition handled (type : string) : bool :=
  String.eqb type "data_request" || String.eqb type "data_sync"
  || String.eqb type "status_update".

Section Loop.
Context {R : Type} `{Client R}.

(** [str()] of a list or dictionary. *)
Variable str_of_container : pyval -> string.

(** The bridge, and beside it what its message loop logged. *)
Record station := {
  bridge_of : @bridge R;
  journal : list (level * note)
}.

(** A method body of the loop. *)
Definition D (A : Type) : Type := station -> result A * station.

Definition pure {A} (x : A) : D A := fun s => (Ok x, s).

Definition next {A B} (m : D A) (k : A -> D B) : D B :=
  fun s => match m s with
           | (Ok x, s') => k x s'
           | (Raise e, s') => (Raise e, s')
           end.

Definition compute {A} (r : result A) : D A := fun s => (r, s).

(** [try: body / except Exception as e: handle e] *)
Definition guarded {A} (body : D A) (handle : exn -> D A) : D A :=
  fun s => match body s with
           | (Ok x, s') => (Ok x, s')
           | (Raise e, s') => handle e s'
           end.

(** A method of the bridge, called from the loop. *)
Definition on_bridge {A} (m : @M R A) : D A :=
  fun s => let '(r, w) := m (bridge_of s) in
           (r, {| bridge_of := w; journal := journal s |}).

(** [self.logger.<lvl>(...)] *)
Definition note_down (lvl : level) (n : note) : D unit :=
  fun s => (Ok tt, {| bridge_of := bridge_of s;
                      journal := journal s ++ [(lvl, n)] |}).

Local Notation "x <- m ;; k" := (next m (fun x => k))
  (at level 100, m at next level, right associativity).
Local Notation "m ;; k" := (next m (fun _ => k))
  (at level 100, right associativity).

(** [self.export_collection_for_python(collection_id)] for whatever the
    payload holds: the identifiers of the collections are strings, so a
    value that is no string matches none. *)
Definition export_by_value (collection_id : pyval) : @M R pyval :=
  match collection_id with
  | PStr id => export_collection_for_python id
  | _ =>
      try_except
        (bind (remote Get_collections get_collections) (fun _ =>
           raise (ValueError
                    ("Collection "
                     +:+ ApiClient.format_value str_of_container collection_id
                     +:+ " not found"))))
        (fun e => bind (log Error (Log_export_failed e)) (fun _ => raise e))
  end.

Definition _handle_data_request (message : BridgeMessage) : D unit :=
  request_type <- compute (py_get (payload message) "request_type" PNone) ;;
  if eq_str "export_collection" request_type then
    collection_id <-
      compute (py_get (payload message) "collection_id" PNone) ;;
    if truthy collection_id then
      on_bridge (export_by_value collection_id) ;;
      note_down Info (Note_collection_exported collection_id)
    else pure tt
  else pure tt.

Definition _handle_data_sync (message : BridgeMessage) : D unit :=
  present <- compute (py_contains "python_data" (payload message)) ;;
  if present : bool then
    python_data <- compute (py_getitem (payload message) "python_data") ;;
    success <- on_bridge (sync_python_data_to_react python_data) ;;
    if success : bool then note_down Info Note_data_synced
    else note_down Error Note_data_sync_failed
  else pure tt.

Definition _handle_status_update (message : BridgeMessage) : D unit :=
  status <- compute (py_get (payload message) "status" (PStr "unknown")) ;;
  note_down Info (Note_status_update (source message) status).

Definition _process_bridge_message (message : BridgeMessage) : D unit :=
  guarded
    (note_down Debug
       (Note_processing (message_type message) (source message)) ;;
     if String.eqb (message_type message) "data_request"
     then _handle_data_request message
     else if String.eqb (message_type message) "data_sync"
     then _handle_data_sync message
     else if String.eqb (message_type message) "status_update"
     then _handle_status_update message
     else note_down Warning (Note_unknown_type (message_type message)))
    (fun e => note_down Error (Note_processing_error e)).

(** [self.message_queue.get()] on a queue that is not empty. *)
Definition queue_get (message : BridgeMessage) (rest : list BridgeMessage)
  : D BridgeMessage :=
  on_bridge (bind (modify (set_message_queue rest)) (fun _ => ret message)).

(** [while not self.message_queue.empty(): ...] of [_sync_loop], run for
    at most [fuel] messages. *)
Fixpoint drain (fuel : nat) : D unit :=
  match fuel with
  | O => pure tt
  | S fuel' =>
      fun s =>
        match message_queue (bridge_of s) with
        | [] => pure tt s
        | first :: rest =>
            (message <- queue_get first rest ;;
             _process_bridge_message message ;;
             drain fuel') s
        end
  end.

(** *** Notions for the proofs *)

(** A step of the bridge that puts at most [n] messages on the queue, all
    of types among [types], and takes none off. *)
Definition adds_at_most (n : nat) (types : list string) {A} (m : @M R A)
  : Prop :=
  forall w r w',
    m w = (r, w') ->
    exists added,
      message_queue w' = message_queue w ++ added
      /\ (length added <= n)%nat
      /\ Forall (fun msg => In (message_type msg) types) added.

(** The messages of a journal's processing lines, oldest first. *)
Definition processed (j : list (level * note)) : list string :=
  flat_map (fun ln => match ln with
                      | (_, Note_processing type _) => [type]
                      | _ => []
                      end) j.

(** What the messages of a queue can cost the loop: one step each, and
    two more for each that the loop acts on. *)
Definition weight (q : list BridgeMessage) : nat :=
  fold_right (fun m acc =>
                ((if handled (message_type m) then 3 else 1) + acc)%nat) 0%nat q.

End Loop.

(** *** Messages for examples *)

(** A request to synchronise one annotation, and a status report. *)
Definition sync_request : BridgeMessage :=
  {| message_type := "data_sync"; timestamp := y2025; source := "react";
     payload :=
       PDict [("python_data",
               PDict [("annotations",
                       PList [annotation_record "e1" "a note" "Ada"])])];
     message_id := "react_1" |}.

Definition status_report : BridgeMessage :=
  {| message_type := "status_update"; timestamp := y2025; source := "react";
     payload := PDict [("status", PStr "ready")];
     message_id := "react_2" |}.

(** A fresh bridge over the scripted store, with [q] queued. *)
Definition waiting (q : list BridgeMessage) : @station mock :=
  {| bridge_of :=
       set_message_queue q
         (blank default_config (mock_store []) FileAbsent true ticking);
     journal := [] |}.

End Daemon.

(** ** The remote calls of a synchronisation *)

Module Sending.
Import Bridge.

(** The call [sync_bookmark] makes for an item, when it gets that far. *)
Definition bookmark_call (bookmark_data : pyval) : option remote_call :=
  match bookmark_data with
  | PDict d =>
      match dict_lookup d "entryId" with
      | Some entry_id =>
          Some (Create_bookmark entry_id
                  (dict_get d "isBookmarked" (PBool true))
                  (dict_get d "personalNotes" PNone))
      | None => None
      end
  | _ => None
  end.

(** The call [sync_collection] makes for an item, when it gets that far. *)
Definition collection_call (collection_data : pyval) : option remote_call :=
  match collection_data with
  | PDict d =>
      match dict_lookup d "title" with
      | Some title =>
          Some (Create_collection title
                  (dict_get d "entryIds" (PList []))
                  (dict_get d "notes" PNone)
                  (dict_get d "isPublic" (PBool false)))
      | None => None
      end
  | _ => None
  end.

(** The items a synchronisation finds under [key]. *)
Definition items_under (key : string) (python_data : pyval) : list pyval :=
  match python_data with
  | PDict d =>
      match dict_lookup d key with
      | Some v => match py_iter v with
                  | Ok items => items
                  | Raise _ => []
                  end
      | None => []
      end
  | _ => []
  end.

(** Calls that returned, as the trace has them. *)
Definition returned_calls (calls : list remote_call) : list effect :=
  map (fun c => Remote c true) calls.

End Sending.

(** ** The export for analysis *)

Module Analysis.
Import Bridge Daemon.

(** The entry methods of the injected [api_client]. *)
Class EntryClient (R : Type) := {
  get_entry : string -> R -> result (option CodexEntry) * R;
  get_all_entries : R -> result (list CodexEntry) * R
}.

(** The local variables of the loop over the entries. *)
Record analysis := {
  entries_out : list pyval;
  text_corpus : list pyval;
  category_counts : list (string * Z);
  term_frequency : list (string * Z)
}.

Definition empty_analysis : analysis :=
  {| entries_out := []; text_corpus := []; category_counts := [];
     term_frequency := [] |}.

(** [counts[key] = counts.get(key, 0) + 1] *)
Definition bump (counts : list (string * Z)) (key : string)
  : list (string * Z) :=
  dict_set counts key (dict_get counts key 0 + 1).

(** [entry.keyChunks[:5] if not include_full_text else entry.keyChunks] *)
Definition key_chunks_of (include_full_text : bool) (entry : CodexEntry)
  : result pyval :=
  if include_full_text then Ok (py_option py_strings (keyChunks entry))
  else match keyChunks entry with
       | Some chunks => Ok (py_strings (firstn 5 chunks))
       | None => Raise TypeError
       end.

(** The ['bookmark'] item of an entry, if one is added.
    [entry.bookmark] fails on an entry that is no
    [CodexEntryWithBookmark], and is not looked at when bookmarks are not
    asked for. *)
Definition bookmark_item (include_bookmarks : bool) (entry : CodexEntry)
  : result (list (string * pyval)) :=
  if include_bookmarks then
    match bookmark entry with
    | None => Raise AttributeError
    | Some None => Ok []
    | Some (Some b) =>
        Ok [("bookmark",
             PDict [("is_bookmarked", PBool (isBookmarked b));
                    ("personal_notes", py_option PStr (personalNotes b));
                    ("created_at", PStr (isoformat (bookmark_createdAt b)));
                    ("updated_at", PStr (isoformat (bookmark_updatedAt b)))])]
    end
  else Ok [].

(** One iteration. *)
Definition analyse_entry (include_full_text include_bookmarks : bool)
    (acc : analysis) (entry : CodexEntry) : result analysis :=
  match processedDate entry with
  | None => Raise AttributeError
  | Some processed_date =>
      match key_chunks_of include_full_text entry with
      | Raise e => Raise e
      | Ok key_chunks =>
          match bookmark_item include_bookmarks entry with
          | Raise e => Raise e
          | Ok bookmark_part =>
              let entry_data :=
                [("id", PStr (entry_id entry));
                 ("filename", PStr (filename entry));
                 ("category", PStr (category entry));
                 ("subcategory", py_option PStr (subcategory entry));
                 ("size", PInt (size entry));
                 ("processed_date", PStr (isoformat processed_date));
                 ("summary", PStr (summary entry));
                 ("key_chunks", key_chunks);
                 ("key_terms", py_option py_strings (keyTerms entry))]
                ++ (if include_full_text
                    then [("full_text", py_option PStr (fullText entry))]
                    else [])
                ++ bookmark_part in
              Ok {| entries_out := entries_out acc ++ [PDict entry_data];
                    text_corpus :=
                      if include_full_text then
                        text_corpus acc
                        ++ [PDict
                              [("id", PStr (entry_id entry));
                               ("text", py_option PStr (fullText entry));
                               ("metadata",
                                PDict [("category", PStr (category entry));
                                       ("size", PInt (size entry))])]]
                      else text_corpus acc;
                    category_counts :=
                      bump (category_counts acc) (category entry);
                    term_frequency :=
                      fold_left bump (default [] (keyTerms entry))
                        (term_frequency acc) |}
          end
      end
  end.

Fixpoint analyse (include_full_text include_bookmarks : bool)
    (acc : analysis) (entries : list CodexEntry) : result analysis :=
  match entries with
  | [] => Ok acc
  | entry :: rest =>
      match analyse_entry include_full_text include_bookmarks acc entry with
      | Ok acc' => analyse include_full_text include_bookmarks acc' rest
      | Raise e => Raise e
      end
  end.

(** [sorted(items, key=lambda x: x[1], reverse=True)]: the sort is
    stable, so items of equal count stay in the order they had. *)
Fixpoint insert_desc (x : string * Z) (l : list (string * Z))
  : list (string * Z) :=
  match l with
  | [] => [x]
  | y :: rest =>
      if snd y <? snd x then x :: y :: rest else y :: insert_desc x rest
  end.

Definition sorted_desc (l : list (string * Z)) : list (string * Z) :=
  fold_left (fun acc x => insert_desc x acc) l [].

Definition top_terms (frequency : list (string * Z)) : list (string * Z) :=
  firstn 50 (sorted_desc frequency).

Definition analysis_document (total_entries : nat) (exported_at : datetime)
    (include_full_text include_bookmarks : bool) (a : analysis) : pyval :=
  PDict
    [("analysis_metadata",
      PDict [("total_entries", PInt (Z.of_nat total_entries));
             ("exported_at", PStr (isoformat exported_at));
             ("include_full_text", PBool include_full_text);
             ("include_bookmarks", PBool include_bookmarks);
             ("export_purpose", PStr "python_analysis")]);
     ("entries", PList (entries_out a));
     ("text_corpus", PList (text_corpus a));
     ("category_distribution", py_categories (category_counts a));
     ("key_term_frequency", py_categories (top_terms (term_frequency a)));
     ("processing_hints",
      PDict [("recommended_tools",
              py_strings ["nltk"; "spacy"; "sklearn"; "gensim"]);
             ("text_encoding", PStr "utf-8");
             ("language", PStr "english");
             ("domain", PStr "mystical_esoteric")])].

(** The key terms of a list of entries, with repetitions. *)
Definition key_terms_of (entries : list CodexEntry) : list string :=
  flat_map (fun entry => default [] (keyTerms entry)) entries.

Section Entries.
Context {R : Type} `{Client R} `{EntryClient R}.

Local Notation "x <- m ;; k" := (next m (fun x => k))
  (at level 100, m at next level, right associativity).
Local Notation "m ;; k" := (next m (fun _ => k))
  (at level 100, right associativity).

(** [self.client.<method>(...)] for an entry method. *)
Definition ask {A} (call : R -> result A * R) : @D R A :=
  on_bridge (fun w => let '(r, x) := call (client w) in (r, set_client x w)).

(** [raise] *)
Definition fail {A} (e : exn) : @D R A := fun s => (Raise e, s).

(** The loop over [entry_ids]: an entry the client does not find is left
    out. *)
Fixpoint fetch (entry_ids : list string) (entries : list CodexEntry)
  : @D R (list CodexEntry) :=
  match entry_ids with
  | [] => pure entries
  | entry_id :: rest =>
      entry <- ask (get_entry entry_id) ;;
      fetch rest (match entry with
                  | Some e => entries ++ [e]
                  | None => entries
                  end)
  end.

Definition export_entries_for_analysis (entry_ids : option (list string))
    (include_full_text include_bookmarks : bool) : @D R pyval :=
  guarded
    (entries <- match entry_ids with
                | Some (entry_id :: rest) => fetch (entry_id :: rest) []
                | _ => ask get_all_entries
                end ;;
     exported_at <- on_bridge now ;;
     a <- compute (analyse include_full_text include_bookmarks
                     empty_analysis entries) ;;
     pure (analysis_document (length entries) exported_at
             include_full_text include_bookmarks a))
    (fun e => note_down Error (Note_analysis_export_failed e) ;; fail e).

End Entries.

(** *** A scripted entry store, for examples *)

(** The entries the store holds; an identifier it does not hold is not
    found. *)
Record shelf := { shelved : list CodexEntry }.

#[export] Instance shelf_client : Client shelf := {
  get_collections x := (Ok [], x);
  create_annotation _ _ _ x := (Raise (MysticalAPIError "read-only"), x);
  create_bookmark _ _ _ x := (Raise (MysticalAPIError "read-only"), x);
  create_collection _ _ _ _ x := (Raise (MysticalAPIError "read-only"), x)
}.

#[export] Instance shelf_entries : EntryClient shelf := {
  get_entry entry_id x :=
    (Ok (find (fun e => String.eqb (Bridge.entry_id e) entry_id) (shelved x)), x);
  get_all_entries x := (Ok (shelved x), x)
}.

End Analysis.

(** * Properties *)

(** ** Strings and lists *)

Lemma str_app_nil_r (s : string) : s +:+ "" = s.
Proof.
  induction s as [|c s IH]; [reflexivity|].
  change (String c (s +:+ "") = String c s). by rewrite IH.
Qed.

Lemma str_app_assoc (a b c : string) : (a +:+ b) +:+ c = a +:+ b +:+ c.
Proof.
  induction a as [|x a IH]; [reflexivity|].
  change (String x ((a +:+ b) +:+ c) = String x (a +:+ b +:+ c)).
  by rewrite IH.
Qed.

Lemma embeds_suffix (pre s : string) : embeds s (pre +:+ s).
Proof. exists pre, "". by rewrite str_app_nil_r. Qed.

Lemma embeds_inside (pre s post : string) : embeds s (pre +:+ s +:+ post).
Proof. by exists pre, post. Qed.

Lemma embeds_app_l (s a b : string) : embeds s a -> embeds s (a +:+ b).
Proof.
  intros (pre & post & ->). exists pre, (post +:+ b).
  by rewrite !str_app_assoc.
Qed.

Lemma embeds_empty (s : string) : embeds "" s.
Proof. exists s, "". by rewrite str_app_nil_r. Qed.

Lemma prefix_self_app (n post : string) : String.prefix n (n +:+ post) = true.
Proof.
  induction n as [|c n IH].
  - change ("" +:+ post) with post. by destruct post.
  - change (String c n +:+ post) with (String c (n +:+ post)). cbn.
    by destruct (Ascii.ascii_dec c c).
Qed.

Lemma str_contains_prefix (n hay : string) :
  String.prefix n hay = true -> str_contains n hay = true.
Proof. intros Hn. destruct hay; cbn [str_contains]; by rewrite Hn. Qed.

Lemma str_contains_embeds (n hay : string) :
  embeds n hay -> str_contains n hay = true.
Proof.
  intros (pre & post & ->). induction pre as [|c pre IH].
  - change ("" +:+ n +:+ post) with (n +:+ post).
    apply str_contains_prefix, prefix_self_app.
  - change (String c pre +:+ n +:+ post) with (String c (pre +:+ n +:+ post)).
    cbn [str_contains]. rewrite IH. apply orb_true_r.
Qed.

(** ** The request loop *)

Module ApiClientFacts.
Import ApiClient.

Lemma backoff_from_succ (a : Z) (k : nat) :
  backoff_from a (S k) = 2 ^ a :: backoff_from (a + 1) k.
Proof.
  unfold backoff_from. cbn [seq map]. rewrite Z.add_0_r. f_equal.
  rewrite <- seq_shift, map_map. apply map_ext. intros i. f_equal. lia.
Qed.

Lemma total_backoff_from (a : Z) (k : nat) :
  0 <= a -> total (backoff_from a k) = 2 ^ a * (2 ^ Z.of_nat k - 1).
Proof.
  revert a. induction k as [|k IH]; intros a Ha.
  - cbn. lia.
  - rewrite backoff_from_succ. cbn [total fold_right].
    fold (total (backoff_from (a + 1) k)). rewrite IH by lia.
    rewrite Nat2Z.inj_succ, !Z.pow_succ_r, Z.pow_add_r by lia. lia.
Qed.

Section RetryPolicy.
Variable str_of_container : pyval -> string.

Lemma after_no_failure (a : Z) (req : request) (c : client) :
  after_failures 0 a req c = c.
Proof.
  destruct c. unfold after_failures. cbn. by rewrite !app_nil_r.
Qed.

Lemma attempt_loop_failures (k : nat) :
  forall (remaining : nat) (a : Z) (req : request) (c : client),
    a + Z.of_nat k <= max_retries (config c) ->
    (forall i, (i < k)%nat ->
       exists e, server c (length (sent c) + i)%nat req = Failed e) ->
    attempt_loop str_of_container (k + remaining) a req c
    = attempt_loop str_of_container remaining (a + Z.of_nat k) req
        (after_failures k a req c).
Proof.
  induction k as [|k IH]; intros remaining a req c Hle Hfail.
  - rewrite after_no_failure. cbn. by rewrite Z.add_0_r.
  - destruct (Hfail 0%nat) as [e He]; [lia|].
    rewrite Nat.add_0_r in He.
    cbn [Nat.add attempt_loop session_request]. rewrite He.
    destruct (Z.eqb_spec a (max_retries (config c))) as [->|_]; [lia|].
    rewrite IH.
    + f_equal; [lia|]. unfold after_failures, sleep.
      cbn [config server sent slept repeat].
      rewrite backoff_from_succ, <- !app_assoc. reflexivity.
    + cbn. lia.
    + intros i Hi. cbn. rewrite length_app. cbn.
      replace (length (sent c) + 1 + i)%nat
        with (length (sent c) + S i)%nat by lia.
      apply Hfail. lia.
Qed.

Lemma status_message_embeds_status (cfg : PythonConfig) (r : Response) :
  embeds (str_of_int (status_code r)) (status_message str_of_container cfg r).
Proof.
  unfold status_message.
  set (code := str_of_int (status_code r)).
  assert (Hbase : embeds code
    (if mystical_theme cfg
     then "🌙 The cosmic energies have disrupted the connection (Status: "
          +:+ code +:+ ")"
     else "API request failed with status " +:+ code)).
  { destruct (mystical_theme cfg);
      [apply embeds_inside | apply embeds_suffix]. }
  destruct (json r) as [body|]; [|exact Hbase].
  destruct (py_get body "message" (PStr "")) as [detail|]; [|exact Hbase].
  destruct (truthy detail); [by apply embeds_app_l | exact Hbase].
Qed.

(** The message for a response whose body has no usable ['message']. *)
Lemma status_message_detail (cfg : PythonConfig) (r : Response)
    (body detail : pyval) :
  json r = Ok body ->
  py_get body "message" (PStr "") = Ok detail ->
  let bare :=
    status_message str_of_container cfg
      {| status_code := status_code r; json := Raise JSONDecodeError |} in
  let msg := status_message str_of_container cfg r in
  msg = (if truthy detail
         then bare +:+ " - " +:+ format_value str_of_container detail
         else bare)
  /\ (forall s, detail = PStr s -> embeds s msg)
  /\ (forall n, detail = PInt n -> n <> 0 -> embeds (str_of_int n) msg)
  /\ (detail = PBool true -> embeds "True" msg).
Proof.
  intros Hjson Hget bare msg. subst bare msg. unfold status_message.
  rewrite Hjson, Hget. cbn [json status_code].
  split; [done|].
  assert (Hrendered : truthy detail = true ->
    embeds (format_value str_of_container detail)
      (if truthy detail
       then (if mystical_theme cfg
             then "🌙 The cosmic energies have disrupted the connection (Status: "
                  +:+ str_of_int (status_code r) +:+ ")"
             else "API request failed with status "
                  +:+ str_of_int (status_code r))
            +:+ " - " +:+ format_value str_of_container detail
       else if mystical_theme cfg
            then "🌙 The cosmic energies have disrupted the connection (Status: "
                 +:+ str_of_int (status_code r) +:+ ")"
            else "API request failed with status "
                 +:+ str_of_int (status_code r))).
  { intros ->. rewrite <- str_app_assoc. apply embeds_suffix. }
  repeat split.
  - intros s ->. destruct (truthy (PStr s)) eqn:Htruthy.
    + by apply Hrendered.
    + cbn in Htruthy. apply negb_false_iff, String.eqb_eq in Htruthy.
      subst s. apply embeds_empty.
  - intros n -> Hn. apply Hrendered. cbn. by apply negb_true_iff, Z.eqb_neq.
  - intros ->. by apply Hrendered.
Qed.

Lemma attempt_loop_grows (n : nat) :
  forall (a : Z) (req : request) (c : client) res c',
    attempt_loop str_of_container n a req c = (res, c') ->
    exists more_sent more_slept,
      sent c' = sent c ++ more_sent /\ slept c' = slept c ++ more_slept.
Proof.
  induction n as [|n IH]; intros a req c res c'; cbn.
  - intros [= _ <-]. exists [], []. by rewrite !app_nil_r.
  - destruct (server c (length (sent c)) req) as [r|e].
    + exists [req], [].
      destruct (400 <=? status_code r); simplify_eq; cbn;
        by rewrite app_nil_r.
    + destruct (a =? max_retries (config c)).
      * intros [= _ <-]. exists [req], []. cbn. by rewrite app_nil_r.
      * intros Hrun. apply IH in Hrun as (s1 & s2 & Hs1 & Hs2).
        cbn in Hs1, Hs2. exists (req :: s1), (2 ^ a :: s2).
        by rewrite Hs1, Hs2, <- !app_assoc.
Qed.

Lemma attempt_loop_requests (n : nat) (a : Z) (req : request) (c : client)
    res c' :
  attempt_loop str_of_container (S n) a req c = (res, c') ->
  exists more_sent more_slept,
    sent c' = sent c ++ req :: more_sent
    /\ slept c' = slept c ++ more_slept.
Proof.
  change (S n) with (1 + n)%nat. intros Hrun.
  cbn [Nat.add attempt_loop session_request] in Hrun.
  destruct (server c (length (sent c)) req) as [r|e].
  - exists [], [].
    destruct (400 <=? status_code r); simplify_eq; cbn;
      by rewrite app_nil_r.
  - destruct (a =? max_retries (config c)).
    + simplify_eq. exists [], []. cbn. by rewrite app_nil_r.
    + apply attempt_loop_grows in Hrun as (s1 & s2 & Hs1 & Hs2).
      cbn in Hs1, Hs2. exists s1, (2 ^ a :: s2).
      by rewrite Hs1, Hs2, <- !app_assoc.
Qed.

(** C2, as the code has it: after [k] attempts that failed in transport,
    each followed by a sleep of [2^attempt] seconds ([1, 2, 4, ...], in
    total [2^k - 1]), attempt [k] of a request that is allowed
    [max_retries >= k] retries goes as follows.  A response below 400 is
    returned.  A response with status 400 or more raises
    [MysticalAPIError] at once, with no further request and no further
    sleep; the message embeds the status code, and it ends with the
    ['message'] field of a JSON body when that field counts as true: the
    text of a string, the digits of a number other than 0.  A field that
    counts as false ([false], [null], [0], an empty string, list or
    object) is left out: the message is then the one for a body that is no
    JSON.  A transport failure raises [MysticalAPIError] when
    [k = max_retries]; otherwise the client sleeps [2^k] seconds and sends
    the request again.  With [max_retries = 2] and [k = 2] the sleeps are
    [1; 2], three seconds. *)
Theorem make_request_retry_policy
    (method endpoint : string) (kwargs : list (string * pyval))
    (c : client) (k : nat) (res : result (option Response)) (c' : client) :
  let req := prepared (config c) method endpoint kwargs in
  Z.of_nat k <= max_retries (config c) ->
  (forall i, (i < k)%nat ->
     exists e, server c (length (sent c) + i)%nat req = Failed e) ->
  _make_request str_of_container method endpoint kwargs c = (res, c') ->
  total (backoff k) = 2 ^ Z.of_nat k - 1
  /\ match server c (length (sent c) + k)%nat req with
     | Responded r =>
         sent c' = sent c ++ repeat req (S k)
         /\ slept c' = slept c ++ backoff k
         /\ if 400 <=? status_code r
            then exists msg,
              res = Raise (MysticalAPIError msg)
              /\ embeds (str_of_int (status_code r)) msg
              /\ forall body detail,
                   json r = Ok body ->
                   py_get body "message" (PStr "") = Ok detail ->
                   let bare :=
                     status_message str_of_container (config c)
                       {| status_code := status_code r;
                          json := Raise JSONDecodeError |} in
                   msg = (if truthy detail
                          then bare +:+ " - "
                               +:+ format_value str_of_container detail
                          else bare)
                   /\ (forall s, detail = PStr s -> embeds s msg)
                   /\ (forall n, detail = PInt n -> n <> 0 ->
                       embeds (str_of_int n) msg)
                   /\ (detail = PBool true -> embeds "True" msg)
            else res = Ok (Some r)
     | Failed e =>
         if Z.of_nat k =? max_retries (config c)
         then sent c' = sent c ++ repeat req (S k)
              /\ slept c' = slept c ++ backoff k
              /\ res = Raise (MysticalAPIError
                                (transport_message (config c) e))
         else exists more_sent more_slept,
                sent c' = sent c ++ repeat req (S (S k)) ++ more_sent
                /\ slept c' = slept c ++ backoff (S k) ++ more_slept
     end.
Proof.
  intros req Hle Hfail. unfold _make_request. fold req.
  replace (Z.to_nat (max_retries (config c) + 1))
    with (k + S (Z.to_nat (max_retries (config c)) - k))%nat by lia.
  rewrite attempt_loop_failures by (lia || assumption).
  cbn [attempt_loop session_request after_failures config server sent slept].
  rewrite length_app, repeat_length. fold (backoff k).
  assert (Htotal : total (backoff k) = 2 ^ Z.of_nat k - 1).
  { unfold backoff. rewrite total_backoff_from by lia. lia. }
  assert (Hsent : (sent c ++ repeat req k) ++ [req]
                  = sent c ++ repeat req (S k)).
  { rewrite <- app_assoc. f_equal. cbn. by rewrite repeat_cons. }
  destruct (server c (length (sent c) + k)%nat req) as [r|e].
  - destruct (400 <=? status_code r).
    + intros [= <- <-]. cbn [sent slept]. repeat split; try done.
      exists (status_message str_of_container (config c) r).
      split; [done|split].
      * apply status_message_embeds_status.
      * intros body detail. apply status_message_detail.
    + intros [= <- <-]. cbn [sent slept]. repeat split; done.
  - rewrite Z.add_0_l.
    destruct (Z.eqb_spec (Z.of_nat k) (max_retries (config c))) as [Hk|Hk].
    + intros [= <- <-]. cbn [sent slept]. repeat split; done.
    + intros Hrun. split; [done|].
      destruct (Z.to_nat (max_retries (config c)) - k)%nat as [|n] eqn:Hn;
        [lia|].
      apply attempt_loop_requests in Hrun as (s1 & s2 & Hs1 & Hs2).
      cbn [sleep sent slept] in Hs1, Hs2. exists s1, s2. split.
      * rewrite Hs1, Hsent, <- app_assoc. f_equal.
        change (repeat req (S (S k))) with (req :: repeat req (S k)).
        rewrite (repeat_cons (S k)), <- app_assoc. reflexivity.
      * rewrite Hs2, <- !app_assoc. f_equal.
        unfold backoff, backoff_from. rewrite seq_S, map_app, <- app_assoc.
        reflexivity.
Qed.

End RetryPolicy.

(** The scenario of C2: [max_retries = 2], two transport failures, then a
    response; the response is returned after sleeps of one and two
    seconds. *)
Lemma make_request_retry_scenario :
  let c' := {| config := scenario_config; server := server scenario_client;
               sent := repeat health_request 3; slept := [1; 2] |} in
  (Z.of_nat 2 <= max_retries (config scenario_client)
   /\ (forall i, (i < 2)%nat ->
        exists e, server scenario_client (length (sent scenario_client) + i)%nat
                    health_request = Failed e)
   /\ _make_request (fun _ => "") "GET" "/health" [] scenario_client
      = (Ok (Some ok_response), c'))
  /\ total (slept c') = 3.
Proof.
  intros c'.
  assert (H1 : Z.of_nat 2 <= max_retries (config scenario_client))
    by (vm_compute; discriminate).
  assert (H2 : forall i, (i < 2)%nat ->
            exists e, server scenario_client
                        (length (sent scenario_client) + i)%nat
                        health_request = Failed e).
  { intros [|[|i]] Hi; [by eexists | by eexists | lia]. }
  assert (H3 : _make_request (fun _ => "") "GET" "/health" [] scenario_client
               = (Ok (Some ok_response), c')) by reflexivity.
  split; [by repeat split|].
  destruct (make_request_retry_policy (fun _ => "") "GET" "/health" []
              scenario_client 2 _ _ H1 H2 H3) as [Htotal _].
  change (total (backoff 2) = 3). rewrite Htotal. reflexivity.
Defined.

(** C2 as stated fails: the error body of this response has a ['message']
    field, [false], and the message of the error raised does not embed
    it. *)
Lemma make_request_drops_false_message :
  let body := PDict [("message", PBool false)] in
  let answer := {| status_code := 422; json := Ok body |} in
  let c := fresh_client scenario_config [Responded answer] in
  let msg :=
    "🌙 The cosmic energies have disrupted the connection (Status: 422)" in
  fst (_make_request (fun _ => "") "GET" "/health" [] c)
  = Raise (MysticalAPIError msg)
  /\ py_getitem body "message" = Ok (PBool false)
  /\ format_value (fun _ => "") (PBool false) = "False"
  /\ ~ embeds "False" msg.
Proof.
  intros body answer c msg. repeat split.
  intros Hembeds. apply str_contains_embeds in Hembeds.
  vm_compute in Hembeds. discriminate.
Qed.

End ApiClientFacts.

(** ** The bridge *)

Module BridgeFacts.
Import Bridge.

Section Facts.
Context {R : Type} `{Client R}.
Implicit Types (w : @bridge R) (es : list effect) (q : list BridgeMessage).

(** *** States that only moved on *)

Lemma touch_nothing w : touch (client w) [] 0 [] w = w.
Proof.
  destruct w. unfold touch. cbn. by rewrite !app_nil_r, Nat.add_0_r.
Qed.

Lemma touch_touch x x' q q' n n' es es' w :
  touch x' q' n' es' (touch x q n es w)
  = touch x' (q ++ q') (n + n') (es ++ es') w.
Proof.
  unfold touch. cbn. by rewrite <- !app_assoc, Nat.add_assoc.
Qed.

Lemma record_touch e w : record e w = touch (client w) [] 0 [e] w.
Proof.
  destruct w. unfold touch, record. cbn. by rewrite app_nil_r, Nat.add_0_r.
Qed.

(** *** The event bus *)

Lemma deliver_run (message : BridgeMessage) (h : handler) w :
  try_except (invoke h message) (fun e => log Error (Log_handler_error e)) w
  = (Ok tt, touch (client w) [] 0 (delivery message h) w).
Proof.
  unfold try_except, invoke, bind, log, modify, lift, delivery.
  destruct (handler_call h message) as [[]|e];
    rewrite !record_touch, ?touch_touch; reflexivity.
Qed.

Lemma call_handlers_run (message : BridgeMessage) (hs : list handler) w :
  call_handlers message hs w
  = (Ok tt, touch (client w) [] 0 (flat_map (delivery message) hs) w).
Proof.
  revert w. induction hs as [|h hs IH]; intros w.
  - cbn. by rewrite touch_nothing.
  - unfold call_handlers in *. cbn [for_each flat_map]. unfold bind.
    rewrite deliver_run, IH, touch_touch. reflexivity.
Qed.

Lemma emit_event_run (event_type : string) (payload : pyval) w :
  let message := event_message event_type payload w in
  emit_event event_type payload w
  = (Ok tt,
     touch (client w) [message] 2
       (Queued message
        :: flat_map (delivery message)
             (default [] (event_handlers w !! event_type))) w).
Proof.
  intros message. unfold emit_event, new_message, queue_put, bind, now,
    time_ms, ret, modify, gets. cbn.
  fold message.
  destruct (event_handlers w !! event_type) as [hs|] eqn:Hhs; cbn.
  - rewrite call_handlers_run. unfold touch, record. cbn.
    rewrite <- !app_assoc, app_nil_r, Nat.add_0_r.
    replace (ticks w + 2)%nat with (S (S (ticks w))) by lia. reflexivity.
  - unfold ret, touch, record. cbn.
    replace (ticks w + 2)%nat with (S (S (ticks w))) by lia. reflexivity.
Qed.

Lemma invoked_deliveries (message : BridgeMessage) (hs : list handler) :
  invoked (flat_map (delivery message) hs)
  = map (fun h => (handler_name h, message)) hs.
Proof.
  induction hs as [|h hs IH]; [reflexivity|].
  unfold invoked in *. cbn [flat_map map]. rewrite flat_map_app, IH.
  unfold delivery. by destruct (handler_call h message).
Qed.

(** C7: [emit_event] returns normally.  It first puts the message on the
    queue, then calls every handler registered for the type, in the order
    of registration ([register_event_handler] appends); a handler that
    raises leaves an error in the log and the next handlers are still
    called; the message stays on the queue. *)
Theorem emit_event_delivery (event_type : string) (payload : pyval) w :
  let message := event_message event_type payload w in
  let registered := default [] (event_handlers w !! event_type) in
  (forall h : handler,
     default []
       (event_handlers (snd (register_event_handler event_type h w))
          !! event_type)
     = registered ++ [h])
  /\ exists w' deliveries,
       emit_event event_type payload w = (Ok tt, w')
       /\ message_queue w' = message_queue w ++ [message]
       /\ trace w' = trace w ++ Queued message :: deliveries
       /\ deliveries = flat_map (delivery message) registered
       /\ invoked deliveries
          = map (fun h => (handler_name h, message)) registered
       /\ queued deliveries = [].
Proof.
  intros message registered. split.
  - intros h. cbn. by rewrite lookup_insert_eq.
  - eexists _, _. split; [apply emit_event_run|].
    repeat split; [apply invoked_deliveries|].
    fold message registered. clearbody registered.
    induction registered as [|h hs IH]; [reflexivity|].
    unfold queued in *. cbn [flat_map]. rewrite flat_map_app, IH.
    unfold delivery. by destruct (handler_call h message).
Qed.

(** *** Readings of traces *)

Lemma invoked_app es es' : invoked (es ++ es') = invoked es ++ invoked es'.
Proof. apply flat_map_app. Qed.

Lemma remote_calls_app es es' :
  remote_calls (es ++ es') = remote_calls es ++ remote_calls es'.
Proof. apply flat_map_app. Qed.

Lemma queued_app es es' : queued (es ++ es') = queued es ++ queued es'.
Proof. apply flat_map_app. Qed.

Lemma skipped_app es es' : skipped (es ++ es') = skipped es ++ skipped es'.
Proof. apply flat_map_app. Qed.

Lemma import_errors_app es es' :
  import_errors (es ++ es') = import_errors es ++ import_errors es'.
Proof. apply flat_map_app. Qed.

Lemma deliveries_quiet (message : BridgeMessage) (hs : list handler) :
  let es := flat_map (delivery message) hs in
  remote_calls es = [] /\ queued es = [] /\ skipped es = []
  /\ import_errors es = [].
Proof.
  induction hs as [|h hs (IH1 & IH2 & IH3 & IH4)]; [done|].
  cbn [flat_map].
  rewrite remote_calls_app, queued_app, skipped_app, import_errors_app.
  rewrite IH1, IH2, IH3, IH4.
  unfold delivery. by destruct (handler_call h message).
Qed.

(** *** Import *)

Lemma create_from_run (annotation_data : pyval) w r w' :
  create_from annotation_data w = (r, w') ->
  (r = Raise TypeError \/ (exists k, r = Raise (KeyError k))) /\ w' = w
  \/ exists x c,
       w' = touch x [] 0 [Remote c (is_ok r)] w /\ creates_annotation c.
Proof.
  unfold create_from, bind, lift, remote.
  destruct (py_getitem annotation_data "entryId") as [entry|e] eqn:He.
  - destruct (py_getitem annotation_data "content") as [text|e] eqn:Hc.
    + destruct annotation_data; try discriminate He. cbn.
      destruct (create_annotation _ _ _ (client w)) as [r0 x].
      intros [= <- <-]. right. eexists _, _. split.
      * rewrite record_touch. unfold touch, set_client. cbn.
        by rewrite Nat.add_0_r.
      * exact I.
    + intros [= <- <-]. left. split; [|done].
      destruct annotation_data; cbn in Hc; simplify_eq; eauto.
      destruct (dict_lookup d "content"); simplify_eq. eauto.
  - intros [= <- <-]. left. split; [|done].
    destruct annotation_data; cbn in He; simplify_eq; eauto.
    destruct (dict_lookup d "entryId"); simplify_eq. eauto.
Qed.

Lemma import_loop_run (items : list pyval) :
  forall (ids : list string) w ids' r w',
    import_loop items ids w = (ids', r, w') ->
    exists new x es,
      ids' = ids ++ new
      /\ w' = touch x [] 0 es w
      /\ import_errors es = [] /\ queued es = [] /\ invoked es = []
      /\ Forall creates_annotation (remote_calls es)
      /\ match r with
         | Ok _ =>
             (length new + length (skipped es) = length items)%nat
             /\ length (remote_calls es) = length new
         | Raise _ =>
             (length new + length (skipped es) < length items)%nat
             /\ (length new <= length (remote_calls es) <= length new + 1)%nat
         end.
Proof.
  induction items as [|a items IH]; intros ids w ids' r w'.
  - intros [= <- <- <-]. exists [], (client w), [].
    rewrite app_nil_r, touch_nothing. by repeat split.
  - cbn [import_loop].
    destruct (has_all required_fields a) as [[|]|e].
    + destruct (create_from a w) as [[annotation|e] w1] eqn:Hcreate;
        apply create_from_run in Hcreate
          as [[Hr ->]|(x1 & c & -> & Hc)].
      * destruct Hr as [|[]]; discriminate.
      * intros Hrest. apply IH in Hrest
          as (new & x & es & -> & -> & He & Hq & Hi & Hcs & Hr).
        exists (annotation_id annotation :: new), x, (Remote c true :: es).
        rewrite touch_touch, <- app_assoc. cbn [app length].
        unfold import_errors, queued, invoked, skipped, remote_calls in *.
        cbn [flat_map app length].
        repeat split; try done; try (by constructor).
        destruct r; cbn; lia.
      * intros [= <- <- <-]. exists [], (client w), [].
        rewrite app_nil_r, touch_nothing. cbn.
        repeat split; try done; try lia; by repeat constructor.
      * intros [= <- <- <-]. exists [], x1, [Remote c false].
        rewrite app_nil_r. cbn.
        repeat split; try done; try lia; by repeat constructor.
    + unfold log, modify. cbn [snd]. rewrite record_touch.
      intros Hrest. apply IH in Hrest
        as (new & x & es & -> & -> & He & Hq & Hi & Hcs & Hr).
      exists new, x, (Logged Warning (Log_skipping_invalid a) :: es).
      rewrite touch_touch. cbn [app length].
      unfold import_errors, queued, invoked, skipped, remote_calls in *.
      cbn [flat_map app length]. repeat split; try done.
      destruct r; cbn; lia.
    + intros [= <- <- <-]. exists [], (client w), [].
      rewrite app_nil_r, touch_nothing. cbn.
      repeat split; try done; try lia; by repeat constructor.
Qed.

(** What a run of [import_python_annotations] comes to: the identifiers,
    and a state that only moved on. *)
Lemma import_run (annotations_data : pyval) w :
  exists ids x q n es,
    import_python_annotations annotations_data w
    = (Ok ids, touch x q n es w)
    /\ Forall (fun m => message_type m = "annotations_imported") q
    /\ Forall creates_annotation (remote_calls es)
    /\ (length ids <= length (remote_calls es)
                   <= length ids + length (import_errors es))%nat
    /\ match py_iter annotations_data with
       | Ok items =>
           ((length ids + length (skipped es))%nat = length items
            /\ import_errors es = [])
           \/ ((length ids + length (skipped es) < length items)%nat
               /\ length (import_errors es) = 1%nat)
       | Raise e => ids = [] /\ es = [Logged Error (Log_import_failed e)]
       end.
Proof.
  unfold import_python_annotations.
  destruct (py_iter annotations_data) as [items|e].
  - destruct (import_loop items [] w) as [[ids r] w1] eqn:Hloop.
    apply import_loop_run in Hloop
      as (new & x & es & -> & -> & He & Hq & Hi & Hcs & Hr).
    cbn [app]. destruct r as [[]|e].
    + unfold bind. rewrite emit_event_run. unfold log, modify.
      rewrite record_touch, !touch_touch. cbn [client touch app].
      set (message := event_message _ _ _).
      set (hs := default [] _).
      destruct (deliveries_quiet message hs) as (Dr & Dq & Ds & De).
      eexists new, x, [message], _, _. split; [reflexivity|].
      unfold remote_calls, skipped, import_errors in *.
      rewrite !flat_map_app. cbn [flat_map app].
      rewrite !flat_map_app, Dr, Ds, De, He. cbn.
      rewrite !app_nil_r, ?Nat.add_0_r.
      split; [by repeat constructor|]. split; [done|].
      split; [lia|]. left. split; [lia|done].
    + unfold log, modify. cbn [snd]. rewrite record_touch, touch_touch.
      cbn [client touch app].
      eexists new, x, [], _, _. split; [reflexivity|].
      rewrite !remote_calls_app, !skipped_app, !import_errors_app, He.
      cbn. rewrite !app_nil_r, ?Nat.add_0_r.
      split; [constructor|]. split; [done|].
      split; [lia|]. right. split; [lia|done].
  - unfold log, modify. cbn [snd]. rewrite record_touch.
    eexists [], (client w), [], _, _. split; [reflexivity|].
    cbn. split; [constructor|]. split; [constructor|]. split; [lia|done].
Qed.


Lemma import_loop_no_record (items : list pyval) :
  Forall (fun item => is_record item = false) items ->
  forall (ids : list string) w,
    exists r es,
      import_loop items ids w = (ids, r, touch (client w) [] 0 es w)
      /\ remote_calls es = [].
Proof.
  induction 1 as [|item items Hitem _ IH]; intros ids w.
  - exists (Ok tt), []. by rewrite touch_nothing.
  - cbn [import_loop].
    destruct (has_all required_fields item) as [[|]|e].
    + assert (Hcreate : create_from item w = (Raise TypeError, w))
        by (by destruct item).
      rewrite Hcreate. exists (Raise TypeError), [].
      by rewrite touch_nothing.
    + unfold log, modify. cbn [snd]. rewrite record_touch.
      destruct (IH ids (touch (client w) [] 0
                          [Logged Warning (Log_skipping_invalid item)] w))
        as (r & es & -> & Hes).
      eexists r, _. rewrite touch_touch. split; [reflexivity|].
      by rewrite remote_calls_app, Hes.
    + exists (Raise e), []. by rewrite touch_nothing.
Qed.

Lemma strings_no_record (ss : list string) :
  Forall (fun item => is_record item = false) (map PStr ss).
Proof. induction ss; by constructor. Qed.

(** C9, as the code has it: an argument that is no list of records does
    not make [import_python_annotations] raise.  Whatever it is (a single
    record, a string, a number, [None], a list with no record in it), the
    call returns the empty list, and no remote call is made. *)
Theorem import_non_sequence (annotations_data : pyval) w :
  (forall items,
     annotations_data = PList items ->
     Forall (fun item => is_record item = false) items) ->
  exists w' es,
    import_python_annotations annotations_data w = (Ok [], w')
    /\ trace w' = trace w ++ es
    /\ remote_calls es = []
    /\ client w' = client w.
Proof.
  intros Hshape.
  assert (Hitems : forall items,
    py_iter annotations_data = Ok items ->
    Forall (fun item => is_record item = false) items ->
    exists w' es,
      import_python_annotations annotations_data w = (Ok [], w')
      /\ trace w' = trace w ++ es /\ remote_calls es = []
      /\ client w' = client w).
  { intros items Hiter Hnone. unfold import_python_annotations. rewrite Hiter.
    destruct (import_loop_no_record items Hnone [] w) as (r & es & -> & Hes).
    destruct r as [[]|e].
    - unfold bind. rewrite emit_event_run. unfold log, modify.
      rewrite record_touch, !touch_touch. cbn [client touch app length].
      set (message := event_message _ _ _).
      set (hs := default [] _).
      destruct (deliveries_quiet message hs) as (Dr & _).
      eexists _, _. split; [reflexivity|]. cbn [trace client touch].
      split; [reflexivity|]. split; [|reflexivity].
      unfold remote_calls in *. rewrite !flat_map_app. cbn [flat_map app].
      rewrite !flat_map_app, Dr, Hes. reflexivity.
    - unfold log, modify. cbn [snd]. rewrite record_touch, touch_touch.
      eexists _, _. split; [reflexivity|]. cbn [trace client touch].
      split; [reflexivity|]. split; [|reflexivity].
      by rewrite remote_calls_app, Hes. }
  destruct annotations_data as [| | |s| |l|d];
    try (eexists _, _; split; [reflexivity|]; cbn;
         split; [reflexivity|done]).
  - apply (Hitems (map PStr (str_chars s))); [done|apply strings_no_record].
  - apply (Hitems l); [done|by apply Hshape].
  - apply (Hitems (map PStr (dict_keys d))); [done|apply strings_no_record].
Qed.

(** *** Export *)

Lemma dict_lookup_set {V} (d : list (string * V)) (k k' : string) (v : V) :
  dict_lookup (dict_set d k v) k'
  = if String.eqb k k' then Some v else dict_lookup d k'.
Proof.
  induction d as [|[k0 v0] d IH]; cbn.
  - by destruct (String.eqb k k').
  - destruct (String.eqb_spec k0 k) as [->|Hne]; cbn.
    + by destruct (String.eqb k k').
    + rewrite IH. destruct (String.eqb_spec k k') as [->|]; [|done].
      by rewrite (proj2 (String.eqb_neq k0 k')).
Qed.

Lemma histogram_bump (c : list (string * Z)) (k : string) :
  total (dict_values (dict_set c k (dict_get c k 0 + 1)))
  = total (dict_values c) + 1.
Proof.
  unfold dict_get, total, dict_values.
  induction c as [|[k0 v0] c IH]; cbn; [done|].
  destruct (String.eqb k0 k); cbn; [lia|]. rewrite IH. lia.
Qed.

Lemma tally_entries_counts (es : list CodexEntry) :
  forall acc t,
    tally_entries acc es = Ok t ->
    total (dict_values (categories t))
    = total (dict_values (categories acc)) + Z.of_nat (length es)
    /\ length (exported t) = (length (exported acc) + length es)%nat.
Proof.
  induction es as [|entry es IH]; intros acc t; cbn [tally_entries].
  - intros [= <-]. cbn. lia.
  - destruct (tally_entry acc entry) as [acc'|e] eqn:Hentry; [|done].
    intros Hrest. apply IH in Hrest as [-> ->].
    unfold tally_entry in Hentry.
    destruct (fullText entry); [|done]. destruct (bookmark entry); [|done].
    simplify_eq. cbn [categories exported].
    rewrite histogram_bump, length_app. cbn [length]. lia.
Qed.

Lemma sum_counts_categories (c : list (string * Z)) :
  sum_counts (map (fun kv => (fst kv, PInt (snd kv))) c)
  = Some (total (dict_values c)).
Proof.
  induction c as [|[k v] c IH]; [done|].
  cbn. unfold sum_counts in IH. by rewrite IH.
Qed.

(** The steps of an export, outcome by outcome. *)
Ltac export_cases w id :=
  unfold export_collection_for_python, cache_store, try_except, remote,
    raise, log, modify, now, gets, lift, ret, bind;
  destruct (get_collections (client w)) as [[collections|?] ?];
  [destruct (find (fun c => String.eqb (collection_id (collection c)) id)
               collections) as [target|];
   [destruct (tally_entries empty_tally (entries target)) as [t|?] eqn:Htally;
    [destruct (date_range (dates t)) as [range|?];
     [cbn [local_cache set_ticks set_client record];
      destruct (local_cache w) as [| | | | | |d] eqn:Hcache;
      cbn [py_setitem] | ] | ] | ] | ].

(** C4: when [export_collection_for_python] raises, nothing was put on
    the queue, no handler was called, and the cache, the sync state and
    the state file are as before.  An error of the remote store client is
    the one that is raised. *)
Theorem export_failure_leaves_state (id : string) w (e : exn) w' :
  export_collection_for_python id w = (Raise e, w') ->
  local_cache w' = local_cache w
  /\ message_queue w' = message_queue w
  /\ sync_state w' = sync_state w
  /\ state_file w' = state_file w
  /\ (exists es, trace w' = trace w ++ es /\ queued es = [] /\ invoked es = [])
  /\ (forall e0 x, get_collections (client w) = (Raise e0, x) -> e = e0).
Proof.
  export_cases w id;
    try rewrite emit_event_run;
    intros Hrun; simplify_eq; cbn;
    repeat split; try done;
    first [ eexists; split; [by rewrite <- ?app_assoc | done]
          | intros; by simplify_eq ].
Qed.

(** C3, as the code has it: a successful export stores one entry in the
    cache, under the key derived from the collection identifier, and
    leaves every other key as it was.  The entry holds the exported
    document; its [exported_at] is one reading of the clock and its
    [expires_at] is the next reading plus one hour.  In the document, the
    counts of the category histogram sum to the number of exported
    items. *)
Theorem export_success_caches (id : string) w (export_data : pyval) w' :
  export_collection_for_python id w = (Ok export_data, w') ->
  let exported_at := wall (clock w (S (ticks w))) in
  let expiry_base := wall (clock w (S (S (ticks w)))) in
  let entry :=
    PDict [("data", export_data);
           ("exported_at", PStr (isoformat exported_at));
           ("expires_at",
            PStr (isoformat (expiry_base + timedelta_hours 1)))] in
  (exists d,
     local_cache w = PDict d
     /\ local_cache w' = PDict (dict_set d (cache_key id) entry)
     /\ forall k,
          dict_lookup (dict_set d (cache_key id) entry) k
          = if String.eqb (cache_key id) k then Some entry
            else dict_lookup d k)
  /\ (exists n : nat,
        exported_count export_data = Some n
        /\ histogram_total export_data = Some (Z.of_nat n)).
Proof.
  export_cases w id;
    try rewrite emit_event_run;
    intros Hrun; simplify_eq; cbn.
  split.
  - exists d. split; [done|]. split; [done|]. intros k. apply dict_lookup_set.
  - apply tally_entries_counts in Htally as [Hsum Hlen].
    exists (length (exported t)). split; [done|].
    unfold histogram_total, py_categories. cbn.
    rewrite sum_counts_categories, Hsum, Hlen. cbn. reflexivity.
Qed.

(** *** The local cache file *)

Section CacheFile.
Variable fromisoformat : string -> result datetime.

(** What [_load_shared_state] does, by the content of the file: nothing
    for a missing file; a warning and no change for a file that cannot be
    read or decoded; otherwise the sync state and the cache are replaced
    together. *)
Lemma load_run w :
  exists w',
    _load_shared_state fromisoformat w = (Ok tt, w')
    /\ match state_file w with
       | FileAbsent => w' = w
       | FileUnreadable =>
           w' = record (Logged Warning (Log_load_failed OSError)) w
       | FileCorrupt =>
           w' = record (Logged Warning (Log_load_failed JSONDecodeError)) w
       | FileJson v =>
           (exists e, w' = record (Logged Warning (Log_load_failed e)) w)
           \/ exists d s,
                v = PDict d
                /\ w' = record (Logged Info Log_state_loaded)
                          (set_local_cache (dict_get d "local_cache" (PDict []))
                             (set_sync_state s w))
                /\ conflict_resolution s = conflict_resolution (sync_state w)
                /\ match dict_lookup d "sync_state" with
                   | None => s = sync_state w
                   | Some sync_data =>
                       exists stamp,
                         py_getitem sync_data "last_sync" = Ok stamp
                         /\ py_fromisoformat fromisoformat stamp
                            = Ok (last_sync s)
                         /\ py_get sync_data "react_version" (PInt 0)
                            = Ok (react_version s)
                         /\ py_get sync_data "python_version" (PInt 0)
                            = Ok (python_version s)
                         /\ py_get sync_data "pending_changes" (PList [])
                            = Ok (pending_changes s)
                   end
       end.
Proof.
  unfold _load_shared_state, set_last_sync, set_react_version,
    set_python_version, set_pending_changes, try_except, raise, log, gets,
    modify, lift, ret, bind.
  destruct (state_file w) as [| | |v]; cbn; [by eauto..|].
  destruct v as [| | |s| |l|d]; cbn; try (by eauto).
  - destruct (str_contains "sync_state" s); cbn; eauto.
  - destruct (existsb (eq_str "sync_state") l); cbn; eauto.
  - destruct (dict_lookup d "sync_state") as [sync_data|] eqn:Hsync; cbn.
    + destruct sync_data as [| | | | | |sd]; cbn; try (by eauto).
      destruct (dict_lookup sd "last_sync") as [stamp|] eqn:Hstamp; cbn;
        [|by eauto].
      destruct stamp as [| | |iso| | |]; cbn; try (by eauto).
      destruct (fromisoformat iso) as [t|e] eqn:Hiso; cbn; [|by eauto].
      eexists. split; [reflexivity|]. right.
      exists d, {| last_sync := t;
                   react_version := dict_get sd "react_version" (PInt 0);
                   python_version := dict_get sd "python_version" (PInt 0);
                   pending_changes := dict_get sd "pending_changes" (PList []);
                   conflict_resolution := conflict_resolution (sync_state w) |}.
      rewrite Hsync. cbn. rewrite Hstamp. cbn.
      repeat split; try done. exists (PStr iso). cbn. by rewrite Hiso.
    + eexists. split; [reflexivity|]. right. exists d, (sync_state w).
      rewrite Hsync. by repeat split.
Qed.

(** C8, as the code has it: constructing a bridge, which is where
    [_load_shared_state] runs, never raises.  With no state file nothing is
    logged and the bridge has the default sync state and an empty cache.
    With a file that cannot be read, that is no JSON, whose document is no
    object or whose ['sync_state'] has no ['last_sync'] that
    [fromisoformat] accepts, one warning is logged and the bridge has the
    default sync state and an empty cache as well.  Every other document,
    that is, every object without ['sync_state'] and every object whose
    ['sync_state'] has a ['last_sync'] that [fromisoformat] accepts, is
    loaded: the fields of the sync state and the cache are taken as the
    document has them, whatever they are, or their defaults where the
    document has none, and [conflict_resolution] is left alone. *)
Theorem load_failure_keeps_defaults (cfg : BridgeConfig) (api_client : R)
    (file : file_content) (writable : bool) (clk : nat -> instant) :
  let w0 := blank cfg api_client file writable clk in
  let w := __init__ fromisoformat cfg api_client file writable clk in
  let defaults :=
    sync_state w = new_SyncState (wall (clk O)) /\ local_cache w = PDict [] in
  let refused (e : exn) :=
    trace w = [Logged Warning (Log_load_failed e)] /\ defaults in
  let loaded (d : list (string * pyval)) (s : SyncState) :=
    trace w = [Logged Info Log_state_loaded]
    /\ sync_state w = s
    /\ local_cache w = dict_get d "local_cache" (PDict []) in
  _load_shared_state fromisoformat w0 = (Ok tt, w)
  /\ match file with
     | FileAbsent => trace w = [] /\ defaults
     | FileUnreadable => refused OSError
     | FileCorrupt => refused JSONDecodeError
     | FileJson (PDict d) =>
         match dict_lookup d "sync_state" with
         | None => loaded d (new_SyncState (wall (clk O)))
         | Some (PDict sync_data) =>
             match dict_lookup sync_data "last_sync" with
             | Some (PStr stamp) =>
                 match fromisoformat stamp with
                 | Ok t =>
                     loaded d
                       {| last_sync := t;
                          react_version :=
                            dict_get sync_data "react_version" (PInt 0);
                          python_version :=
                            dict_get sync_data "python_version" (PInt 0);
                          pending_changes :=
                            dict_get sync_data "pending_changes" (PList []);
                          conflict_resolution := "manual" |}
                 | Raise e => refused e
                 end
             | Some _ => refused TypeError
             | None => refused (KeyError "last_sync")
             end
         | Some _ => refused TypeError
         end
     | FileJson _ => exists e, refused e
     end.
Proof.
  intros w0 w defaults refused loaded.
  subst defaults refused loaded w w0.
  unfold __init__, _load_shared_state, set_last_sync, set_react_version,
    set_python_version, set_pending_changes, try_except, raise, log, gets,
    modify, lift, ret, bind.
  destruct file as [| | |v]; cbn; [done..|].
  destruct v as [| | |s| |l|d]; cbn; try (by eauto).
  - destruct (str_contains "sync_state" s); cbn; eauto.
  - destruct (existsb (eq_str "sync_state") l); cbn; eauto.
  - destruct (dict_lookup d "sync_state") as [sync_data|]; cbn; [|done].
    destruct sync_data as [| | | | | |sd]; cbn; try done.
    destruct (dict_lookup sd "last_sync") as [stamp|]; cbn; [|done].
    destruct stamp as [| | |iso| | |]; cbn; try done.
    by destruct (fromisoformat iso) as [t|e]; cbn.
Qed.

(** What a bridge constructed over the file that another bridge saved
    gets back: every field of the sync state but [conflict_resolution],
    and the cache, both as [json.load] reads them. *)
Lemma save_then_load w (cfg : BridgeConfig) (api_client : R)
    (clk : nat -> instant) :
  file_writable w = true ->
  fromisoformat (isoformat (last_sync (sync_state w)))
  = Ok (last_sync (sync_state w)) ->
  let saved := snd (_save_shared_state w) in
  let loaded :=
    __init__ fromisoformat cfg api_client (state_file saved) true clk in
  last_sync (sync_state loaded) = last_sync (sync_state w)
  /\ react_version (sync_state loaded)
     = json_roundtrip (react_version (sync_state w))
  /\ python_version (sync_state loaded)
     = json_roundtrip (python_version (sync_state w))
  /\ pending_changes (sync_state loaded)
     = json_roundtrip (pending_changes (sync_state w))
  /\ local_cache loaded = json_roundtrip (local_cache w)
  /\ conflict_resolution (sync_state loaded) = "manual".
Proof.
  intros Hwritable Hiso saved loaded. subst loaded saved.
  unfold __init__, _save_shared_state, write_file, try_except, now, log,
    gets, modify, bind.
  cbn. rewrite Hwritable. cbn.
  unfold _load_shared_state, set_last_sync, set_react_version,
    set_python_version, set_pending_changes, try_except, raise, log, gets,
    modify, lift, ret, bind.
  cbn. rewrite Hiso. cbn. done.
Qed.

End CacheFile.

(** *** Steps that only move the bridge on *)

Lemma failed_calls_app es es' :
  failed_calls (es ++ es') = failed_calls es ++ failed_calls es'.
Proof. apply flat_map_app. Qed.

Lemma failed_among_calls (P : remote_call -> Prop) es :
  Forall P (remote_calls es) -> Forall P (failed_calls es).
Proof.
  induction es as [|e es IH]; [done|].
  destruct e as [| | |c []|]; cbn; try done.
  - intros Hall. inversion Hall. auto.
  - intros Hall. inversion Hall. constructor; auto.
Qed.

Lemma moves_on_ret {A} (a : A) : moves_on (R:=R) (ret a).
Proof.
  intros w r w' [= <- <-]. exists (client w), [], 0%nat, [].
  rewrite touch_nothing. by repeat split.
Qed.

Lemma moves_on_lift {A} (r : result A) : moves_on (R:=R) (lift r).
Proof.
  intros w r' w' [= <- <-]. exists (client w), [], 0%nat, [].
  rewrite touch_nothing. by repeat split.
Qed.

Lemma moves_on_bind {A B} (m : @M R A) (k : A -> @M R B) :
  moves_on m -> (forall a, moves_on (k a)) -> moves_on (bind m k).
Proof.
  intros Hm Hk w r w'. unfold bind.
  destruct (m w) as [[a|e] w1] eqn:Hrun;
    apply Hm in Hrun as (x & q & n & es & -> & Hq & Hf).
  - intros Hrest. apply Hk in Hrest as (x' & q' & n' & es' & -> & Hq' & Hf').
    exists x', (q ++ q'), (n + n')%nat, (es ++ es').
    rewrite touch_touch. split; [done|]. split; [by apply Forall_app|].
    intros Hok. rewrite failed_calls_app. apply Forall_app. auto.
  - intros [= <- <-]. by exists x, q, n, es.
Qed.

Lemma moves_on_remote {A} (c : remote_call) (call : R -> result A * R) :
  moves_on (remote c call).
Proof.
  intros w r w'. unfold remote. destruct (call (client w)) as [r0 x].
  intros [= <- <-]. exists x, [], 0%nat, [Remote c (is_ok r0)].
  split.
  - rewrite record_touch. unfold touch, set_client. cbn.
    by rewrite Nat.add_0_r.
  - split; [done|]. intros ->. constructor.
Qed.

Lemma moves_on_for_each {A} (items : list A) (body : A -> @M R unit) :
  (forall a, moves_on (body a)) -> moves_on (for_each items body).
Proof.
  intros Hbody. induction items as [|a items IH]; cbn [for_each].
  - apply moves_on_ret.
  - apply moves_on_bind; auto.
Qed.

Lemma moves_on_import (annotations_data : pyval) :
  moves_on (import_python_annotations annotations_data).
Proof.
  intros w r w' Hrun.
  destruct (import_run annotations_data w)
    as (ids & x & q & n & es & Hrun' & Hq & Hcalls & _).
  rewrite Hrun' in Hrun. injection Hrun as <- <-.
  exists x, q, n, es. split; [done|]. split; [done|].
  intros _. by apply failed_among_calls.
Qed.

Lemma moves_on_when_present (key : string) (python_data : pyval)
    (body : pyval -> @M R unit) :
  (forall v, moves_on (body v)) ->
  moves_on (when_present key python_data body).
Proof.
  intros Hbody. unfold when_present.
  apply moves_on_bind; [apply moves_on_lift|]. intros [].
  - apply moves_on_bind; [apply moves_on_lift|]. auto.
  - apply moves_on_ret.
Qed.

Lemma moves_on_sync_bookmark (bookmark_data : pyval) :
  moves_on (sync_bookmark bookmark_data).
Proof.
  unfold sync_bookmark.
  repeat (apply moves_on_bind; [apply moves_on_lift|intros ?]).
  apply moves_on_bind; [apply moves_on_remote|]. intros. apply moves_on_ret.
Qed.

Lemma moves_on_sync_collection (collection_data : pyval) :
  moves_on (sync_collection collection_data).
Proof.
  unfold sync_collection.
  repeat (apply moves_on_bind; [apply moves_on_lift|intros ?]).
  apply moves_on_bind; [apply moves_on_remote|]. intros. apply moves_on_ret.
Qed.

(** The part of [sync_python_data_to_react] that sends the data. *)
Lemma moves_on_sending (python_data : pyval) :
  moves_on
    (bind (when_present "bookmarks" python_data (fun bookmarks =>
             bind (lift (py_iter bookmarks))
               (fun items => for_each items sync_bookmark)))
       (fun _ =>
          bind (when_present "annotations" python_data (fun annotations =>
                  bind (import_python_annotations annotations)
                    (fun _ => ret tt)))
            (fun _ =>
               when_present "collections" python_data (fun collections =>
                 bind (lift (py_iter collections))
                   (fun items => for_each items sync_collection))))).
Proof.
  apply moves_on_bind; [|intros _; apply moves_on_bind; [|intros _]];
    apply moves_on_when_present; intros v.
  - apply moves_on_bind; [apply moves_on_lift|]. intros items.
    apply moves_on_for_each, moves_on_sync_bookmark.
  - apply moves_on_bind; [apply moves_on_import|]. intros.
    apply moves_on_ret.
  - apply moves_on_bind; [apply moves_on_lift|]. intros items.
    apply moves_on_for_each, moves_on_sync_collection.
Qed.

Lemma save_run w : _save_shared_state w = (Ok tt, saved w).
Proof.
  unfold _save_shared_state, saved, saved_document, write_file, try_except,
    now, log, gets, modify, bind.
  cbn. by destruct (file_writable w).
Qed.

Lemma bind_sending {A} (m1 m2 m3 : @M R unit) (k : unit -> @M R A) w :
  bind m1 (fun _ => bind m2 (fun _ => bind m3 k)) w
  = bind (bind m1 (fun _ => bind m2 (fun _ => m3))) k w.
Proof.
  unfold bind. destruct (m1 w) as [[[]|e1] w1]; [|done].
  destruct (m2 w1) as [[[]|e2] w2]; [|done].
  by destruct (m3 w2) as [[[]|e3] w3].
Qed.

Lemma saved_keeps w :
  sync_state (saved w) = sync_state w
  /\ message_queue (saved w) = message_queue w
  /\ local_cache (saved w) = local_cache w
  /\ clock (saved w) = clock w
  /\ state_file (saved w)
     = (if file_writable w then FileJson (saved_document w)
        else state_file w)
  /\ exists es,
       trace (saved w) = trace w ++ es
       /\ failed_calls es = [] /\ queued es = [].
Proof.
  unfold saved. destruct (file_writable w); cbn;
    repeat split; try done; eexists; rewrite <- ?app_assoc; by repeat split.
Qed.

(** *** Synchronisation *)

(** What a run of [sync_python_data_to_react] comes to. *)
Lemma sync_run (python_data : pyval) w :
  exists (b : bool) w' es q,
    sync_python_data_to_react python_data w = (Ok b, w')
    /\ trace w' = trace w ++ es
    /\ message_queue w' = message_queue w ++ q
    /\ (sync_state w' = sync_state w
        \/ py_succ (python_version (sync_state w))
           = Ok (python_version (sync_state w')))
    /\ if b then
         py_succ (python_version (sync_state w))
         = Ok (python_version (sync_state w'))
         /\ (exists n, (ticks w <= n < ticks w')%nat
                       /\ last_sync (sync_state w') = wall (clock w n))
         /\ (exists q0 message,
               q = q0 ++ [message]
               /\ message_type message = "python_data_synced")
         /\ Forall creates_annotation (failed_calls es)
       else
         Forall (fun m => message_type m = "annotations_imported") q
         /\ (sync_state w' = sync_state w /\ state_file w' = state_file w
             \/ Forall creates_annotation (failed_calls es)
                /\ is_ok (py_keys python_data) = false).
Proof.
  unfold sync_python_data_to_react, try_except. rewrite bind_sending.
  unfold bind at 1.
  match goal with |- context [match ?m w with _ => _ end] =>
    destruct (m w) as [[[]|e] w1] eqn:Hsend;
    apply moves_on_sending in Hsend as (x & q & n & es & -> & Hq & Hf)
  end.
  - specialize (Hf eq_refl).
    unfold bind at 1. unfold gets at 1. unfold bind at 1. unfold lift at 1.
    cbn [sync_state touch].
    destruct (py_succ (python_version (sync_state w))) as [v'|e] eqn:Hsucc.
    + unfold bind, set_python_version, set_last_sync, now, gets, modify, ret.
      rewrite save_run. unfold lift.
      match goal with |- context [saved ?w0] => set (w4 := w0) end.
      assert (Hversion : python_version (sync_state w4) = v') by done.
      assert (Hlast : last_sync (sync_state w4) = wall (clock w (ticks w + n)))
        by done.
      assert (Hticks : ticks w4 = S (ticks w + n)) by done.
      assert (Hsaved : ticks (saved w4) = S (ticks w4))
        by (unfold saved; by destruct (file_writable w4)).
      assert (Htrace : trace w4 = trace w ++ es) by done.
      assert (Hqueue : message_queue w4 = message_queue w ++ q) by done.
      clearbody w4.
      destruct (saved_keeps w4) as (Ss & Sq & _ & _ & _ & ses & St & Sf & _).
      destruct (py_keys python_data) as [keys|e] eqn:Hkeys.
      * rewrite emit_event_run.
        set (message := event_message _ _ _). set (hs := default [] _).
        destruct (deliveries_quiet message hs) as (Dr & _).
        eexists true, _, _, _. split; [reflexivity|].
        cbn [trace message_queue sync_state touch].
        rewrite St, Sq, Ss, Htrace, Hqueue, Hversion, Hlast, <- !app_assoc.
        split; [reflexivity|]. split; [reflexivity|]. split; [by right|].
        split; [done|].
        split; [exists (ticks w + n)%nat; cbn [ticks touch]; split; [lia|done]|].
        split; [by eexists _, _|].
        rewrite !failed_calls_app, Sf. cbn [failed_calls flat_map app].
        fold (failed_calls (flat_map (delivery message) hs)).
        rewrite ?app_nil_r. apply Forall_app. split; [done|].
        apply (failed_among_calls creates_annotation). by rewrite Dr.
      * eexists false, _, _, _. split; [reflexivity|].
        cbn [trace message_queue sync_state record].
        rewrite St, Sq, Ss, Htrace, Hqueue, Hversion, <- !app_assoc.
        split; [reflexivity|]. split; [reflexivity|].
        split; [by right|]. split; [done|]. right. split; [|done].
        rewrite !failed_calls_app, Sf. cbn. rewrite !app_nil_r. done.
    + unfold log, modify, ret, bind.
      eexists false, _, _, q. split; [reflexivity|].
      cbn. rewrite <- app_assoc.
      split; [reflexivity|]. split; [done|]. split; [by left|].
      split; [done|]. by left.
  - unfold log, modify, ret, bind.
    eexists false, _, _, q. split; [reflexivity|].
    cbn. rewrite <- app_assoc.
    split; [reflexivity|]. split; [done|]. split; [by left|].
    split; [done|]. by left.
Qed.


(** *** The version counter *)

Lemma keeps_bind {X A B} (f : bridge -> X) (m : @M R A) (k : A -> @M R B) :
  keeps f m -> (forall a, keeps f (k a)) -> keeps f (bind m k).
Proof.
  intros Hm Hk w. unfold bind. specialize (Hm w).
  destruct (m w) as [[a|e] w1]; cbn [snd] in *; [|done].
  by rewrite Hk.
Qed.

Lemma keeps_try {X A} (f : bridge -> X) (body : @M R A)
    (handle : exn -> @M R A) :
  keeps f body -> (forall e, keeps f (handle e)) ->
  keeps f (try_except body handle).
Proof.
  intros Hbody Hhandle w. unfold try_except. specialize (Hbody w).
  destruct (body w) as [[a|e] w1]; cbn [snd] in *; [done|].
  by rewrite Hhandle.
Qed.

Lemma keeps_version_save : keeps (R:=R) version _save_shared_state.
Proof.
  intros w. rewrite save_run. unfold version. cbn [snd].
  by destruct (saved_keeps w) as (-> & _).
Qed.

Lemma keeps_version_emit (event_type : string) (payload : pyval) :
  keeps (R:=R) version (emit_event event_type payload).
Proof. intros w. by rewrite emit_event_run. Qed.

Lemma keeps_version_import (annotations_data : pyval) :
  keeps (R:=R) version (import_python_annotations annotations_data).
Proof.
  intros w. destruct (import_run annotations_data w)
    as (ids & x & q & n & es & -> & _). reflexivity.
Qed.

Lemma keeps_version_export (id : string) :
  keeps (R:=R) version (export_collection_for_python id).
Proof.
  intros w. export_cases w id; try rewrite emit_event_run; reflexivity.
Qed.

Ltac keep_version :=
  repeat first
    [ apply keeps_version_save
    | apply keeps_version_emit
    | apply keeps_bind; [|intros ?]
    | apply keeps_try; [|intros ?]
    | match goal with
      | |- keeps _ (if ?c then _ else _) => destruct c
      | |- keeps _ (match ?c with _ => _ end) => destruct c
      end
    | (intros ?; reflexivity) ].

Lemma keeps_version_check : keeps (R:=R) version _check_for_changes.
Proof. unfold _check_for_changes. keep_version. Qed.

Lemma keeps_version_clear : keeps (R:=R) version clear_cache.
Proof. unfold clear_cache. keep_version. Qed.

Lemma keeps_version_force : keeps (R:=R) version force_sync.
Proof.
  unfold force_sync. apply keeps_try.
  - apply keeps_bind; [apply keeps_version_check|intros ?]. keep_version.
  - intros ?. keep_version.
Qed.

(** C6, as the code has it: [import_python_annotations] on its own never
    touches the version counter.  The counter goes up by exactly one in
    every [sync_python_data_to_react] that returns [True], and no
    operation on a bridge takes it down: each leaves an integer counter
    where it was or one higher. *)
Theorem python_version_steps w (n : Z) :
  python_version (sync_state w) = PInt n ->
  (forall annotations_data,
     python_version
       (sync_state (snd (import_python_annotations annotations_data w)))
     = PInt n)
  /\ (forall python_data w',
        sync_python_data_to_react python_data w = (Ok true, w') ->
        python_version (sync_state w') = PInt (n + 1))
  /\ (forall op,
        python_version (sync_state (run op w)) = PInt n
        \/ python_version (sync_state (run op w)) = PInt (n + 1)).
Proof.
  intros Hn.
  assert (Hsync : forall python_data,
    python_version
      (sync_state (snd (sync_python_data_to_react python_data w))) = PInt n
    \/ python_version
         (sync_state (snd (sync_python_data_to_react python_data w)))
       = PInt (n + 1)).
  { intros python_data.
    destruct (sync_run python_data w)
      as (b & w' & es & q & -> & _ & _ & [Hsame|Hsucc] & _); cbn [snd].
    - left. by rewrite Hsame.
    - right. rewrite Hn in Hsucc. by injection Hsucc. }
  split; [|split].
  - intros annotations_data.
    exact (eq_trans (keeps_version_import annotations_data w) Hn).
  - intros python_data w' Hrun.
    destruct (sync_run python_data w)
      as (b & w'' & es & q & Hrun' & _ & _ & _ & Hb).
    rewrite Hrun' in Hrun. injection Hrun as -> ->.
    destruct Hb as (Hsucc & _). rewrite Hn in Hsucc. by injection Hsucc.
  - intros [t h|t p|id|a|d| | | |]; cbn [run]; try apply Hsync; left.
    + done.
    + exact (eq_trans (keeps_version_emit t p w) Hn).
    + exact (eq_trans (keeps_version_export id w) Hn).
    + exact (eq_trans (keeps_version_import a w) Hn).
    + exact (eq_trans (keeps_version_check w) Hn).
    + exact (eq_trans (keeps_version_save w) Hn).
    + exact (eq_trans (keeps_version_clear w) Hn).
    + exact (eq_trans (keeps_version_force w) Hn).
Qed.

End Facts.


(** C3 as stated fails: with a clock that advances by a microsecond per
    reading, the cached entry expires one hour and one microsecond after
    its [exported_at]. *)
Lemma export_expiry_drifts :
  let w := blank default_config sample_store FileAbsent true ticking in
  let run := export_collection_for_python "c1" w in
  is_ok (fst run) = true
  /\ cached_field (snd run) (cache_key "c1") "exported_at"
     = Ok (PStr "2025-01-01T00:00:00.000002")
  /\ cached_field (snd run) (cache_key "c1") "expires_at"
     = Ok (PStr "2025-01-01T01:00:00.000003")
  /\ isoformat (y2025 + 2 + timedelta_hours 1) = "2025-01-01T01:00:00.000002".
Proof. repeat split; vm_compute; reflexivity. Qed.

(** A successful export of the sample collection. *)
Lemma export_success_example :
  let w := blank default_config sample_store FileAbsent true ticking in
  let run := export_collection_for_python "c1" w in
  let export_data := match fst run with Ok v => v | Raise _ => PNone end in
  run = (Ok export_data, snd run)
  /\ exists n : nat,
       exported_count export_data = Some n
       /\ histogram_total export_data = Some (Z.of_nat n).
Proof.
  intros w run export_data.
  assert (Hrun : run = (Ok export_data, snd run)) by (vm_compute; reflexivity).
  split; [exact Hrun|].
  exact (proj2 (export_success_caches "c1" w export_data (snd run) Hrun)).
Defined.

(** An export against a store that cannot be reached: the client's error
    is raised and nothing was cached or queued. *)
Lemma export_failure_example :
  let w := blank default_config unreachable_store FileAbsent true ticking in
  let e := MysticalAPIError "Request failed: Connection refused" in
  let w' := snd (export_collection_for_python "c1" w) in
  export_collection_for_python "c1" w = (Raise e, w')
  /\ local_cache w' = local_cache w
  /\ message_queue w' = message_queue w.
Proof.
  intros w e w'.
  assert (Hrun : export_collection_for_python "c1" w = (Raise e, w'))
    by (vm_compute; reflexivity).
  split; [exact Hrun|].
  destruct (export_failure_leaves_state "c1" w e w' Hrun) as (Hc & Hq & _).
  by split.
Defined.

(** C8 as stated fails: with no state file the bridge is constructed
    without any log entry. *)
Lemma load_missing_file_is_silent :
  let w := __init__ parse_example default_config (mock_store []) FileAbsent
             true ticking in
  trace w = []
  /\ sync_state w = new_SyncState y2025
  /\ local_cache w = PDict [].
Proof. repeat split; vm_compute; reflexivity. Qed.

(** A document with fields of the wrong shape is loaded as it is. *)
Lemma load_accepts_any_fields :
  let document :=
    PDict [("sync_state",
            PDict [("last_sync", PStr "2025-01-01T00:00:00");
                   ("python_version", PStr "seven")]);
           ("local_cache", PInt 5)] in
  let w := __init__ parse_example default_config (mock_store [])
             (FileJson document) true ticking in
  trace w = [Logged Info Log_state_loaded]
  /\ python_version (sync_state w) = PStr "seven"
  /\ local_cache w = PInt 5.
Proof. repeat split; vm_compute; reflexivity. Qed.

(** C5 at a failing input: a sync state with [conflict_resolution]
    ['react_wins'] is saved; a bridge constructed over the saved file has
    the other fields back and [conflict_resolution] ['manual']. *)
Lemma save_load_drops_conflict_resolution :
  let state :=
    {| last_sync := y2025; react_version := PInt 3; python_version := PInt 7;
       pending_changes := PList [PStr "change-1"];
       conflict_resolution := "react_wins" |} in
  let w := set_sync_state state
             (blank default_config (mock_store []) FileAbsent true ticking) in
  let saved := snd (_save_shared_state w) in
  let loaded := __init__ parse_example default_config (mock_store [])
                  (state_file saved) true ticking in
  last_sync (sync_state loaded) = y2025
  /\ react_version (sync_state loaded) = PInt 3
  /\ python_version (sync_state loaded) = PInt 7
  /\ pending_changes (sync_state loaded) = PList [PStr "change-1"]
  /\ conflict_resolution (sync_state w) = "react_wins"
  /\ conflict_resolution (sync_state loaded) = "manual".
Proof. repeat split; vm_compute; reflexivity. Qed.

(** A [datetime] object in the cache comes back as a string. *)
Lemma save_load_stringifies_datetimes :
  let w := set_local_cache (PDict [("seen", PDatetime y2025)])
             (blank default_config (mock_store []) FileAbsent true ticking) in
  let saved := snd (_save_shared_state w) in
  let loaded := __init__ parse_example default_config (mock_store [])
                  (state_file saved) true ticking in
  local_cache loaded = PDict [("seen", PStr "2025-01-01 00:00:00")].
Proof. vm_compute. reflexivity. Qed.

(** C6 as stated fails: an import of two well-formed items through a
    working remote store creates both and leaves the version counter at
    zero. *)
Lemma import_leaves_version :
  let items := [annotation_record "e1" "first note" "Ada";
                annotation_record "e2" "second note" "Ada"] in
  let w := blank default_config (mock_store []) FileAbsent true ticking in
  let run := import_python_annotations (PList items) w in
  fst run = Ok ["annotation_0"; "annotation_1"]
  /\ python_version (sync_state w) = PInt 0
  /\ python_version (sync_state (snd run)) = PInt 0.
Proof. repeat split; vm_compute; reflexivity. Qed.

(** One synchronisation on a fresh bridge takes the counter from 0 to 1. *)
Lemma python_version_steps_example :
  let w := blank default_config (mock_store []) FileAbsent true ticking in
  let python_data :=
    PDict [("annotations", PList [annotation_record "e1" "a note" "Ada"])] in
  let w' := snd (sync_python_data_to_react python_data w) in
  python_version (sync_state w) = PInt 0
  /\ sync_python_data_to_react python_data w = (Ok true, w')
  /\ python_version (sync_state w') = PInt (0 + 1).
Proof.
  intros w python_data w'.
  assert (Hn : python_version (sync_state w) = PInt 0) by reflexivity.
  assert (Hrun : sync_python_data_to_react python_data w = (Ok true, w'))
    by (vm_compute; reflexivity).
  split; [exact Hn|]. split; [exact Hrun|].
  exact (proj1 (proj2 (python_version_steps w 0 Hn)) python_data w' Hrun).
Defined.


(** An argument that is no dictionary: [False] is returned after the
    counter went up and the state was saved. *)
Lemma sync_list_argument :
  let w := blank default_config (mock_store []) FileAbsent true ticking in
  let run := sync_python_data_to_react (PList []) w in
  fst run = Ok false
  /\ python_version (sync_state (snd run)) = PInt 1
  /\ is_saved (state_file (snd run)) = true.
Proof. repeat split; vm_compute; reflexivity. Qed.

(** C9 as stated fails: handed a single record instead of a list, the
    bridge iterates over its keys, skips each of them and returns the empty
    list; nothing is raised. *)
Lemma import_single_record_returns :
  let w := blank default_config (mock_store []) FileAbsent true ticking in
  let run := import_python_annotations
               (annotation_record "e1" "a note" "Ada") w in
  fst run = Ok []
  /\ skipped (trace (snd run))
     = [PStr "entryId"; PStr "content"; PStr "authorName"]
  /\ remote_calls (trace (snd run)) = [].
Proof. repeat split; vm_compute; reflexivity. Qed.

(** The single record again, through the general statement. *)
Lemma import_non_sequence_single_record :
  let w := blank default_config (mock_store []) FileAbsent true ticking in
  let single := annotation_record "e1" "a note" "Ada" in
  (forall items,
     single = PList items ->
     Forall (fun item => is_record item = false) items)
  /\ exists w' es,
       import_python_annotations single w = (Ok [], w')
       /\ trace w' = trace w ++ es
       /\ remote_calls es = []
       /\ client w' = client w.
Proof.
  intros w single.
  assert (Hshape : forall items,
            single = PList items ->
            Forall (fun item => is_record item = false) items)
    by discriminate.
  split; [exact Hshape|]. exact (import_non_sequence single w Hshape).
Defined.

End BridgeFacts.

(** * Further properties of the code *)

(** ** The request loop, whatever the server does *)

Module ApiClientExtras.
Import ApiClient ApiClientFacts.

Section Requests.
Variable str_of_container : pyval -> string.

Lemma attempt_loop_outcome (n : nat) :
  forall (a : Z) (req : request) (c : client) res c',
    a + Z.of_nat (S n) = max_retries (config c) + 1 ->
    attempt_loop str_of_container (S n) a req c = (res, c') ->
    exists j : nat,
      (j <= n)%nat
      /\ config c' = config c
      /\ server c' = server c
      /\ sent c' = sent c ++ repeat req (S j)
      /\ slept c' = slept c ++ backoff_from a j
      /\ match res, server c (length (sent c) + j)%nat req with
         | Ok None, _ => False
         | Ok (Some r), answer => status_code r < 400 /\ answer = Responded r
         | Raise e, Responded r =>
             400 <= status_code r
             /\ e = MysticalAPIError
                      (status_message str_of_container (config c) r)
         | Raise e, Failed msg =>
             e = MysticalAPIError (transport_message (config c) msg)
         end.
Proof.
  induction n as [|n IH]; intros a req c res c' Hinv;
    cbn [attempt_loop session_request];
    destruct (server c (length (sent c)) req) as [r|e] eqn:Hserver.
  - exists 0%nat. rewrite Nat.add_0_r, Hserver.
    destruct (Z.leb_spec 400 (status_code r)); simplify_eq; cbn;
      rewrite app_nil_r; repeat split; eauto; lia.
  - destruct (Z.eqb_spec a (max_retries (config c))); [|lia].
    intros [= <- <-]. exists 0%nat. rewrite Nat.add_0_r, Hserver. cbn.
    rewrite app_nil_r. repeat split; eauto.
  - exists 0%nat. rewrite Nat.add_0_r, Hserver.
    destruct (Z.leb_spec 400 (status_code r)); simplify_eq; cbn;
      rewrite app_nil_r; repeat split; eauto; lia.
  - destruct (Z.eqb_spec a (max_retries (config c))); [lia|].
    intros Hrun.
    apply IH in Hrun as (j & Hj & Hcfg & Hsrv & Hsent & Hslept & Hres);
      [|cbn; lia].
    cbn [config server sent slept sleep] in Hcfg, Hsrv, Hsent, Hslept, Hres.
    exists (S j). rewrite backoff_from_succ, Hsent, Hslept, <- !app_assoc.
    rewrite length_app in Hres. cbn [length] in Hres.
    replace (length (sent c) + S j)%nat
      with (length (sent c) + 1 + j)%nat by lia.
    repeat split; try done; lia.
Qed.

Lemma attempt_loop_raises (res : result (option Response)) (answer : outcome)
    (cfg : PythonConfig) :
  match res, answer with
  | Ok None, _ => False
  | Ok (Some r), answer => status_code r < 400 /\ answer = Responded r
  | Raise e, Responded r =>
      400 <= status_code r
      /\ e = MysticalAPIError (status_message str_of_container cfg r)
  | Raise e, Failed msg => e = MysticalAPIError (transport_message cfg msg)
  end ->
  match res with
  | Ok None => False
  | Ok (Some r) => status_code r < 400 /\ answer = Responded r
  | Raise e => exists msg, e = MysticalAPIError msg
  end.
Proof.
  destruct res as [[r|]|e]; try done. destruct answer; [intros []|]; eauto.
Qed.

(** What a run of [_make_request] comes to: [j] requests were sent, and
    the last answer decides the outcome. *)
Lemma make_request_run
    (method endpoint : string) (kwargs : list (string * pyval))
    (c : client) (res : result (option Response)) (c' : client) :
  _make_request str_of_container method endpoint kwargs c = (res, c') ->
  let req := prepared (config c) method endpoint kwargs in
  config c' = config c
  /\ server c' = server c
  /\ exists j : nat,
       Z.of_nat j <= Z.max 0 (max_retries (config c) + 1)
       /\ sent c' = sent c ++ repeat req j
       /\ match res with
          | Ok None => j = 0%nat /\ max_retries (config c) < 0
          | Ok (Some r) =>
              (0 < j)%nat /\ status_code r < 400
              /\ server c (length (sent c) + pred j)%nat req = Responded r
          | Raise e =>
              (0 < j)%nat
              /\ match server c (length (sent c) + pred j)%nat req with
                 | Responded r =>
                     400 <= status_code r
                     /\ e = MysticalAPIError
                              (status_message str_of_container (config c) r)
                 | Failed msg =>
                     e = MysticalAPIError (transport_message (config c) msg)
                 end
          end.
Proof.
  intros Hrun req. unfold _make_request in Hrun. fold req in Hrun.
  destruct (Z.to_nat (max_retries (config c) + 1)) as [|n] eqn:Hn.
  - cbn in Hrun. injection Hrun as <- <-. split; [done|]. split; [done|].
    exists 0%nat. rewrite app_nil_r. repeat split; lia.
  - apply attempt_loop_outcome in Hrun
      as (j & Hj & Hcfg & Hsrv & Hsent & _ & Hres); [|lia].
    split; [done|]. split; [done|].
    exists (S j). cbn [pred]. split; [lia|]. split; [done|].
    destruct res as [[r|]|e]; [| |split; [lia|done]].
    + destruct Hres. repeat split; try done; lia.
    + by destruct (server c (length (sent c) + j)%nat req).
Qed.

(** X1: whatever the server does, [_make_request] sends the same prepared
    request at most [max_retries + 1] times, sleeps [1, 2, 4, ...] between
    the attempts and nowhere else, and ends in one of three ways: it
    returns the response of the last attempt, whose status is below 400;
    it raises [MysticalAPIError]; or, only when [max_retries] is negative,
    it returns [None] without having sent anything. *)
Theorem make_request_outcome
    (method endpoint : string) (kwargs : list (string * pyval))
    (c : client) (res : result (option Response)) (c' : client) :
  _make_request str_of_container method endpoint kwargs c = (res, c') ->
  let req := prepared (config c) method endpoint kwargs in
  exists j : nat,
    Z.of_nat j <= Z.max 0 (max_retries (config c) + 1)
    /\ sent c' = sent c ++ repeat req j
    /\ slept c' = slept c ++ backoff (pred j)
    /\ match res with
       | Ok None => j = 0%nat /\ max_retries (config c) < 0
       | Ok (Some r) =>
           status_code r < 400
           /\ server c (length (sent c) + pred j)%nat req = Responded r
       | Raise e => exists msg, e = MysticalAPIError msg
       end.
Proof.
  intros Hrun req. unfold _make_request in Hrun. fold req in Hrun.
  destruct (Z.to_nat (max_retries (config c) + 1)) as [|n] eqn:Hn.
  - cbn in Hrun. injection Hrun as <- <-. exists 0%nat.
    rewrite !app_nil_r. repeat split; lia.
  - apply attempt_loop_outcome in Hrun
      as (j & Hj & _ & _ & Hsent & Hslept & Hres); [|lia].
    apply attempt_loop_raises in Hres.
    exists (S j). cbn [pred]. repeat split; try done; try lia.
    by destruct res as [[r|]|e].
Qed.

(** X2: every request [_make_request] sends goes to the configured base
    URL followed by the endpoint and carries a timeout: the caller's when
    the caller gave one, the configured one otherwise.  The other keyword
    arguments are passed on as given. *)
Theorem make_request_timeout
    (method endpoint : string) (kwargs : list (string * pyval))
    (c : client) (res : result (option Response)) (c' : client) :
  _make_request str_of_container method endpoint kwargs c = (res, c') ->
  exists (j : nat) (kw : list (string * pyval)),
    sent c'
    = sent c ++ repeat (method, api_base_url (config c) +:+ endpoint, kw) j
    /\ dict_lookup kw "timeout"
       = Some (dict_get kwargs "timeout" (PInt (timeout (config c))))
    /\ forall k, k <> "timeout" -> dict_lookup kw k = dict_lookup kwargs k.
Proof.
  unfold _make_request, prepared. intros Hrun.
  exists (length (sent c') - length (sent c))%nat,
    (with_timeout (config c) kwargs).
  split; [|split].
  - destruct (Z.to_nat (max_retries (config c) + 1)) as [|n] eqn:Hn.
    + cbn in Hrun. injection Hrun as <- <-.
      rewrite Nat.sub_diag. cbn. by rewrite app_nil_r.
    + apply attempt_loop_outcome in Hrun as (j & _ & _ & _ & Hsent & _);
        [|lia].
      rewrite Hsent, length_app, repeat_length.
      by replace (length (sent c) + S j - length (sent c))%nat with (S j)
        by lia.
  - unfold with_timeout, dict_get.
    destruct (dict_lookup kwargs "timeout") eqn:Hgiven; [done|].
    by rewrite BridgeFacts.dict_lookup_set.
  - intros k Hk. unfold with_timeout.
    destruct (dict_lookup kwargs "timeout"); [done|].
    rewrite BridgeFacts.dict_lookup_set.
    by rewrite (proj2 (String.eqb_neq "timeout" k)).
Qed.

End Requests.

(** The scenario of the retry policy, seen through X1. *)
Lemma make_request_outcome_scenario :
  let c' := {| config := scenario_config; server := server scenario_client;
               sent := repeat health_request 3; slept := [1; 2] |} in
  _make_request (fun _ => "") "GET" "/health" [] scenario_client
  = (Ok (Some ok_response), c')
  /\ exists j : nat,
       Z.of_nat j <= Z.max 0 (max_retries (config scenario_client) + 1)
       /\ sent c' = sent scenario_client ++ repeat health_request j.
Proof.
  intros c'.
  assert (Hrun : _make_request (fun _ => "") "GET" "/health" []
                   scenario_client = (Ok (Some ok_response), c'))
    by reflexivity.
  split; [exact Hrun|].
  destruct (make_request_outcome (fun _ => "") "GET" "/health" []
              scenario_client _ _ Hrun) as (j & Hj & Hsent & _).
  exists j. split; [exact Hj|exact Hsent].
Defined.

(** A caller's own timeout, seen through X2. *)
Lemma make_request_timeout_scenario :
  exists (j : nat) (kw : list (string * pyval)),
    sent (snd (_make_request (fun _ => "") "GET" "/health"
                 [("timeout", PInt 5)] scenario_client))
    = sent scenario_client
      ++ repeat ("GET", api_base_url (config scenario_client) +:+ "/health", kw)
           j
    /\ dict_lookup kw "timeout" = Some (PInt 5).
Proof.
  destruct (make_request_timeout (fun _ => "") "GET" "/health"
              [("timeout", PInt 5)] scenario_client _ _ eq_refl)
    as (j & kw & Hsent & Htimeout & _).
  exists j, kw. split; [exact Hsent|exact Htimeout].
Defined.

End ApiClientExtras.

(** ** The bridge, method by method *)

Module BridgeExtras.
Import Bridge Json BridgeFacts.

(** *** Values that survive the state file *)

Lemma pyval_nested_ind (P : pyval -> Prop) :
  P PNone -> (forall b, P (PBool b)) -> (forall n, P (PInt n)) ->
  (forall s, P (PStr s)) -> (forall t, P (PDatetime t)) ->
  (forall l, Forall P l -> P (PList l)) ->
  (forall d, Forall (fun kv => P (snd kv)) d -> P (PDict d)) ->
  forall v, P v.
Proof.
  intros HNone HBool HInt HStr HDatetime HList HDict.
  fix IH 1.
  intros [| b | n | s | t | l | d];
    [exact HNone|apply HBool|apply HInt|apply HStr|apply HDatetime| |].
  - apply HList. induction l as [|x l IHl]; constructor; [apply IH|exact IHl].
  - apply HDict. induction d as [|[k x] d IHd]; constructor;
      [apply IH|exact IHd].
Qed.

Lemma json_roundtrip_plain (v : pyval) : json_plain (json_roundtrip v) = true.
Proof.
  induction v as [| | | | |l IH|d IH] using pyval_nested_ind; try done.
  - cbn [json_roundtrip json_plain]. apply forallb_forall.
    intros x [y [<- Hy]]%in_map_iff.
    rewrite List.Forall_forall in IH. by apply IH.
  - cbn [json_roundtrip json_plain]. apply forallb_forall.
    intros x [[k y] [<- Hy]]%in_map_iff.
    rewrite List.Forall_forall in IH. exact (IH _ Hy).
Qed.

Lemma json_plain_fixed (v : pyval) :
  json_plain v = true -> json_roundtrip v = v.
Proof.
  induction v as [| | | | |l IH|d IH] using pyval_nested_ind; try done.
  - cbn [json_roundtrip json_plain]. intros Hl. f_equal.
    rewrite forallb_forall in Hl. rewrite List.Forall_forall in IH.
    rewrite <- (map_id l) at 2. apply map_ext_in. auto.
  - cbn [json_roundtrip json_plain]. intros Hd. f_equal.
    rewrite forallb_forall in Hd. rewrite List.Forall_forall in IH.
    rewrite <- (map_id d) at 2. apply map_ext_in.
    intros [k x] Hin. f_equal. exact (IH _ Hin (Hd _ Hin)).
Qed.

Section More.
Context {R : Type} `{Client R}.
Implicit Types (w : @bridge R) (es : list effect) (q : list BridgeMessage).

(** *** The event bus *)

(** X3: handlers are kept per event type.  After a handler is registered
    for one type, an event of a type calls the handlers that were
    registered for that type before, in order, and then the new handler if
    and only if the two types are the same; the registration changes no
    other entry of the handler table. *)
Theorem register_then_emit (registered_type event_type : string)
    (h : handler) (payload : pyval) w :
  let w1 := snd (register_event_handler registered_type h w) in
  let message := event_message event_type payload w in
  let before := default [] (event_handlers w !! event_type) in
  (forall other, other <> registered_type ->
     event_handlers w1 !! other = event_handlers w !! other)
  /\ exists w2 es,
       emit_event event_type payload w1 = (Ok tt, w2)
       /\ trace w2 = trace w ++ es
       /\ message_queue w2 = message_queue w ++ [message]
       /\ invoked es
          = map (fun h0 => (handler_name h0, message))
              (before
               ++ if String.eqb registered_type event_type then [h] else []).
Proof.
  intros w1 message before. split.
  - intros other Hother. cbn. by rewrite lookup_insert_ne.
  - rewrite emit_event_run. eexists _, _. split; [reflexivity|].
    cbn [trace message_queue touch snd register_event_handler modify
         set_event_handlers event_handlers w1].
    split; [reflexivity|]. split; [reflexivity|].
    change (invoked (Queued ?m :: ?es)) with (invoked es).
    rewrite invoked_deliveries. f_equal.
    destruct (String.eqb_spec registered_type event_type) as [->|Hne].
    + by rewrite lookup_insert_eq.
    + rewrite lookup_insert_ne by done. by rewrite app_nil_r.
Qed.

(** *** The state file *)

(** X4: [_save_shared_state] never raises and changes no attribute of the
    bridge.  When the file can be written it holds, afterwards, the sync
    state and the cache as [json] renders them; when it cannot, the file is
    as before and the failure is logged as an error. *)
Theorem save_outcome w :
  exists w',
    _save_shared_state w = (Ok tt, w')
    /\ sync_state w' = sync_state w
    /\ local_cache w' = local_cache w
    /\ message_queue w' = message_queue w
    /\ event_handlers w' = event_handlers w
    /\ client w' = client w
    /\ if file_writable w then
         exists doc sync_data,
           state_file w' = FileJson doc
           /\ trace w' = trace w ++ [Wrote doc; Logged Debug Log_state_saved]
           /\ py_getitem doc "local_cache"
              = Ok (json_roundtrip (local_cache w))
           /\ py_getitem doc "sync_state" = Ok sync_data
           /\ py_getitem sync_data "last_sync"
              = Ok (PStr (isoformat (last_sync (sync_state w))))
           /\ py_getitem sync_data "python_version"
              = Ok (json_roundtrip (python_version (sync_state w)))
           /\ py_getitem sync_data "react_version"
              = Ok (json_roundtrip (react_version (sync_state w)))
           /\ py_getitem sync_data "pending_changes"
              = Ok (json_roundtrip (pending_changes (sync_state w)))
       else
         state_file w' = state_file w
         /\ trace w' = trace w ++ [Logged Error (Log_save_failed OSError)].
Proof.
  rewrite save_run. eexists. split; [reflexivity|].
  unfold saved, saved_document. destruct (file_writable w); cbn.
  - repeat split. eexists _, _. rewrite <- app_assoc. by repeat split.
  - by repeat split.
Qed.

Section StateFile.
Variable fromisoformat : string -> result datetime.

Lemma init_writable (cfg : BridgeConfig) (api_client : R)
    (file : file_content) (writable : bool) (clk : nat -> instant) :
  file_writable (__init__ fromisoformat cfg api_client file writable clk)
  = writable.
Proof.
  unfold __init__.
  destruct (load_run fromisoformat (blank cfg api_client file writable clk))
    as (w' & -> & Hfile).
  cbn [snd state_file blank] in *.
  destruct file as [| | |v]; try (by subst w').
  by destruct Hfile as [[e ->]|(d & s & _ & -> & _)].
Qed.



End StateFile.

(** *** Utilities *)

(** X7: [clear_cache] empties a cache that is a dictionary or a list,
    saves, and logs; nothing else of the bridge changes.  A cache of any
    other kind (the state file may have put one there) has no [clear]: the
    call raises [AttributeError] before anything is done. *)
Theorem clear_cache_outcome w :
  match local_cache w with
  | PDict _ | PList _ =>
      exists w' es,
        clear_cache w = (Ok tt, w')
        /\ truthy (local_cache w') = false
        /\ is_record (local_cache w') = is_record (local_cache w)
        /\ sync_state w' = sync_state w
        /\ message_queue w' = message_queue w
        /\ trace w' = trace w ++ es ++ [Logged Info Log_cache_cleared]
        /\ (file_writable w = true ->
            exists doc,
              state_file w' = FileJson doc
              /\ py_getitem doc "local_cache" = Ok (local_cache w'))
  | _ => clear_cache w = (Raise AttributeError, w)
  end.
Proof.
  unfold clear_cache, bind, gets, raise.
  destruct (local_cache w) as [| | | | |l|d] eqn:Hcache; try done;
    unfold modify; rewrite save_run; unfold log, modify;
    match goal with |- context [saved ?w0] => set (w1 := w0) end;
    (assert (Hw1 : file_writable w1 = file_writable w) by done);
    (assert (Ht1 : trace w1 = trace w) by done);
    (assert (Hs1 : sync_state w1 = sync_state w) by done);
    (assert (Hq1 : message_queue w1 = message_queue w) by done);
    (assert (Hc1 : truthy (local_cache w1) = false
                   /\ json_roundtrip (local_cache w1) = local_cache w1)
       by done);
    [assert (Hr1 : is_record (local_cache w1) = false) by done
    |assert (Hr1 : is_record (local_cache w1) = true) by done];
    clearbody w1;
    destruct (saved_keeps w1) as (Ss & Sq & Sc & _ & Sf & ses & St & _);
    eexists _, _; (split; [reflexivity|]);
    cbn [local_cache sync_state message_queue trace state_file record];
    rewrite Ss, Sq, Sc, St, Sf, Hw1, Ht1, Hs1, Hq1, <- app_assoc;
    repeat split; try done; try apply Hc1;
    intros ->; eexists; (split; [reflexivity|]);
    unfold saved_document; cbn; by rewrite (proj2 Hc1).
Qed.

(** Where a span of twice the interval can be built, so can one of the
    interval. *)
Lemma timedelta_halved (interval doubled : Z) :
  timedelta_of_seconds (interval * 2) = Ok doubled ->
  doubled = timedelta_seconds (interval * 2)
  /\ timedelta_of_seconds interval = Ok (timedelta_seconds interval).
Proof.
  unfold timedelta_of_seconds, max_delta_days.
  destruct (Z.leb_spec (Z.abs (interval * 2 / 86400)) 999999999) as [Hd|];
    [|discriminate].
  intros [= <-]. split; [done|].
  destruct (Z.leb_spec (Z.abs (interval / 86400)) 999999999) as [|Hs];
    [done|].
  exfalso. revert Hd Hs. Z.to_euclidean_division_equations. lia.
Qed.

(** For a time that is a date, the threshold is out of range exactly when
    twice the interval back from it is no date: the span itself is then
    always one that can be built. *)
Lemma time_threshold_run (current interval : Z) :
  datetime_min <= current <= datetime_max ->
  let threshold := current - timedelta_seconds (interval * 2) in
  time_threshold current interval
  = if (datetime_min <=? threshold) && (threshold <=? datetime_max)
    then Ok threshold
    else Raise OverflowError.
Proof.
  intros Hcurrent threshold. subst threshold.
  unfold time_threshold, timedelta_of_seconds, datetime_minus.
  destruct (Z.leb_spec (Z.abs (interval * 2 / 86400)) max_delta_days)
    as [|Hspan]; [done|].
  destruct (Z.leb_spec datetime_min
              (current - timedelta_seconds (interval * 2))) as [Hlow|];
    [|done].
  destruct (Z.leb_spec (current - timedelta_seconds (interval * 2))
              datetime_max) as [Hhigh|]; [|done].
  exfalso. revert Hcurrent Hspan Hlow Hhigh.
  unfold datetime_min, datetime_max, max_delta_days, timedelta_seconds,
    usec_per_day, usec_per_second.
  Z.to_euclidean_division_equations. lia.
Qed.

(** What a run of [_check_for_changes] comes to. *)
Lemma check_run w :
  let current := wall (clock w (ticks w)) in
  let interval := sync_interval (config w) in
  let elapsed := current - last_sync (sync_state w) in
  _check_for_changes w
  = (Ok tt,
     match time_threshold current interval with
     | Ok _ =>
         if timedelta_seconds interval <? elapsed
         then saved (snd (set_last_sync current (set_ticks (S (ticks w)) w)))
         else set_ticks (S (ticks w)) w
     | Raise e =>
         record (Logged Error (Log_change_detection_failed e))
           (set_ticks (S (ticks w)) w)
     end).
Proof.
  intros current interval elapsed. subst current interval elapsed.
  unfold _check_for_changes, try_except, bind, now, gets, lift. cbn.
  destruct (time_threshold _ _) as [threshold|e] eqn:Hthreshold; [|done].
  unfold time_threshold in Hthreshold.
  destruct (timedelta_of_seconds (sync_interval (config w) * 2))
    as [doubled|] eqn:Hdoubled; [|discriminate].
  apply timedelta_halved in Hdoubled as [_ ->].
  destruct (_ <? _); [|done].
  unfold bind, set_last_sync, modify. by rewrite save_run.
Qed.


(** [force_sync] after its call of [_check_for_changes]. *)
Lemma force_rest w :
  exists w' message es,
    bind now (fun stamp =>
      bind (set_last_sync stamp) (fun _ =>
        bind _save_shared_state (fun _ =>
          bind now (fun emitted_at =>
            bind (gets (fun w0 => python_version (sync_state w0)))
              (fun sync_version =>
                 bind (emit_event "force_sync_completed"
                         (PDict [("timestamp", PStr (isoformat emitted_at));
                                 ("sync_version", sync_version)]))
                   (fun _ => log Info Log_force_sync_completed)))))) w
    = (Ok tt, w')
    /\ last_sync (sync_state w') = wall (clock w (ticks w))
    /\ python_version (sync_state w') = python_version (sync_state w)
    /\ local_cache w' = local_cache w
    /\ message_queue w' = message_queue w ++ [message]
    /\ message_type message = "force_sync_completed"
    /\ payload message
       = PDict [("timestamp",
                 PStr (isoformat (wall (clock w (S (S (ticks w)))))));
                ("sync_version", python_version (sync_state w))]
    /\ trace w' = trace w ++ es ++ [Logged Info Log_force_sync_completed]
    /\ (file_writable w = true ->
        exists doc sync_data,
          state_file w' = FileJson doc
          /\ py_getitem doc "sync_state" = Ok sync_data
          /\ py_getitem sync_data "last_sync"
             = Ok (PStr (isoformat (wall (clock w (ticks w)))))).
Proof.
  unfold bind, now, set_last_sync, modify, gets. rewrite save_run.
  cbn [fst snd]. rewrite emit_event_run. unfold log, modify.
  unfold saved, saved_document. cbn.
  destruct (file_writable w) eqn:Hwritable; cbn;
    (eexists _, _, _; split; [reflexivity|]); cbn;
    repeat split; try reflexivity; try discriminate;
    try (intros _; eexists _, _; repeat split; reflexivity);
    (etrans; [|symmetry; apply app_assoc]); f_equal;
    rewrite <- !app_assoc; reflexivity.
Qed.

(** X8: [force_sync] never raises.  It sets [last_sync] to a reading of
    the clock taken during the call, saves, and queues exactly one
    ['force_sync_completed'] message; the time that message reports is read
    two readings after the one that became [last_sync].  The version
    counter and the cache stay as they are. *)
Theorem force_sync_completes w :
  exists w' (n : nat) message es,
    force_sync w = (Ok tt, w')
    /\ (n = S (ticks w) \/ n = S (S (ticks w)))
    /\ last_sync (sync_state w') = wall (clock w n)
    /\ python_version (sync_state w') = python_version (sync_state w)
    /\ local_cache w' = local_cache w
    /\ message_queue w' = message_queue w ++ [message]
    /\ message_type message = "force_sync_completed"
    /\ payload message
       = PDict [("timestamp", PStr (isoformat (wall (clock w (S (S n))))));
                ("sync_version", python_version (sync_state w))]
    /\ trace w' = trace w ++ es ++ [Logged Info Log_force_sync_completed]
    /\ (file_writable w = true ->
        exists doc sync_data,
          state_file w' = FileJson doc
          /\ py_getitem doc "sync_state" = Ok sync_data
          /\ py_getitem sync_data "last_sync"
             = Ok (PStr (isoformat (wall (clock w n))))).
Proof.
  unfold force_sync, try_except. unfold bind at 1. rewrite check_run.
  cbv beta iota.
  match goal with |- context [bind now _ ?w0] => set (wc := w0) end.
  assert (Hwc : (ticks wc = S (ticks w) \/ ticks wc = S (S (ticks w)))
                /\ clock wc = clock w
                /\ python_version (sync_state wc) = python_version (sync_state w)
                /\ local_cache wc = local_cache w
                /\ message_queue wc = message_queue w
                /\ file_writable wc = file_writable w
                /\ exists es0, trace wc = trace w ++ es0).
  { subst wc. destruct (time_threshold _ _) as [threshold|e];
      [destruct (_ <? _)|].
    - unfold saved, saved_document. destruct (file_writable w) eqn:Hwritable;
        cbn; rewrite ?Hwritable; cbn; rewrite <- ?app_assoc;
        repeat split; eauto.
    - cbn. repeat split; eauto. exists []. by rewrite app_nil_r.
    - cbn. repeat split; eauto. }
  clearbody wc.
  destruct Hwc as (Hticks & Hclock & Hversion & Hcache & Hqueue & Hwritable
                   & es0 & Htrace).
  destruct (force_rest wc)
    as (w' & message & es & -> & Hl & Hv & Hc & Hq & Hm & Hp & Ht & Hf).
  exists w', (ticks wc), message, (es0 ++ es). split; [reflexivity|].
  rewrite Hl, Hv, Hc, Hq, Hp, Ht, Hclock, Hversion, Hcache, Hqueue, Htrace,
    <- !app_assoc.
  repeat split; try done.
  rewrite <- Hwritable, <- Hclock. exact Hf.
Qed.

(** *** Export *)

Lemma existsb_eqb_In (x : string) (l : list string) :
  existsb (String.eqb x) l = true <-> In x l.
Proof.
  rewrite existsb_exists. split.
  - intros (y & Hy & ->%String.eqb_eq). exact Hy.
  - intros Hx. exists x. split; [exact Hx|apply String.eqb_refl].
Qed.

Lemma NoDup_snoc (a : string) (seen : list string) :
  ~ In a seen -> List.NoDup seen -> List.NoDup (seen ++ [a]).
Proof.
  induction seen as [|b seen IH]; cbn; intros Ha Hseen.
  - constructor; [tauto|constructor].
  - inversion Hseen as [|? ? Hb Hrest]; subst. constructor.
    + rewrite in_app_iff. cbn. intuition.
    + apply IH; tauto.
Qed.

Lemma set_update_In (new : list string) :
  forall seen x, In x (set_update seen new) <-> In x seen \/ In x new.
Proof.
  induction new as [|a new IH]; intros seen x; cbn [set_update].
  - cbn. tauto.
  - rewrite IH. destruct (existsb (String.eqb a) seen) eqn:Ha.
    + apply existsb_eqb_In in Ha. cbn. intuition (subst; auto).
    + rewrite in_app_iff. cbn. tauto.
Qed.

Lemma set_update_NoDup (new : list string) :
  forall seen, List.NoDup seen -> List.NoDup (set_update seen new).
Proof.
  induction new as [|a new IH]; intros seen Hseen; cbn [set_update];
    [done|].
  apply IH. destruct (existsb (String.eqb a) seen) eqn:Ha; [done|].
  apply NoDup_snoc; [|done].
  intros Hin. apply existsb_eqb_In in Hin. congruence.
Qed.

(** What the loop over the entries computes, and when it fails. *)
Lemma tally_entries_run (es : list CodexEntry) :
  forall acc,
    match tally_entries acc es with
    | Ok t =>
        Forall (fun e => fullText e <> None /\ bookmark e <> None) es
        /\ total_size t = total_size acc + total (map size es)
        /\ dates t = dates acc ++ map processedDate es
        /\ length (exported t) = (length (exported acc) + length es)%nat
        /\ (List.NoDup (all_key_terms acc) -> List.NoDup (all_key_terms t))
        /\ (forall term,
              In term (all_key_terms t)
              <-> In term (all_key_terms acc)
                  \/ exists e ts,
                       In e es /\ keyTerms e = Some ts /\ In term ts)
    | Raise x =>
        x = AttributeError
        /\ Exists (fun e => fullText e = None \/ bookmark e = None) es
    end.
Proof.
  induction es as [|entry es IH]; intros acc; cbn [tally_entries].
  - cbn. rewrite app_nil_r, Nat.add_0_r. repeat split; try done; try lia.
    + tauto.
    + intros [Hin|(e & ts & [] & _)]. exact Hin.
  - unfold tally_entry.
    destruct (fullText entry) as [text|] eqn:Htext;
      [|split; [done|constructor; by left]].
    destruct (bookmark entry) as [bm|] eqn:Hbm;
      [|split; [done|constructor; by right]].
    match goal with |- context [tally_entries ?a es] => set (acc' := a) end.
    specialize (IH acc').
    destruct (tally_entries acc' es) as [t|x].
    + destruct IH as (Hall & Hsize & Hdates & Hlen & Hnd & Hin).
      assert (Hstep :
        (List.NoDup (all_key_terms acc) -> List.NoDup (all_key_terms acc'))
        /\ forall term,
             In term (all_key_terms acc')
             <-> In term (all_key_terms acc)
                 \/ exists ts, keyTerms entry = Some ts /\ In term ts).
      { subst acc'. cbn [all_key_terms].
        destruct (keyTerms entry) as [[|t0 ts]|] eqn:Hterms.
        - split; [done|]. intros term. split; [by left|].
          by intros [Hin'|(ts & [= <-] & [])].
        - split; [apply set_update_NoDup|].
          intros term. rewrite set_update_In.
          split; [intros [|]; eauto|].
          intros [|(ts' & [= <-] & Hin')]; auto.
        - split; [done|]. intros term. split; [by left|].
          by intros [Hin'|(ts & [=] & _)]. }
      destruct Hstep as [Hnd' Hin'].
      rewrite Hsize, Hdates, Hlen. subst acc'.
      cbn [total_size dates exported map total fold_right].
      fold (total (map size es)).
      rewrite length_app, <- app_assoc. cbn [length app].
      repeat split; try done; try lia; auto.
      * constructor; [|done]. rewrite Htext, Hbm. by split.
      * intros Hterm. apply Hin in Hterm as [Hterm|(e & ts & He & Hts & Ht)].
        -- apply Hin' in Hterm as [|(ts & Hts & Ht)]; [by left|right].
           exists entry, ts. cbn. auto.
        -- right. exists e, ts. cbn. auto.
      * intros Hterm. apply Hin.
        destruct Hterm as [Hterm|(e & ts & [<-|He] & Hts & Ht)].
        -- left. apply Hin'. by left.
        -- left. apply Hin'. right. by exists ts.
        -- right. by exists e, ts.
    + destruct IH as [-> Hex]. split; [done|]. by constructor 2.
Qed.

Lemma find_none_iff {A} (f : A -> bool) (l : list A) :
  find f l = None <-> Forall (fun a => f a = false) l.
Proof.
  induction l as [|a l IH]; cbn; [by split; [constructor|]|].
  destruct (f a) eqn:Ha.
  - split; [done|]. intros Hall. inversion Hall. congruence.
  - rewrite IH. split; [by constructor|]. intros Hall. by inversion Hall.
Qed.

(** The steps of an export, outcome by outcome, with their equations. *)
Ltac export_steps w id :=
  unfold export_collection_for_python, cache_store, try_except, remote,
    raise, log, modify, now, gets, lift, ret, bind;
  destruct (get_collections (client w)) as [[collections|?] x] eqn:Hlist;
  [destruct (find (fun c => String.eqb (collection_id (collection c)) id)
               collections) as [target|] eqn:Hfind;
   [pose proof (tally_entries_run (entries target) empty_tally) as Hrun;
    destruct (tally_entries empty_tally (entries target)) as [t|?] eqn:Htally;
    [destruct (date_range (dates t)) as [range|?] eqn:Hrange;
     [cbn [local_cache set_ticks set_client record];
      destruct (local_cache w) as [| | | | | |d] eqn:Hcache;
      cbn [py_setitem] | ] | ] | ] | ].

(** X10: asked for a collection the remote store does not list,
    [export_collection_for_python] raises [ValueError] with the identifier
    in its text, after the one remote call and one logged error; the
    bridge is otherwise as before. *)
Theorem export_unknown_collection (id : string) w
    (collections : list CollectionWithEntries) (x : R) :
  get_collections (client w) = (Ok collections, x) ->
  Forall (fun c => collection_id (collection c) <> id) collections ->
  let e := ValueError ("Collection " +:+ id +:+ " not found") in
  export_collection_for_python id w
  = (Raise e,
     touch x [] 0 [Remote Get_collections true; Logged Error (Log_export_failed e)]
       w).
Proof.
  intros Hlist Hnone e.
  assert (Hfind : find (fun c => String.eqb (collection_id (collection c)) id)
                    collections = None).
  { apply find_none_iff. eapply Forall_impl; [exact Hnone|].
    intros c Hc. by apply String.eqb_neq. }
  unfold export_collection_for_python, try_except, remote, raise, log,
    modify, bind.
  rewrite Hlist, Hfind. cbn [is_ok].
  unfold touch, set_client, record. cbn.
  by rewrite Nat.add_0_r, app_nil_r, <- app_assoc.
Qed.

(** X11: [export_collection_for_python] returns exactly when the remote
    store lists a collection with the identifier, every entry of the first
    such collection has a text and a [bookmark] attribute, the processing
    dates are all there (or the collection is empty), and the cache is a
    dictionary. *)
Theorem export_succeeds_iff (id : string) w :
  is_ok (fst (export_collection_for_python id w)) = true
  <-> exists collections x target d,
        get_collections (client w) = (Ok collections, x)
        /\ find (fun c => String.eqb (collection_id (collection c)) id)
             collections = Some target
        /\ Forall (fun e => fullText e <> None /\ bookmark e <> None)
             (entries target)
        /\ is_ok (date_range (map processedDate (entries target))) = true
        /\ local_cache w = PDict d.
Proof.
  split.
  - export_steps w id; try rewrite emit_event_run; cbn [fst is_ok];
      try discriminate.
    intros _. destruct Hrun as (Hall & _ & Hdates & _).
    cbn in Hdates. rewrite Hdates in Hrange.
    exists collections, x, target, d. rewrite Hrange. by repeat split.
  - intros (collections0 & x0 & target0 & d0 & Hlist0 & Hfind0 & Hall & Hdates
            & Hcache0).
    export_steps w id; try rewrite emit_event_run; cbn [fst is_ok];
      simplify_eq; try done.
    + destruct Hrun as (_ & _ & Hd & _). cbn in Hd. rewrite Hd in Hrange.
      by rewrite Hrange in Hdates.
    + destruct Hrun as [_ Hex].
      apply List.Exists_exists in Hex as (entry & Hentry & Hbad).
      rewrite List.Forall_forall in Hall. destruct (Hall entry Hentry).
      by destruct Hbad.
Qed.

(** X12: in a successful export the entry count of the document, the
    number of exported items and the count reported by the event are all
    the number of entries of the collection, and the total size of the
    document and of the event is the sum of their sizes.  The
    ['collection_exported'] message is the one message queued. *)
Theorem export_totals (id : string) w (export_data : pyval) w' :
  export_collection_for_python id w = (Ok export_data, w') ->
  exists collections x target message info metadata,
    get_collections (client w) = (Ok collections, x)
    /\ find (fun c => String.eqb (collection_id (collection c)) id)
         collections = Some target
    /\ py_getitem export_data "collection_info" = Ok info
    /\ py_getitem info "entry_count"
       = Ok (PInt (Z.of_nat (length (entries target))))
    /\ exported_count export_data = Some (length (entries target))
    /\ py_getitem export_data "metadata" = Ok metadata
    /\ py_getitem metadata "total_size"
       = Ok (PInt (total (map size (entries target))))
    /\ message_queue w' = message_queue w ++ [message]
    /\ message_type message = "collection_exported"
    /\ payload message
       = PDict [("collection_id", PStr id);
                ("entry_count", PInt (Z.of_nat (length (entries target))));
                ("total_size", PInt (total (map size (entries target))))].
Proof.
  export_steps w id; try rewrite emit_event_run;
    intros Hret; simplify_eq.
  destruct Hrun as (_ & Hsize & _ & Hlen & _).
  cbn [total_size exported empty_tally length Nat.add] in Hsize, Hlen.
  rewrite Z.add_0_l in Hsize.
  eexists collections, x, target, _, _, _.
  split; [done|]. split; [done|]. split; [reflexivity|].
  split; [reflexivity|]. split; [by rewrite <- Hlen|].
  split; [reflexivity|]. split; [by rewrite <- Hsize|].
  split; [reflexivity|]. split; [reflexivity|].
  cbn. by rewrite Hsize, Hlen.
Qed.

(** X13: the key terms of a successful export are the terms of the
    entries of the collection, each once. *)
Theorem export_key_terms (id : string) w (export_data : pyval) w' :
  export_collection_for_python id w = (Ok export_data, w') ->
  exists collections x target metadata terms,
    get_collections (client w) = (Ok collections, x)
    /\ find (fun c => String.eqb (collection_id (collection c)) id)
         collections = Some target
    /\ py_getitem export_data "metadata" = Ok metadata
    /\ py_getitem metadata "key_terms" = Ok (py_strings terms)
    /\ List.NoDup terms
    /\ forall term,
         In term terms
         <-> exists e ts,
               In e (entries target) /\ keyTerms e = Some ts /\ In term ts.
Proof.
  export_steps w id; try rewrite emit_event_run;
    intros Hret; simplify_eq.
  destruct Hrun as (_ & _ & _ & _ & Hnd & Hin).
  exists collections, x, target. eexists _, (all_key_terms t).
  split; [done|]. split; [done|]. split; [reflexivity|].
  split; [reflexivity|]. split; [apply Hnd; constructor|].
  intros term. rewrite Hin. cbn. tauto.
Qed.

Lemma all_present_spec {A} (l : list (option A)) :
  match all_present l with
  | Some ts => l = map Some ts
  | None => In None l
  end.
Proof.
  induction l as [|[a|] l IH]; cbn; [done| |by left].
  destruct (all_present l) as [ts|]; [by rewrite IH|by right].
Qed.

Lemma fold_min_bounds (t : Z) (ts : list Z) :
  let lo := fold_right Z.min t ts in
  In lo (t :: ts) /\ Forall (fun d => lo <= d) (t :: ts).
Proof.
  induction ts as [|a ts [Hin Hall]]; cbn [fold_right].
  - split; [by left|]. constructor; [lia|constructor].
  - cbn zeta in *. set (lo := fold_right Z.min t ts) in *.
    inversion Hall as [|? ? Ht Hts]; subst. split.
    + destruct (Z.min_spec a lo) as [[_ ->]|[_ ->]]; [right; by left|].
      destruct Hin as [<-|Hin]; [by left|right; by right].
    + constructor; [lia|]. constructor; [lia|].
      eapply Forall_impl; [exact Hts|]. cbn. intros; lia.
Qed.

Lemma fold_max_bounds (t : Z) (ts : list Z) :
  let hi := fold_right Z.max t ts in
  In hi (t :: ts) /\ Forall (fun d => d <= hi) (t :: ts).
Proof.
  induction ts as [|a ts [Hin Hall]]; cbn [fold_right].
  - split; [by left|]. constructor; [lia|constructor].
  - cbn zeta in *. set (hi := fold_right Z.max t ts) in *.
    inversion Hall as [|? ? Ht Hts]; subst. split.
    + destruct (Z.max_spec a hi) as [[_ ->]|[_ ->]]; [|right; by left].
      destruct Hin as [<-|Hin]; [by left|right; by right].
    + constructor; [lia|]. constructor; [lia|].
      eapply Forall_impl; [exact Hts|]. cbn. intros; lia.
Qed.

(** X14: the date range of an export.  No entries give a range of two
    [None]s.  When every entry has a processing date the range runs from
    the earliest to the latest of them.  A missing date makes the export
    fail: with [AttributeError] when the entry is the only one, with
    [TypeError] when there are more. *)
Theorem date_range_outcome (ds : list (option datetime)) :
  match date_range ds with
  | Ok range =>
      (ds = [] /\ range = PDict [("earliest", PNone); ("latest", PNone)])
      \/ exists lo hi,
           In (Some lo) ds /\ In (Some hi) ds
           /\ Forall (fun d => exists t, d = Some t /\ lo <= t <= hi) ds
           /\ range = PDict [("earliest", PStr (isoformat lo));
                             ("latest", PStr (isoformat hi))]
  | Raise e =>
      In None ds
      /\ (e = AttributeError /\ length ds = 1%nat
          \/ e = TypeError /\ (1 < length ds)%nat)
  end.
Proof.
  assert (Hmany : forall (d : option datetime) (rest : list (option datetime)),
    match all_present (d :: rest) with
    | Some (t :: ts) =>
        exists lo hi,
          In (Some lo) (d :: rest) /\ In (Some hi) (d :: rest)
          /\ Forall (fun d => exists t, d = Some t /\ lo <= t <= hi) (d :: rest)
          /\ PDict [("earliest", PStr (isoformat (fold_right Z.min t ts)));
                    ("latest", PStr (isoformat (fold_right Z.max t ts)))]
             = PDict [("earliest", PStr (isoformat lo));
                      ("latest", PStr (isoformat hi))]
    | _ => In None (d :: rest)
    end).
  { intros d rest. pose proof (all_present_spec (d :: rest)) as Hspec.
    destruct (all_present (d :: rest)) as [[|t ts]|]; [done| |done].
    rewrite Hspec.
    destruct (fold_min_bounds t ts) as [Hlo Hlos].
    destruct (fold_max_bounds t ts) as [Hhi Hhis].
    exists (fold_right Z.min t ts), (fold_right Z.max t ts).
    split; [by apply in_map|]. split; [by apply in_map|].
    split; [|reflexivity].
    rewrite List.Forall_forall in Hlos, Hhis. apply List.Forall_forall.
    intros x (y & <- & Hy)%in_map_iff. exists y. split; [done|].
    split; [by apply Hlos|by apply Hhis]. }
  destruct ds as [|d rest]; [by left|].
  specialize (Hmany d rest).
  pose proof (all_present_spec (d :: rest)) as Hspec.
  unfold date_range. destruct d as [t|].
  - revert Hmany Hspec.
    destruct (all_present (Some t :: rest)) as [[|t' ts]|];
      intros Hmany Hspec; [done|right; exact Hmany|].
    split; [done|]. right. split; [done|].
    destruct rest; [by destruct Hmany|cbn; lia].
  - destruct rest as [|d' rest].
    + split; [by left|]. by left.
    + cbn [all_present]. split; [by left|]. right. split; [done|cbn; lia].
Qed.

(** *** Import *)


End More.

(** *** Examples *)




(** A fresh bridge, polled at once: five seconds have not passed, and
    nothing changes. *)
Lemma check_for_changes_too_early :
  let w := blank default_config (mock_store []) FileAbsent true ticking in
  let w' := snd (_check_for_changes w) in
  sync_state w' = sync_state w /\ trace w' = [] /\ state_file w' = FileAbsent.
Proof. repeat split; vm_compute; reflexivity. Qed.

(** The sample store has no collection ["c9"]. *)
Lemma export_unknown_collection_example :
  let w := blank default_config sample_store FileAbsent true ticking in
  let e := ValueError "Collection c9 not found" in
  export_collection_for_python "c9" w
  = (Raise e,
     touch sample_store [] 0
       [Remote Get_collections true; Logged Error (Log_export_failed e)] w).
Proof.
  intros w e.
  apply (export_unknown_collection "c9" w [sample_collection] sample_store);
    [reflexivity|].
  constructor; [discriminate|constructor].
Defined.

(** The totals of the sample collection: two entries of 120 bytes. *)
Lemma export_totals_example :
  let w := blank default_config sample_store FileAbsent true ticking in
  let run := export_collection_for_python "c1" w in
  let export_data := match fst run with Ok v => v | Raise _ => PNone end in
  exists message,
    message_queue (snd run) = message_queue w ++ [message]
    /\ message_type message = "collection_exported".
Proof.
  intros w run export_data.
  assert (Hrun : run = (Ok export_data, snd run)) by (vm_compute; reflexivity).
  destruct (export_totals "c1" w export_data (snd run) Hrun)
    as (cs & x & target & message & info & metadata
        & _ & _ & _ & _ & _ & _ & _ & Hq & Ht & _).
  exists message. split; [exact Hq|exact Ht].
Defined.

(** The key terms of the sample collection, which its two entries share. *)
Lemma export_key_terms_example :
  let w := blank default_config sample_store FileAbsent true ticking in
  let run := export_collection_for_python "c1" w in
  let export_data := match fst run with Ok v => v | Raise _ => PNone end in
  exists metadata terms,
    py_getitem export_data "metadata" = Ok metadata
    /\ py_getitem metadata "key_terms" = Ok (py_strings terms)
    /\ List.NoDup terms.
Proof.
  intros w run export_data.
  assert (Hrun : run = (Ok export_data, snd run)) by (vm_compute; reflexivity).
  destruct (export_key_terms "c1" w export_data (snd run) Hrun)
    as (cs & x & target & metadata & terms & _ & _ & Hm & Hk & Hnd & _).
  exists metadata, terms. split; [exact Hm|]. split; [exact Hk|exact Hnd].
Defined.

End BridgeExtras.

(** ** The cache and the guarded methods of the client *)

Module ApiMethodsFacts.
Import ApiClient ApiMethods ApiClientExtras.

Section Facts.
Variable str_of_container : pyval -> string.
Variable str_of_exception : exn -> string.
Variable CodexEntryWithBookmark : pyval -> result Bridge.CodexEntry.
Variable parse_OracleResponse : pyval -> result OracleResponse.

(** *** The cache *)

(** X16: the cache, when enabled, gives back what was stored under a key
    as long as less than [cache_duration] seconds lie between the two
    readings of the clock; after that the lookup finds nothing and removes
    the key from both dictionaries.  Other keys are not touched, and no
    request is made.  With the cache disabled nothing is ever stored or
    found, and the clock is not read. *)
Theorem cache_round_trip (key : string) (value : pyval) (a : api) :
  let a1 := snd (_set_cache key value a) in
  let stored := time a (time_reads a) in
  let asked := time a (S (time_reads a)) in
  let fresh :=
    asked - stored <? timedelta_seconds (cache_duration (config (core a))) in
  if cache_enabled (config (core a)) then
    exists a2,
      _get_cached key a1 = (Ok (if fresh then value else PNone), a2)
      /\ _cache a2 !! key = (if fresh then Some value else None)
      /\ _cache_timestamps a2 !! key = (if fresh then Some stored else None)
      /\ (forall k, k <> key ->
            _cache a2 !! k = _cache a !! k
            /\ _cache_timestamps a2 !! k = _cache_timestamps a !! k)
      /\ core a2 = core a
      /\ time_reads a2 = S (S (time_reads a))
  else
    a1 = a /\ _get_cached key a = (Ok PNone, a).
Proof.
  intros a1 stored asked fresh. subst a1 stored asked fresh.
  unfold _set_cache, _get_cached, bind, gets, modify, time_time, ret.
  destruct (cache_enabled (config (core a))) eqn:Henabled; cbn;
    [|by rewrite ?Henabled].
  rewrite Henabled. cbn. rewrite lookup_insert_eq. cbn.
  rewrite lookup_insert_eq. cbn.
  destruct (_ <? _); eexists; (split; [reflexivity|]); cbn.
  - rewrite !lookup_insert_eq. repeat split; try done;
      by rewrite lookup_insert_ne.
  - rewrite !lookup_delete_eq. repeat split; try done;
      by rewrite lookup_delete_ne, lookup_insert_ne.
Qed.

Lemma preserves_bind {A B} (P : api -> Prop) (m : Call A) (k : A -> Call B) :
  preserves P m -> (forall x, preserves P (k x)) -> preserves P (bind m k).
Proof.
  intros Hm Hk a Ha. unfold bind. specialize (Hm a Ha).
  destruct (m a) as [[x|e] a1]; cbn [snd] in *; [|done]. by apply Hk.
Qed.

Lemma preserves_try {A} (P : api -> Prop) (body : Call A)
    (handle : exn -> Call A) :
  preserves P body -> (forall e, preserves P (handle e)) ->
  preserves P (try_except body handle).
Proof.
  intros Hbody Hhandle a Ha. unfold try_except. specialize (Hbody a Ha).
  destruct (body a) as [[x|e] a1]; cbn [snd] in *; [done|]. by apply Hhandle.
Qed.

(** A step that leaves the two dictionaries alone. *)
Lemma preserves_aside {A} (m : Call A) :
  (forall a, _cache (snd (m a)) = _cache a
             /\ _cache_timestamps (snd (m a)) = _cache_timestamps a) ->
  preserves caches_agree m.
Proof.
  intros Hm a Ha. unfold caches_agree in *. destruct (Hm a) as [-> ->]. done.
Qed.

Lemma preserves_request (method endpoint : string)
    (kwargs : list (string * pyval)) :
  preserves caches_agree (request str_of_container method endpoint kwargs).
Proof.
  apply preserves_aside. intros a. unfold request.
  by destruct (_make_request _ _ _ _ _).
Qed.

Lemma preserves_get_cached (key : string) :
  preserves caches_agree (_get_cached key).
Proof.
  intros a Ha. unfold caches_agree, _get_cached, bind, gets, modify,
    time_time, ret in *.
  destruct (cache_enabled (config (core a))); cbn; [|done].
  destruct (_cache a !! key); cbn; [|done].
  destruct (_ <? _); cbn; [done|]. by rewrite !dom_delete_L, Ha.
Qed.

Lemma preserves_set_cache (key : string) (value : pyval) :
  preserves caches_agree (_set_cache key value).
Proof.
  intros a Ha. unfold caches_agree, _set_cache, bind, gets, modify,
    time_time, ret in *.
  destruct (cache_enabled (config (core a))); cbn; [|done].
  by rewrite !dom_insert_L, Ha.
Qed.

Ltac agree :=
  repeat first
    [ apply preserves_request
    | apply preserves_get_cached
    | apply preserves_set_cache
    | apply preserves_bind; [|intros ?]
    | apply preserves_try; [|intros ?]
    | match goal with
      | |- preserves _ (if ?c then _ else _) => destruct c
      | |- preserves _ (match ?c with _ => _ end) => destruct c
      end
    | (apply preserves_aside; intros ?; split; reflexivity) ].

(** X17: the two cache dictionaries keep the same keys.  Every method
    that touches them stores or removes a key in both, so a client that
    starts with agreeing dictionaries (as a new client does, with both
    empty) has them agree after any of its calls. *)
Theorem caches_stay_agreed (a : api) :
  caches_agree a ->
  (forall key, caches_agree (snd (_get_cached key a)))
  /\ (forall key value, caches_agree (snd (_set_cache key value a)))
  /\ caches_agree
       (snd (get_all_entries str_of_container CodexEntryWithBookmark a))
  /\ (forall entry_id,
        caches_agree
          (snd (get_entry str_of_container CodexEntryWithBookmark entry_id a)))
  /\ (forall query context,
        caches_agree
          (snd (consult_oracle str_of_container str_of_exception
                  parse_OracleResponse query context a)))
  /\ caches_agree (snd (check_connection str_of_container a))
  /\ caches_agree (snd (get_system_info str_of_container a)).
Proof.
  intros Ha. repeat split; intros;
    match goal with |- caches_agree (snd (?m a)) =>
      revert a Ha; change (preserves caches_agree m)
    end.
  - apply preserves_get_cached.
  - apply preserves_set_cache.
  - unfold get_all_entries. agree.
  - unfold get_entry. agree.
  - unfold consult_oracle. agree.
  - unfold check_connection. agree.
  - unfold get_system_info. agree.
Qed.

(** *** Entries *)

Lemma request_run (method endpoint : string) (kwargs : list (string * pyval))
    (a : api) :
  request str_of_container method endpoint kwargs a
  = (fst (_make_request str_of_container method endpoint kwargs (core a)),
     set_core
       (snd (_make_request str_of_container method endpoint kwargs (core a)))
       a).
Proof. unfold request. by destruct (_make_request _ _ _ _ _). Qed.

(** What a lookup in the cache comes to. *)
Lemma get_cached_run (key : string) (a : api) :
  exists v a1,
    _get_cached key a = (Ok v, a1)
    /\ core a1 = core a /\ time a1 = time a /\ printed a1 = printed a
    /\ (v = PNone
        \/ cache_enabled (config (core a)) = true
           /\ _cache a !! key = Some v
           /\ time a (time_reads a)
              - default 0 (_cache_timestamps a !! key)
              < timedelta_seconds (cache_duration (config (core a)))
           /\ _cache a1 = _cache a
           /\ _cache_timestamps a1 = _cache_timestamps a
           /\ time_reads a1 = S (time_reads a)).
Proof.
  unfold _get_cached, bind, gets, modify, time_time, ret.
  destruct (cache_enabled (config (core a))); cbn; [|by eauto 10].
  destruct (_cache a !! key) as [value|]; cbn; [|by eauto 10].
  destruct (Z.ltb_spec
              (time a (time_reads a) - default 0 (_cache_timestamps a !! key))
              (timedelta_seconds (cache_duration (config (core a)))));
    eexists _, _; (split; [reflexivity|]); cbn; repeat split; auto.
  right. by repeat split.
Qed.

(** What storing in the cache comes to. *)
Lemma set_cache_run (key : string) (value : pyval) (a : api) :
  exists a2,
    _set_cache key value a = (Ok tt, a2)
    /\ core a2 = core a /\ time a2 = time a /\ printed a2 = printed a
    /\ if cache_enabled (config (core a)) then
         _cache a2 = <[key := value]> (_cache a)
         /\ _cache_timestamps a2
            = <[key := time a (time_reads a)]> (_cache_timestamps a)
         /\ time_reads a2 = S (time_reads a)
       else a2 = a.
Proof.
  unfold _set_cache, bind, gets, modify, time_time, ret.
  destruct (cache_enabled (config (core a))); cbn; eexists;
    (split; [reflexivity|]); by repeat split.
Qed.

Ltac step H := cbv beta iota delta [lift ret raise fst snd] in H.

(** X18: [get_entry] turns every failure of the request loop into [None]:
    with nothing usable in the cache, a request that ends in
    [MysticalAPIError] (an error status, or transport failures to the last
    retry) makes it return [None], with the cache as the lookup left it.
    No [MysticalAPIError] ever leaves [get_entry], the constructor of the
    entry raising none. *)
Theorem get_entry_absorbs_api_errors (entry_id : string) (a : api)
    (r : result (option Bridge.CodexEntry)) (a' : api) :
  get_entry str_of_container CodexEntryWithBookmark entry_id a = (r, a') ->
  (forall v msg, CodexEntryWithBookmark v <> Raise (MysticalAPIError msg)) ->
  (forall msg, r <> Raise (MysticalAPIError msg))
  /\ (forall v a1 msg c,
        _get_cached ("entry_" +:+ entry_id) a = (Ok v, a1) ->
        truthy v = false ->
        _make_request str_of_container "GET" ("/codex/entries/" +:+ entry_id)
          [] (core a1)
        = (Raise (MysticalAPIError msg), c) ->
        r = Ok None /\ a' = set_core c a1).
Proof.
  intros Hrun Hparse. unfold get_entry in Hrun. unfold bind at 1 in Hrun.
  destruct (get_cached_run ("entry_" +:+ entry_id) a)
    as (v & a1 & Hcached & _).
  rewrite Hcached in Hrun.
  assert (Hsame : forall v0 a0,
            _get_cached ("entry_" +:+ entry_id) a = (Ok v0, a0) ->
            v0 = v /\ a0 = a1)
    by (intros v0 a0 Hc; rewrite Hcached in Hc; by simplify_eq).
  destruct (truthy v) eqn:Htruthy.
  - unfold bind in Hrun. step Hrun.
    destruct (CodexEntryWithBookmark v) as [entry|e] eqn:Hv;
      step Hrun; simplify_eq.
    + split; [done|].
      intros v0 a0 msg c0 [-> ->]%Hsame; congruence.
    + split; [|intros v0 a0 msg c0 [-> ->]%Hsame; congruence].
      intros msg [= ->]. by eapply Hparse.
  - unfold try_except, bind in Hrun. rewrite request_run in Hrun.
    destruct (_make_request str_of_container "GET"
                ("/codex/entries/" +:+ entry_id) [] (core a1))
      as [[response|e] c] eqn:Hrequest; step Hrun.
    + split; [|intros v0 a0 msg c0 [-> ->]%Hsame; congruence].
      destruct (response_json response) as [entry_data|e]; step Hrun.
      * destruct (set_cache_run ("entry_" +:+ entry_id) entry_data
                    (set_core c a1)) as (a2 & Hset & _).
        rewrite Hset in Hrun. step Hrun.
        destruct (CodexEntryWithBookmark entry_data) as [entry|e] eqn:Hd;
          step Hrun; [by simplify_eq|].
        destruct e; by simplify_eq.
      * destruct e; by simplify_eq.
    + split.
      * destruct e; by simplify_eq.
      * intros v0 a0 msg c0 [-> ->]%Hsame _ Hraised.
        rewrite Hrequest in Hraised. by simplify_eq.
Qed.

(** X19: with the cache enabled, [get_entry] stores what the server sent
    before the entry is constructed from it.  So an answer that the
    constructor rejects, with an exception other than [MysticalAPIError],
    is cached all the same.  When that answer counts as true, the next
    call, for as long as the answer is fresh, fails in the same way without
    asking the server again; when it counts as false (an empty object,
    [null]) the stored answer is never used, and the next call asks the
    server again. *)
Theorem get_entry_caches_unvalidated (entry_id : string) (a : api)
    (answer : Response) (data : pyval) (e : exn) (c : client) :
  let key := "entry_" +:+ entry_id in
  cache_enabled (config (core a)) = true ->
  _cache a !! key = None ->
  _make_request str_of_container "GET" ("/codex/entries/" +:+ entry_id) []
    (core a)
  = (Ok (Some answer), c) ->
  json answer = Ok data ->
  CodexEntryWithBookmark data = Raise e ->
  (forall msg, e <> MysticalAPIError msg) ->
  time a (S (time_reads a)) - time a (time_reads a)
  < timedelta_seconds (cache_duration (config (core a))) ->
  exists a1 r a2,
    get_entry str_of_container CodexEntryWithBookmark entry_id a
    = (Raise e, a1)
    /\ _cache a1 !! key = Some data
    /\ get_entry str_of_container CodexEntryWithBookmark entry_id a1
       = (r, a2)
    /\ if truthy data
       then r = Raise e /\ sent (core a2) = sent (core a1)
       else (length (sent (core a1)) < length (sent (core a2)))%nat.
Proof.
  intros key Henabled Hmiss Hrequest Hjson Hparse He Hfresh.
  pose proof (make_request_run str_of_container _ _ _ _ _ _ Hrequest)
    as (Hcfg & _ & j0 & Hj0 & _ & Hpos0 & _).
  assert (Hretries : 0 <= max_retries (config c)) by (rewrite Hcfg; lia).
  assert (Hhandle : forall a0,
    match e with
    | MysticalAPIError _ => ret (A:=option Bridge.CodexEntry) None
    | _ => raise e
    end a0 = (Raise e, a0)).
  { intros a0. destruct e; try done. by edestruct He. }
  assert (Hfirst : _get_cached key a = (Ok PNone, a)).
  { unfold _get_cached, bind, gets. rewrite Henabled. cbn. by rewrite Hmiss. }
  destruct (set_cache_run key data (set_core c a))
    as (a1 & Hset & Hcore & Htime & _ & Hstored).
  cbn [core set_core] in Hstored. rewrite Hcfg, Henabled in Hstored.
  destruct Hstored as (Hcache & Hstamps & Hreads).
  cbn [set_core _cache _cache_timestamps time time_reads] in *.
  set (a1' := {| core := core a1; _cache := _cache a1;
                 _cache_timestamps := _cache_timestamps a1;
                 time := time a1; time_reads := S (time_reads a1);
                 printed := printed a1 |}).
  assert (Hsecond : _get_cached key a1 = (Ok data, a1')).
  { unfold a1'.
    assert (Hconfig : config (core a1) = config (core a))
      by (by rewrite Hcore).
    assert (Hlook : _cache a1 !! key = Some data)
      by (by rewrite Hcache, lookup_insert_eq).
    assert (Hstamp : _cache_timestamps a1 !! key
                     = Some (time a (time_reads a)))
      by (by rewrite Hstamps, lookup_insert_eq).
    unfold _get_cached, bind, gets, time_time, ret.
    rewrite Hconfig, Henabled. cbn [negb]. rewrite Hlook, Hstamp.
    cbn [from_option id]. rewrite Htime, Hreads. cbn [core].
    rewrite Hconfig.
    destruct (Z.ltb_spec
                (time a (S (time_reads a)) - time a (time_reads a))
                (timedelta_seconds (cache_duration (config (core a)))));
      [done|lia]. }
  assert (Hrun1 : get_entry str_of_container CodexEntryWithBookmark entry_id a
                  = (Raise e, a1)).
  { unfold get_entry. fold key. unfold bind at 1. rewrite Hfirst.
    cbn [truthy]. unfold try_except, bind. rewrite request_run, Hrequest.
    cbn [fst snd response_json lift]. rewrite Hjson, Hset, Hparse.
    apply Hhandle. }
  assert (Hlook : _cache a1 !! key = Some data)
    by (by rewrite Hcache, lookup_insert_eq).
  exists a1.
  destruct (truthy data) eqn:Htruthy.
  - eexists (Raise e), a1'. repeat split; try done.
    unfold get_entry. fold key. unfold bind at 1. rewrite Hsecond, Htruthy.
    unfold bind, lift. by rewrite Hparse.
  - destruct (_make_request str_of_container "GET"
                ("/codex/entries/" +:+ entry_id) [] (core a1'))
      as [res c2] eqn:Hrequest2.
    pose proof (make_request_run str_of_container _ _ _ _ _ _ Hrequest2)
      as (_ & _ & j & _ & Hsent & Hres).
    cbn [core set_core] in Hcore.
    cbn [core a1'] in Hsent, Hres. rewrite Hcore in Hsent, Hres.
    assert (Hj : (0 < j)%nat) by (destruct res as [[?|]|?]; lia).
    assert (Hgrown : (length (sent (core a1)) < length (sent c2))%nat)
      by (rewrite Hcore, Hsent, length_app, repeat_length; lia).
    assert (Hend : forall (e0 : exn) a0,
      core a0 = c2 ->
      exists r a2,
        match e0 with
        | MysticalAPIError _ => ret (A:=option Bridge.CodexEntry) None
        | _ => raise e0
        end a0 = (r, a2)
        /\ (length (sent (core a1)) < length (sent (core a2)))%nat).
    { intros e0 a0 Ha0. destruct e0; eexists _, a0;
        (split; [reflexivity|]); by rewrite Ha0. }
    enough (exists r a2,
      get_entry str_of_container CodexEntryWithBookmark entry_id a1 = (r, a2)
      /\ (length (sent (core a1)) < length (sent (core a2)))%nat)
      as (r & a2 & Hrun2 & Hmore) by (by exists r, a2).
    unfold get_entry. fold key. unfold bind at 1. rewrite Hsecond, Htruthy.
    unfold try_except, bind. rewrite request_run, Hrequest2.
    cbn [fst snd]. unfold lift.
    destruct res as [response|e0]; [|by apply Hend].
    destruct (response_json response) as [entry_data|e0]; [|by apply Hend].
    destruct (set_cache_run key entry_data (set_core c2 a1'))
      as (a3 & -> & Hcore3 & _).
    destruct (CodexEntryWithBookmark entry_data) as [entry|e0];
      [|by apply Hend].
    eexists _, a3. split; [reflexivity|]. by rewrite Hcore3.
Qed.

(** X20: [get_all_entries] answers from the cache exactly when the lookup
    gives something that counts as true.  An empty list, stored or not,
    does not: then, the retry count not being negative, the server is
    asked. *)
Theorem get_all_entries_cache_use (a : api) :
  0 <= max_retries (config (core a)) ->
  exists v a1 r a',
    _get_cached "all_entries" a = (Ok v, a1)
    /\ get_all_entries str_of_container CodexEntryWithBookmark a = (r, a')
    /\ if truthy v then
         r = parse_all CodexEntryWithBookmark v /\ a' = a1
       else (length (sent (core a)) < length (sent (core a')))%nat.
Proof.
  intros Hretries.
  destruct (get_cached_run "all_entries" a) as (v & a1 & Hcached & Hcore & _).
  exists v, a1. unfold get_all_entries. unfold bind at 1. rewrite Hcached.
  destruct (truthy v); [by eexists _, _|].
  unfold bind. rewrite request_run.
  destruct (_make_request str_of_container "GET" "/codex/entries" [] (core a1))
    as [res c] eqn:Hrequest.
  apply make_request_run in Hrequest as (_ & _ & j & _ & Hsent & Hres).
  rewrite Hcore in Hsent, Hres.
  assert (Hj : (0 < j)%nat) by (destruct res as [[?|]|?]; lia).
  assert (Hgrown : (length (sent (core a)) < length (sent c))%nat)
    by (rewrite Hsent, length_app, repeat_length; lia).
  cbn [fst snd]. destruct res as [response|e]; [|by eexists _, _].
  unfold lift. destruct (response_json response) as [entries_data|e];
    [|by eexists _, _].
  destruct (set_cache_run "all_entries" entries_data (set_core c a1))
    as (a2 & -> & Hcore2 & _).
  eexists _, _. split; [done|]. split; [reflexivity|]. by rewrite Hcore2.
Qed.

(** *** Health *)

(** X21: [check_connection] never raises and leaves the cache alone.  It
    returns [True] exactly when a request was sent and the last one sent
    was answered with status 200; an error status, transport failures to
    the last retry, or a negative retry count give [False]. *)
Theorem check_connection_outcome (a : api) :
  let req := prepared (config (core a)) "GET" "/health" [] in
  exists (b : bool) (a' : api) (j : nat),
    check_connection str_of_container a = (Ok b, a')
    /\ _cache a' = _cache a
    /\ _cache_timestamps a' = _cache_timestamps a
    /\ sent (core a') = sent (core a) ++ repeat req j
    /\ Z.of_nat j <= Z.max 0 (max_retries (config (core a)) + 1)
    /\ (b = true
        <-> (0 < j)%nat
            /\ exists r,
                 server (core a) (length (sent (core a)) + pred j)%nat req
                 = Responded r
                 /\ status_code r = 200).
Proof.
  intros req. unfold check_connection, try_except, bind.
  rewrite request_run.
  destruct (_make_request str_of_container "GET" "/health" [] (core a))
    as [res c] eqn:Hrequest.
  apply make_request_run in Hrequest as (_ & _ & j & Hj & Hsent & Hres).
  fold req in Hsent, Hres. cbn [fst snd].
  destruct res as [[r|]|e]; cbn.
  - destruct Hres as (Hpos & Hstatus & Hanswer).
    exists (status_code r =? 200), (set_core c a), j.
    repeat split; try done.
    + exists r. split; [done|]. by apply Z.eqb_eq.
    + intros (_ & r' & Hr' & H200). rewrite Hanswer in Hr'.
      injection Hr' as <-. by apply Z.eqb_eq.
  - destruct Hres as [-> _]. exists false, (set_core c a), 0%nat.
    repeat split; try done. intros [? _]. lia.
  - destruct Hres as [Hpos Hanswer]. exists false, (set_core c a), j.
    repeat split; try done. intros (_ & r & Hr & H200).
    rewrite Hr in Hanswer. lia.
Qed.

(** *** The oracle *)

Lemma lower_app (a b : string) : lower (a +:+ b) = lower a +:+ lower b.
Proof.
  induction a as [|c a IH]; [done|].
  change (String c a +:+ b) with (String c (a +:+ b)). cbn [lower].
  by rewrite IH.
Qed.

Lemma lower_embeds (n hay : string) :
  embeds n hay -> embeds (lower n) (lower hay).
Proof.
  intros (pre & post & ->). exists (lower pre), (lower post).
  by rewrite !lower_app.
Qed.

(** A term that occurs in a message is found by the test of the
    fallback. *)
Lemma fallback_found (term msg : string) :
  In term fallback_terms -> lower term = term -> embeds term msg ->
  existsb (fun t => str_contains t (lower msg)) fallback_terms = true.
Proof.
  intros Hin Hlower Hembeds. apply existsb_exists. exists term.
  split; [done|]. apply str_contains_embeds. rewrite <- Hlower.
  by apply lower_embeds.
Qed.

Lemma status_message_cosmic (cfg : PythonConfig) (r : Response) :
  mystical_theme cfg = true ->
  embeds "cosmic energies" (status_message str_of_container cfg r).
Proof.
  intros Htheme. unfold status_message. rewrite Htheme.
  set (code := str_of_int (status_code r)).
  assert (Hbase : embeds "cosmic energies"
    ("🌙 The cosmic energies have disrupted the connection (Status: "
     +:+ code +:+ ")")).
  { exists "🌙 The ",
      (" have disrupted the connection (Status: " +:+ code +:+ ")").
    reflexivity. }
  destruct (json r) as [body|]; [|exact Hbase].
  destruct (py_get body "message" (PStr "")) as [detail|]; [|exact Hbase].
  destruct (truthy detail); [by apply embeds_app_l | exact Hbase].
Qed.

(** What the request of [consult_oracle] comes to when the first answer
    is an error status. *)
Lemma request_refused (method endpoint : string)
    (kwargs : list (string * pyval)) (a : api) (answer : Response) :
  let req := prepared (config (core a)) method endpoint kwargs in
  0 <= max_retries (config (core a)) ->
  server (core a) (length (sent (core a))) req = Responded answer ->
  400 <= status_code answer ->
  request str_of_container method endpoint kwargs a
  = (Raise (MysticalAPIError
              (status_message str_of_container (config (core a)) answer)),
     set_core {| config := config (core a); server := server (core a);
                 sent := sent (core a) ++ [req]; slept := slept (core a) |}
       a).
Proof.
  intros req Hretries Hanswer Hstatus. rewrite request_run.
  unfold _make_request. fold req.
  destruct (Z.to_nat (max_retries (config (core a)) + 1)) as [|n] eqn:Hn;
    [lia|].
  cbn [attempt_loop session_request]. rewrite Hanswer.
  by destruct (Z.leb_spec 400 (status_code answer)); [|lia].
Qed.

(** X22: with the mystical theme on, every error status is taken for an
    exhausted limit.  When the first answer to [consult_oracle] has a
    status of 400 or more and the theme is on (or, whatever the theme, the
    status is 429), the call returns the fallback response instead of
    raising: its text is the fixed one, its identifier is built from the
    clock, one line is printed, and the request is not repeated. *)
Theorem consult_oracle_meditates (query : string) (context : option string)
    (a : api) (answer : Response) :
  let req :=
    prepared (config (core a)) "POST" "/oracle/consult"
      [("json", PDict [("query", PStr query);
                       ("context", Bridge.py_option PStr context)])] in
  0 <= max_retries (config (core a)) ->
  server (core a) (length (sent (core a))) req = Responded answer ->
  400 <= status_code answer ->
  mystical_theme (config (core a)) = true \/ status_code answer = 429 ->
  exists a',
    consult_oracle str_of_container str_of_exception parse_OracleResponse
      query context a
    = (Ok {| response := fallback_text;
             consultationId :=
               "fallback_oracle_"
               +:+ str_of_int (time a (time_reads a) / usec_per_second) |},
       a')
    /\ sent (core a') = sent (core a) ++ [req]
    /\ slept (core a') = slept (core a)
    /\ length (printed a') = S (length (printed a))
    /\ time_reads a' = S (time_reads a).
Proof.
  intros req Hretries Hanswer Hstatus Hsign.
  assert (Hfound :
    existsb (fun t => str_contains t
                        (lower (status_message str_of_container
                                  (config (core a)) answer)))
      fallback_terms = true).
  { destruct Hsign as [Htheme|H429].
    - apply (fallback_found "cosmic energies");
        [repeat (first [left; reflexivity | right]) | reflexivity
        | by apply status_message_cosmic].
    - apply (fallback_found "429");
        [repeat (first [left; reflexivity | right]) | reflexivity |].
      pose proof (ApiClientFacts.status_message_embeds_status
                    str_of_container (config (core a)) answer) as Hcode.
      by rewrite H429 in Hcode. }
  unfold consult_oracle, try_except. unfold bind at 1.
  rewrite (request_refused _ _ _ a answer) by done.
  cbn [str_of_exn]. rewrite Hfound.
  unfold bind, print, time_time, ret. eexists. split; [reflexivity|].
  cbn. rewrite length_app. cbn. repeat split. lia.
Qed.

Lemma existsb_false_Forall {A} (f : A -> bool) (l : list A) :
  existsb f l = false -> Forall (fun x => f x = false) l.
Proof.
  induction l as [|x l IH]; cbn; [constructor|].
  intros [Hx Hl]%orb_false_iff. constructor; auto.
Qed.


End Facts.

(** *** Examples *)

Lemma entry_of_id_raises (v : pyval) (msg : string) :
  entry_of_id v <> Raise (MysticalAPIError msg).
Proof.
  destruct v as [| | | | | |d]; try done. unfold entry_of_id.
  by destruct (dict_lookup d "id") as [[]|].
Qed.

(** A new client has agreeing dictionaries, and keeps them through a
    call that stores an entry. *)
Lemma caches_stay_agreed_example :
  let a := answering default_config 200 (Ok (PDict [("id", PStr "e1")])) in
  caches_agree (snd (get_entry (fun _ => "") entry_of_id "e1" a)).
Proof.
  intros a.
  assert (Ha : caches_agree a).
  { unfold caches_agree. cbn. rewrite !dom_empty_L. reflexivity. }
  destruct (caches_stay_agreed (fun _ => "") exception_name entry_of_id
              oracle_of_dict a Ha) as (_ & _ & _ & Hentry & _).
  exact (Hentry "e1").
Defined.

(** An entry the server does not know: status 404 becomes [None]. *)
Lemma get_entry_absorbs_api_errors_example :
  let a := answering default_config 404 (Ok (PDict [])) in
  let run := get_entry (fun _ => "") entry_of_id "e1" a in
  fst run = Ok None /\ forall msg, fst run <> Raise (MysticalAPIError msg).
Proof.
  intros a run.
  assert (Hrun : get_entry (fun _ => "") entry_of_id "e1" a
                 = (fst run, snd run)) by apply surjective_pairing.
  split; [vm_compute; reflexivity|].
  exact (proj1 (get_entry_absorbs_api_errors (fun _ => "") entry_of_id "e1" a
                  (fst run) (snd run) Hrun entry_of_id_raises)).
Defined.

(** An answer without an identifier is rejected, cached, and rejected
    again from the cache. *)
Lemma get_entry_caches_unvalidated_example :
  let data := PDict [("name", PStr "no identifier")] in
  let a := answering default_config 200 (Ok data) in
  exists a1 r a2,
    get_entry (fun _ => "") entry_of_id "e1" a = (Raise ValidationError, a1)
    /\ _cache a1 !! ("entry_" +:+ "e1") = Some data
    /\ get_entry (fun _ => "") entry_of_id "e1" a1 = (r, a2)
    /\ r = Raise ValidationError /\ sent (core a2) = sent (core a1).
Proof.
  intros data a.
  apply (get_entry_caches_unvalidated (fun _ => "") entry_of_id "e1" a
           {| status_code := 200; json := Ok data |} data ValidationError
           (snd (_make_request (fun _ => "") "GET"
                   ("/codex/entries/" +:+ "e1") [] (core a))));
    first [reflexivity | discriminate].
Defined.

(** An empty object for an answer is stored and never used: the second
    call asks the server again. *)
Lemma get_entry_empty_answer_example :
  let a := answering default_config 200 (Ok (PDict [])) in
  let a1 := snd (get_entry (fun _ => "") entry_of_id "e1" a) in
  let a2 := snd (get_entry (fun _ => "") entry_of_id "e1" a1) in
  _cache a1 !! ("entry_" +:+ "e1") = Some (PDict [])
  /\ length (sent (core a1)) = 1%nat
  /\ length (sent (core a2)) = 2%nat.
Proof. repeat split; vm_compute; reflexivity. Qed.

(** A server with no entries is asked on every call. *)
Lemma get_all_entries_cache_use_example :
  let a := answering default_config 200 (Ok (PList [])) in
  exists v a1 r a',
    _get_cached "all_entries" a = (Ok v, a1)
    /\ get_all_entries (fun _ => "") entry_of_id a = (r, a')
    /\ if truthy v then r = parse_all entry_of_id v /\ a' = a1
       else (length (sent (core a)) < length (sent (core a')))%nat.
Proof.
  intros a.
  apply (get_all_entries_cache_use (fun _ => "") entry_of_id a).
  vm_compute. discriminate.
Defined.

(** A server error under the mystical theme: the oracle "meditates". *)
Lemma consult_oracle_meditates_example :
  let a := answering default_config 500 (Ok (PDict [])) in
  exists a',
    consult_oracle (fun _ => "") exception_name oracle_of_dict
      "What is hidden?" None a
    = (Ok {| response := fallback_text;
             consultationId := "fallback_oracle_" +:+ str_of_int 0 |}, a')
    /\ length (sent (core a')) = 1%nat.
Proof.
  intros a.
  destruct (consult_oracle_meditates (fun _ => "") exception_name
              oracle_of_dict "What is hidden?" None a
              {| status_code := 500; json := Ok (PDict []) |})
    as (a' & Hrun & Hsent & _).
  - vm_compute. discriminate.
  - reflexivity.
  - vm_compute. discriminate.
  - left. reflexivity.
  - exists a'. split; [exact Hrun|]. by rewrite Hsent.
Defined.


End ApiMethodsFacts.

(** ** The message loop *)

Module DaemonFacts.
Import Bridge Daemon BridgeFacts.

Section Facts.
Context {R : Type} `{Client R}.
Variable str_of_container : pyval -> string.
Implicit Types (w : @bridge R) (s : @station R).

(** *** Steps of the bridge and the queue *)

Lemma adds_weaken {A} (n n' : nat) (types types' : list string) (m : @M R A) :
  adds_at_most n types m -> (n <= n')%nat -> incl types types' ->
  adds_at_most n' types' m.
Proof.
  intros Hm Hn Htypes w r w' Hrun.
  destruct (Hm w r w' Hrun) as (added & Hq & Hlen & Hall).
  exists added. split; [done|]. split; [lia|].
  eapply Forall_impl; [exact Hall|]. intros msg Hin. by apply Htypes.
Qed.

Lemma adds_nothing {A} (m : @M R A) :
  (forall w, message_queue (snd (m w)) = message_queue w) ->
  adds_at_most 0 [] m.
Proof.
  intros Hm w r w' Hrun. exists []. specialize (Hm w). rewrite Hrun in Hm.
  cbn in Hm. rewrite app_nil_r. by repeat split.
Qed.

Lemma adds_bind {A B} (n1 n2 : nat) (types : list string)
    (m : @M R A) (k : A -> @M R B) :
  adds_at_most n1 types m -> (forall x, adds_at_most n2 types (k x)) ->
  adds_at_most (n1 + n2) types (bind m k).
Proof.
  intros Hm Hk w r w'. unfold bind.
  destruct (m w) as [[x|e] w1] eqn:Hrun;
    apply Hm in Hrun as (added & Hq & Hlen & Hall).
  - intros Hrest. apply Hk in Hrest as (added' & Hq' & Hlen' & Hall').
    exists (added ++ added'). rewrite Hq', Hq, <- app_assoc, length_app.
    split; [done|]. split; [lia|]. by apply Forall_app.
  - intros [= <- <-]. exists added. split; [done|]. split; [lia|done].
Qed.

Lemma adds_try {A} (n1 n2 : nat) (types : list string)
    (body : @M R A) (handle : exn -> @M R A) :
  adds_at_most n1 types body -> (forall e, adds_at_most n2 types (handle e)) ->
  adds_at_most (n1 + n2) types (try_except body handle).
Proof.
  intros Hbody Hhandle w r w'. unfold try_except.
  destruct (body w) as [[x|e] w1] eqn:Hrun;
    apply Hbody in Hrun as (added & Hq & Hlen & Hall).
  - intros [= <- <-]. exists added. split; [done|]. split; [lia|done].
  - intros Hrest. apply Hhandle in Hrest as (added' & Hq' & Hlen' & Hall').
    exists (added ++ added'). rewrite Hq', Hq, <- app_assoc, length_app.
    split; [done|]. split; [lia|]. by apply Forall_app.
Qed.

Lemma still_bind {A B} (m : @M R A) (k : A -> @M R B) :
  adds_at_most 0 [] m -> (forall x, adds_at_most 0 [] (k x)) ->
  adds_at_most 0 [] (bind m k).
Proof. apply (adds_bind 0 0). Qed.

Lemma still_try {A} (body : @M R A) (handle : exn -> @M R A) :
  adds_at_most 0 [] body -> (forall e, adds_at_most 0 [] (handle e)) ->
  adds_at_most 0 [] (try_except body handle).
Proof. apply (adds_try 0 0). Qed.

Lemma still_for_each {A} (items : list A) (body : A -> @M R unit) :
  (forall x, adds_at_most 0 [] (body x)) ->
  adds_at_most 0 [] (for_each items body).
Proof.
  intros Hbody. induction items as [|x items IH]; cbn [for_each].
  - by apply adds_nothing.
  - by apply still_bind.
Qed.

Lemma still_remote {A} (c : remote_call) (call : R -> result A * R) :
  adds_at_most 0 [] (remote c call).
Proof.
  apply adds_nothing. intros w. unfold remote.
  by destruct (call (client w)).
Qed.

Lemma still_save : adds_at_most (R:=R) 0 [] _save_shared_state.
Proof.
  apply adds_nothing. intros w. rewrite save_run. cbn [snd].
  by destruct (saved_keeps w) as (_ & -> & _).
Qed.

Lemma adds_emit (event_type : string) (payload : pyval) :
  adds_at_most (R:=R) 1 [event_type] (emit_event event_type payload).
Proof.
  intros w r w'. rewrite emit_event_run. intros [= <- <-].
  eexists [_]. split; [reflexivity|]. split; [done|].
  constructor; [by left|constructor].
Qed.

Ltac still :=
  repeat first
    [ apply still_save
    | apply still_remote
    | apply still_bind; [|intros ?]
    | apply still_try; [|intros ?]
    | apply still_for_each; intros ?
    | match goal with
      | |- adds_at_most 0 [] (if ?c then _ else _) => destruct c
      | |- adds_at_most 0 [] (match ?c with _ => _ end) => destruct c
      end
    | (apply adds_nothing; intros ?; reflexivity) ].

Lemma adds_import (annotations_data : pyval) :
  adds_at_most 1 ["annotations_imported"]
    (import_python_annotations annotations_data).
Proof.
  intros w r w'. unfold import_python_annotations.
  destruct (py_iter annotations_data) as [items|e].
  - destruct (import_loop items [] w) as [[ids r0] w1] eqn:Hloop.
    apply import_loop_run in Hloop as (new & x & es & -> & -> & _).
    destruct r0 as [[]|e].
    + unfold bind. rewrite emit_event_run. unfold log, modify.
      intros [= <- <-]. eexists [_]. cbn. rewrite app_nil_r.
      split; [reflexivity|]. split; [done|].
      constructor; [by left|constructor].
    + intros [= <- <-]. exists []. cbn. rewrite ?app_nil_r.
      split; [done|]. split; [lia|constructor].
  - intros [= <- <-]. exists []. cbn. rewrite ?app_nil_r.
    split; [done|]. split; [lia|constructor].
Qed.

Lemma adds_more {A} (n : nat) (types : list string) (m : @M R A) :
  adds_at_most 0 [] m -> adds_at_most n types m.
Proof. intros Hm. eapply adds_weaken; [exact Hm|lia|intros ? []]. Qed.

Lemma adds_types {A} (n : nat) (types types' : list string) (m : @M R A) :
  adds_at_most n types m -> incl types types' -> adds_at_most n types' m.
Proof. intros Hm Htypes. eapply adds_weaken; [exact Hm|lia|done]. Qed.

Lemma adds_after {A B} (n : nat) (types : list string)
    (m : @M R A) (k : A -> @M R B) :
  adds_at_most 0 [] m -> (forall x, adds_at_most n types (k x)) ->
  adds_at_most n types (bind m k).
Proof. intros Hm Hk. apply (adds_bind 0 n); [by apply adds_more|done]. Qed.

Lemma adds_before {A B} (n : nat) (types : list string)
    (m : @M R A) (k : A -> @M R B) :
  adds_at_most n types m -> (forall x, adds_at_most 0 [] (k x)) ->
  adds_at_most n types (bind m k).
Proof.
  intros Hm Hk. eapply adds_weaken; [apply (adds_bind n 0)| |];
    [exact Hm|intros x; by apply adds_more|lia|apply incl_refl].
Qed.

Lemma adds_guarded {A} (n : nat) (types : list string)
    (body : @M R A) (handle : exn -> @M R A) :
  adds_at_most n types body -> (forall e, adds_at_most 0 [] (handle e)) ->
  adds_at_most n types (try_except body handle).
Proof.
  intros Hm Hk. eapply adds_weaken; [apply (adds_try n 0)| |];
    [exact Hm|intros x; by apply adds_more|lia|apply incl_refl].
Qed.

Lemma adds_sync (python_data : pyval) :
  adds_at_most 2 ["annotations_imported"; "python_data_synced"]
    (sync_python_data_to_react python_data).
Proof.
  unfold sync_python_data_to_react.
  apply adds_guarded; [|intros e; still].
  apply adds_after; [unfold when_present; still; unfold sync_bookmark; still|].
  intros _. apply (adds_bind 1 1).
  - unfold when_present. apply adds_after; [still|]. intros [].
    + apply adds_after; [still|]. intros annotations.
      apply adds_before; [|intros ?; still].
      eapply adds_types; [apply adds_import|]. intros ? [<-|[]]. by left.
    + apply adds_more. still.
  - intros _.
    apply adds_after;
      [unfold when_present; still; unfold sync_collection; still|].
    intros _.
    repeat (apply adds_after; [solve [still]|intros ?]).
    apply adds_before; [|intros ?; still].
    eapply adds_types; [apply adds_emit|]. intros ? [<-|[]]. right. by left.
Qed.

Lemma adds_export (id : string) :
  adds_at_most 1 ["collection_exported"] (export_collection_for_python id).
Proof.
  unfold export_collection_for_python, cache_store.
  apply adds_guarded; [|intros e; still].
  apply adds_after; [still|]. intros collections.
  destruct (find _ collections) as [target|]; [|apply adds_more; still].
  repeat (apply adds_after; [solve [still]|intros ?]).
  apply adds_before; [|intros ?; still]. apply adds_emit.
Qed.

Lemma adds_export_by_value (collection_id : pyval) :
  adds_at_most 1 ["collection_exported"]
    (export_by_value str_of_container collection_id).
Proof.
  destruct collection_id; try apply adds_export;
    apply adds_more; unfold export_by_value; still.
Qed.

(** *** The loop *)

Lemma on_bridge_run {A} (n : nat) (types : list string) (m : @M R A) s :
  adds_at_most n types m ->
  (forall t, In t types -> handled t = false) ->
  exists r w' added,
    on_bridge m s = (r, {| bridge_of := w'; journal := journal s |})
    /\ message_queue w' = message_queue (bridge_of s) ++ added
    /\ (length added <= n)%nat
    /\ Forall (fun msg => handled (message_type msg) = false) added.
Proof.
  intros Hm Htypes. unfold on_bridge.
  destruct (m (bridge_of s)) as [r w'] eqn:Hrun.
  apply Hm in Hrun as (added & Hq & Hlen & Hall).
  exists r, w', added. repeat split; try done.
  eapply Forall_impl; [exact Hall|]. intros msg Hin. by apply Htypes.
Qed.

(** What a handler of the loop comes to: the journal gains lines of the
    handler only, the queue gains at most two messages, none of a type the
    loop acts on. *)
Lemma handlers_run (message : BridgeMessage) s :
  forall handler,
    handler = _handle_data_request str_of_container message
    \/ handler = _handle_data_sync message
    \/ handler = _handle_status_update message ->
    exists r s' added,
      handler s = (r, s')
      /\ message_queue (bridge_of s')
         = message_queue (bridge_of s) ++ added
      /\ (length added <= 2)%nat
      /\ Forall (fun msg => handled (message_type msg) = false) added
      /\ processed (journal s') = processed (journal s).
Proof.
  assert (Hnone : forall (r : result unit),
    exists r0 s' added,
      (r, s) = (r0, s')
      /\ message_queue (bridge_of s') = message_queue (bridge_of s) ++ added
      /\ (length added <= 2)%nat
      /\ Forall (fun msg => handled (message_type msg) = false) added
      /\ processed (journal s') = processed (journal s)).
  { intros r. exists r, s, []. rewrite app_nil_r. repeat split; try done.
    cbn. lia. }
  intros handler [->|[->| ->]].
  - unfold _handle_data_request, next, compute, pure.
    destruct (py_get (payload message) "request_type" PNone)
      as [request_type|e]; [|apply Hnone].
    destruct (eq_str "export_collection" request_type); [|apply Hnone].
    destruct (py_get (payload message) "collection_id" PNone)
      as [collection_id|e]; [|apply Hnone].
    destruct (truthy collection_id); [|apply Hnone].
    destruct (on_bridge_run 1 ["collection_exported"]
                (export_by_value str_of_container collection_id) s
                (adds_export_by_value collection_id))
      as (r & w' & added & -> & Hq & Hlen & Hall).
    { by intros t [<-|[]]. }
    destruct r as [v|e]; eexists _, _, added;
      (split; [reflexivity|]); cbn; repeat split; try done; try lia.
    unfold processed. rewrite flat_map_app. cbn. by rewrite app_nil_r.
  - unfold _handle_data_sync, next, compute, pure.
    destruct (py_contains "python_data" (payload message))
      as [[]|e]; try apply Hnone.
    destruct (py_getitem (payload message) "python_data")
      as [python_data|e]; [|apply Hnone].
    destruct (on_bridge_run 2 ["annotations_imported"; "python_data_synced"]
                (sync_python_data_to_react python_data) s
                (adds_sync python_data))
      as (r & w' & added & -> & Hq & Hlen & Hall).
    { by intros t [<-|[<-|[]]]. }
    destruct r as [[]|e]; eexists _, _, added;
      (split; [reflexivity|]); cbn; repeat split; try done;
      unfold processed; rewrite flat_map_app; cbn; by rewrite app_nil_r.
  - unfold _handle_status_update, next, compute, note_down.
    destruct (py_get (payload message) "status" (PStr "unknown"))
      as [status|e]; [|apply Hnone].
    eexists _, _, []. split; [reflexivity|]. cbn. rewrite app_nil_r.
    repeat split; try done; try lia.
    unfold processed. rewrite flat_map_app. cbn. by rewrite app_nil_r.
Qed.

(** What processing one message comes to. *)
Lemma process_run (message : BridgeMessage) s :
  exists s' added,
    _process_bridge_message str_of_container message s = (Ok tt, s')
    /\ message_queue (bridge_of s') = message_queue (bridge_of s) ++ added
    /\ (length added
        <= if handled (message_type message) then 2 else 0)%nat
    /\ Forall (fun msg => handled (message_type msg) = false) added
    /\ processed (journal s')
       = processed (journal s) ++ [message_type message]
    /\ (handled (message_type message) = false ->
        bridge_of s' = bridge_of s
        /\ journal s'
           = journal s
             ++ [(Debug, Note_processing (message_type message)
                           (source message));
                 (Warning, Note_unknown_type (message_type message))]).
Proof.
  unfold _process_bridge_message, guarded. unfold next at 1.
  unfold note_down at 1. cbv beta iota.
  set (s1 := {| bridge_of := bridge_of s;
                journal := journal s
                           ++ [(Debug, Note_processing (message_type message)
                                         (source message))] |}).
  assert (Hs1 : processed (journal s1)
                = processed (journal s) ++ [message_type message]).
  { unfold processed. cbn. by rewrite flat_map_app. }
  assert (Hacts : forall handler,
    handler = _handle_data_request str_of_container message
    \/ handler = _handle_data_sync message
    \/ handler = _handle_status_update message ->
    handled (message_type message) = true ->
    exists s' added,
      match handler s1 with
      | (Ok x, s') => (Ok x, s')
      | (Raise e, s') => note_down Error (Note_processing_error e) s'
      end = (Ok tt, s')
      /\ message_queue (bridge_of s')
         = message_queue (bridge_of s) ++ added
      /\ (length added
          <= if handled (message_type message) then 2 else 0)%nat
      /\ Forall (fun msg => handled (message_type msg) = false) added
      /\ processed (journal s')
         = processed (journal s) ++ [message_type message]
      /\ (handled (message_type message) = false ->
          bridge_of s' = bridge_of s
          /\ journal s'
             = journal s
               ++ [(Debug, Note_processing (message_type message)
                             (source message));
                   (Warning, Note_unknown_type (message_type message))])).
  { intros handler Hhandler Htype.
    destruct (handlers_run message s1 handler Hhandler)
      as (r & s2 & added & -> & Hq & Hlen & Hall & Hj).
    rewrite Htype. rewrite Hs1 in Hj.
    destruct r as [[]|e]; eexists _, added; (split; [reflexivity|]);
      cbn; repeat split; try done.
    unfold processed in *. rewrite flat_map_app, Hj. cbn.
    by rewrite app_nil_r. }
  destruct (String.eqb_spec (message_type message) "data_request") as [Ht|Ht1].
  { apply Hacts; [auto|]. by rewrite Ht. }
  destruct (String.eqb_spec (message_type message) "data_sync") as [Ht|Ht2].
  { apply Hacts; [auto|]. by rewrite Ht. }
  destruct (String.eqb_spec (message_type message) "status_update")
    as [Ht|Ht3].
  { apply Hacts; [auto|]. by rewrite Ht. }
  assert (Htype : handled (message_type message) = false).
  { unfold handled.
    by rewrite (proj2 (String.eqb_neq _ _) Ht1),
      (proj2 (String.eqb_neq _ _) Ht2), (proj2 (String.eqb_neq _ _) Ht3). }
  rewrite Htype. unfold note_down. eexists _, []. split; [reflexivity|].
  cbn. rewrite app_nil_r, <- app_assoc. repeat split; try done.
  unfold processed. by rewrite flat_map_app.
Qed.

(** What the handlers do with the message, by its type and payload. *)
Lemma process_acts (message : BridgeMessage) s :
  let s' := snd (_process_bridge_message str_of_container message s) in
  let opening :=
    (Debug, Note_processing (message_type message) (source message)) in
  (message_type message = "status_update" ->
   forall d, payload message = PDict d ->
     bridge_of s' = bridge_of s
     /\ journal s'
        = journal s
          ++ [opening;
              (Info, Note_status_update (source message)
                       (dict_get d "status" (PStr "unknown")))])
  /\ (message_type message = "data_sync" ->
      forall d, payload message = PDict d ->
        match dict_lookup d "python_data" with
        | Some python_data =>
            exists success : bool,
              sync_python_data_to_react python_data (bridge_of s)
              = (Ok success, bridge_of s')
              /\ journal s'
                 = journal s
                   ++ [opening;
                       if success then (Info, Note_data_synced)
                       else (Error, Note_data_sync_failed)]
        | None =>
            bridge_of s' = bridge_of s /\ journal s' = journal s ++ [opening]
        end)
  /\ (message_type message = "data_request" ->
      forall d, payload message = PDict d ->
        let collection_id := dict_get d "collection_id" PNone in
        if eq_str "export_collection" (dict_get d "request_type" PNone)
           && truthy collection_id
        then
          exists r,
            export_by_value str_of_container collection_id (bridge_of s)
            = (r, bridge_of s')
            /\ journal s'
               = journal s
                 ++ [opening;
                     match r with
                     | Ok _ => (Info, Note_collection_exported collection_id)
                     | Raise e => (Error, Note_processing_error e)
                     end]
        else
          bridge_of s' = bridge_of s /\ journal s' = journal s ++ [opening])
  /\ ((forall d, payload message <> PDict d) ->
      bridge_of s' = bridge_of s).
Proof.
  intros s' opening. subst s' opening.
  unfold _process_bridge_message, guarded. unfold next at 1.
  unfold note_down at 1. cbv beta iota.
  split; [|split; [|split]].
  - intros -> d Hd. cbn.
    unfold _handle_status_update, next, compute, note_down. rewrite Hd. cbn.
    by rewrite <- app_assoc.
  - intros -> d Hd. cbn.
    unfold _handle_data_sync, next, compute, pure, on_bridge, note_down.
    rewrite Hd. cbn.
    destruct (dict_lookup d "python_data") as [python_data|]; cbn;
      [|done].
    destruct (sync_run python_data (bridge_of s))
      as (success & w' & _ & _ & -> & _).
    exists success. destruct success; cbn; by rewrite <- app_assoc.
  - intros -> d Hd. cbn.
    unfold _handle_data_request, next, compute, pure, on_bridge, note_down.
    rewrite Hd. cbn.
    destruct (eq_str "export_collection" (dict_get d "request_type" PNone));
      cbn; [|done].
    destruct (truthy (dict_get d "collection_id" PNone)); cbn; [|done].
    destruct (export_by_value str_of_container _ (bridge_of s))
      as [[v|e] w'] eqn:Hexport; cbn;
      eexists; (split; [reflexivity|]); cbn; by rewrite <- app_assoc.
  - intros Hpayload.
    unfold _handle_data_request, _handle_data_sync, _handle_status_update,
      next, compute, pure, note_down.
    destruct (payload message) as [| | |text| |l|d]; cbn;
      try (by edestruct Hpayload);
      repeat (destruct (String.eqb (message_type message) _); cbn; try done).
    + by destruct (str_contains "python_data" text).
    + by destruct (existsb (eq_str "python_data") l).
Qed.

(** X24: [_process_bridge_message] never raises.  It logs the message,
    then acts on it by its type.  A status update adds one line to the
    log, with the status of the payload or ['unknown'].  A
    synchronisation request whose payload has ['python_data'] runs
    [sync_python_data_to_react] on it and logs by its result; without
    ['python_data'] nothing is done.  A data request runs the export of
    the collection named in the payload when the request type is
    ['export_collection'] and the identifier counts as true, and logs that
    it did or, the export having raised, the error; any other data request
    does nothing.  A payload that is no dictionary leaves the bridge as it
    is.  Whatever the handler does or raises, the queue only grows, by at
    most two messages, and none of those is of a type the loop acts on.  A
    message of any other type, which includes every event the bridge
    itself emits, changes nothing of the bridge and is answered by a
    warning. *)
Theorem process_message_outcome (message : BridgeMessage) s :
  let opening :=
    (Debug, Note_processing (message_type message) (source message)) in
  exists s' added,
    _process_bridge_message str_of_container message s = (Ok tt, s')
    /\ message_queue (bridge_of s') = message_queue (bridge_of s) ++ added
    /\ (length added
        <= if handled (message_type message) then 2 else 0)%nat
    /\ Forall (fun msg => handled (message_type msg) = false) added
    /\ processed (journal s')
       = processed (journal s) ++ [message_type message]
    /\ (handled (message_type message) = false ->
        bridge_of s' = bridge_of s
        /\ journal s'
           = journal s
             ++ [opening;
                 (Warning, Note_unknown_type (message_type message))])
    /\ (message_type message = "status_update" ->
        forall d, payload message = PDict d ->
          bridge_of s' = bridge_of s
          /\ journal s'
             = journal s
               ++ [opening;
                   (Info, Note_status_update (source message)
                            (dict_get d "status" (PStr "unknown")))])
    /\ (message_type message = "data_sync" ->
        forall d, payload message = PDict d ->
          match dict_lookup d "python_data" with
          | Some python_data =>
              exists success : bool,
                sync_python_data_to_react python_data (bridge_of s)
                = (Ok success, bridge_of s')
                /\ journal s'
                   = journal s
                     ++ [opening;
                         if success then (Info, Note_data_synced)
                         else (Error, Note_data_sync_failed)]
          | None =>
              bridge_of s' = bridge_of s
              /\ journal s' = journal s ++ [opening]
          end)
    /\ (message_type message = "data_request" ->
        forall d, payload message = PDict d ->
          let collection_id := dict_get d "collection_id" PNone in
          if eq_str "export_collection" (dict_get d "request_type" PNone)
             && truthy collection_id
          then
            exists r,
              export_by_value str_of_container collection_id (bridge_of s)
              = (r, bridge_of s')
              /\ journal s'
                 = journal s
                   ++ [opening;
                       match r with
                       | Ok _ =>
                           (Info, Note_collection_exported collection_id)
                       | Raise e => (Error, Note_processing_error e)
                       end]
          else
            bridge_of s' = bridge_of s
            /\ journal s' = journal s ++ [opening])
    /\ ((forall d, payload message <> PDict d) ->
        bridge_of s' = bridge_of s).
Proof.
  intros opening. subst opening.
  destruct (process_run message s)
    as (s' & added & Hrun & Hqueue & Hlen & Htypes & Hprocessed & Hother).
  pose proof (process_acts message s) as Hacts.
  rewrite Hrun in Hacts. cbn [snd] in Hacts.
  exists s', added. repeat (split; [assumption|]).
  exact Hacts.
Qed.

Lemma weight_app (q q' : list BridgeMessage) :
  weight (q ++ q') = (weight q + weight q')%nat.
Proof.
  induction q as [|m q IH]; [done|]. cbn [app weight fold_right] in *.
  fold (weight (q ++ q')). fold (weight q). rewrite IH. lia.
Qed.

Lemma weight_unhandled (q : list BridgeMessage) :
  Forall (fun msg => handled (message_type msg) = false) q ->
  weight q = length q.
Proof.
  induction 1 as [|m q Hm _ IH]; [done|]. cbn [weight fold_right length].
  fold (weight q). rewrite Hm, IH. lia.
Qed.

(** What a run of the queue loop comes to, given fuel for the messages
    queued and for those their handling adds. *)
Lemma drain_run (fuel : nat) :
  forall s,
    (weight (message_queue (bridge_of s)) <= fuel)%nat ->
    exists s' later,
      drain str_of_container fuel s = (Ok tt, s')
      /\ message_queue (bridge_of s') = []
      /\ processed (journal s')
         = processed (journal s)
           ++ map message_type (message_queue (bridge_of s)) ++ later
      /\ Forall (fun type => handled type = false) later
      /\ (length (message_queue (bridge_of s)) + length later
          <= weight (message_queue (bridge_of s)))%nat.
Proof.
  induction fuel as [|fuel IH]; intros s Hweight.
  - destruct (message_queue (bridge_of s)) as [|first rest] eqn:Hq.
    + exists s, []. cbn [drain pure map app length].
      rewrite ?app_nil_r. by repeat split.
    + cbn in Hweight. destruct (handled (message_type first)); lia.
  - cbn [drain].
    destruct (message_queue (bridge_of s)) as [|first rest] eqn:Hq.
    + exists s, []. cbn [pure map app length].
      rewrite ?app_nil_r. by repeat split.
    + unfold next at 1. unfold queue_get, on_bridge, bind, modify, ret.
      cbv beta iota.
      set (s1 := {| bridge_of := set_message_queue rest (bridge_of s);
                    journal := journal s |}).
      unfold next.
      destruct (process_run first s1)
        as (s2 & added & -> & Hq2 & Hlen & Hall & Hj & _).
      cbn [bridge_of journal s1 message_queue set_message_queue] in Hq2, Hj.
      cbn [weight fold_right] in *. fold (weight rest) in *.
      pose proof (weight_unhandled added Hall) as Hadded.
      destruct (IH s2) as (s' & later & -> & Hempty & Hj' & Hlater & Hcount).
      { rewrite Hq2, weight_app, Hadded.
        destruct (handled (message_type first)); lia. }
      exists s', (map message_type added ++ later).
      split; [done|]. split; [done|]. split; [|split].
      * rewrite Hj', Hj, Hq2, map_app, <- !app_assoc. reflexivity.
      * apply Forall_app. split; [|done].
        apply Forall_map. exact Hall.
      * rewrite Hq2, length_app, weight_app, Hadded in Hcount.
        rewrite length_app, length_map. cbn [length].
        destruct (handled (message_type first)); lia.
Qed.

Lemma weight_bound (q : list BridgeMessage) :
  (weight q <= 3 * length q)%nat.
Proof.
  induction q as [|m q IH]; [done|]. cbn [weight fold_right length].
  fold (weight q). destruct (handled (message_type m)); lia.
Qed.

Lemma drain_more_fuel (fuel : nat) :
  forall s s' (extra : nat),
    drain str_of_container fuel s = (Ok tt, s') ->
    message_queue (bridge_of s') = [] ->
    drain str_of_container (fuel + extra) s = (Ok tt, s').
Proof.
  induction fuel as [|fuel IH]; intros s s' extra.
  - cbn [drain pure]. intros [= <-] Hempty.
    destruct extra as [|extra]; [done|]. cbn [Nat.add drain].
    by rewrite Hempty.
  - cbn [Nat.add drain].
    destruct (message_queue (bridge_of s)) as [|first rest]; [done|].
    unfold next at 1 3.
    destruct (queue_get first rest s) as [[message|e] s1]; [|done].
    unfold next.
    destruct (_process_bridge_message str_of_container message s1)
      as [[[]|e] s2]; [|done].
    apply IH.
Qed.

(** X25: the queue loop ends and never raises.  With fuel for three
    steps per queued message it leaves the queue empty: the messages that
    were queued are processed first, in the order in which they were
    queued, and after them the events that their handling made the bridge
    emit, none of which the loop acts on; of those there are at most two
    for each message that was queued. *)
Theorem drain_empties_queue (fuel : nat) s :
  (3 * length (message_queue (bridge_of s)) <= fuel)%nat ->
  exists s' later,
    drain str_of_container fuel s = (Ok tt, s')
    /\ message_queue (bridge_of s') = []
    /\ processed (journal s')
       = processed (journal s)
         ++ map message_type (message_queue (bridge_of s)) ++ later
    /\ Forall (fun type => handled type = false) later
    /\ (length later <= 2 * length (message_queue (bridge_of s)))%nat.
Proof.
  intros Hfuel.
  pose proof (weight_bound (message_queue (bridge_of s))) as Hweight.
  destruct (drain_run fuel s)
    as (s' & later & Hrun & Hempty & Hj & Hlater & Hcount); [lia|].
  exists s', later. repeat split; try done. lia.
Qed.

End Facts.

(** *** Examples *)

(** A synchronisation request and a status report are queued.  The loop
    handles both, then meets the two events the synchronisation emitted
    and answers each with a warning. *)
Lemma drain_two_messages :
  let run := drain (fun _ => "") 6 (waiting [sync_request; status_report]) in
  fst run = Ok tt
  /\ message_queue (bridge_of (snd run)) = []
  /\ processed (journal (snd run))
     = ["data_sync"; "status_update"; "annotations_imported";
        "python_data_synced"]
  /\ python_version (sync_state (bridge_of (snd run))) = PInt 1.
Proof. repeat split; vm_compute; reflexivity. Qed.

(** The same queue, through the general statement. *)
Lemma drain_empties_queue_example :
  let s := waiting [sync_request; status_report] in
  exists s' later,
    drain (fun _ => "") 6 s = (Ok tt, s')
    /\ message_queue (bridge_of s') = []
    /\ processed (journal s') = ["data_sync"; "status_update"] ++ later
    /\ (length later <= 4)%nat.
Proof.
  intros s.
  assert (Hfuel : (3 * length (message_queue (bridge_of s)) <= 6)%nat)
    by (cbn; lia).
  destruct (drain_empties_queue (fun _ => "") 6 s Hfuel)
    as (s' & later & Hrun & Hempty & Hj & _ & Hcount).
  exists s', later. split; [exact Hrun|]. split; [exact Hempty|].
  split; [exact Hj|exact Hcount].
Defined.

End DaemonFacts.

(** ** The export for analysis *)

Module AnalysisFacts.
Import Bridge Daemon Analysis BridgeFacts.

(** *** Counting *)

Lemma bump_lookup (counts : list (string * Z)) (key k : string) :
  dict_lookup (bump counts key) k
  = if String.eqb key k then Some (dict_get counts key 0 + 1)
    else dict_lookup counts k.
Proof. apply dict_lookup_set. Qed.

Lemma bump_get (counts : list (string * Z)) (key k : string) :
  dict_get (bump counts key) k 0
  = dict_get counts k 0 + (if String.eqb key k then 1 else 0).
Proof.
  unfold dict_get at 1. rewrite bump_lookup.
  destruct (String.eqb_spec key k) as [->|]; [done|].
  unfold dict_get. destruct (dict_lookup counts k); lia.
Qed.

Lemma dict_set_keys {V} (d : list (string * V)) (k : string) (v : V) :
  dict_keys (dict_set d k v)
  = if existsb (String.eqb k) (dict_keys d) then dict_keys d
    else dict_keys d ++ [k].
Proof.
  induction d as [|[k0 v0] d IH]; [done|]. cbn.
  rewrite (String.eqb_sym k k0).
  destruct (String.eqb_spec k0 k) as [->|]; cbn; [done|].
  unfold dict_keys in *. rewrite IH.
  by destruct (existsb (String.eqb k) (map fst d)).
Qed.

Lemma bump_keys (counts : list (string * Z)) (key : string) :
  (List.NoDup (dict_keys counts) -> List.NoDup (dict_keys (bump counts key)))
  /\ forall k, In k (dict_keys (bump counts key))
               <-> In k (dict_keys counts) \/ k = key.
Proof.
  unfold bump. rewrite dict_set_keys.
  destruct (existsb (String.eqb key) (dict_keys counts)) eqn:Hkey.
  - apply BridgeExtras.existsb_eqb_In in Hkey. split; [done|].
    intros k. intuition (subst; auto).
  - split.
    + intros Hnd. apply BridgeExtras.NoDup_snoc; [|done].
      intros Hin. apply BridgeExtras.existsb_eqb_In in Hin. congruence.
    + intros k. rewrite in_app_iff. cbn. intuition.
Qed.

Lemma fold_bump_get (terms : list string) :
  forall counts k,
    dict_get (fold_left bump terms counts) k 0
    = dict_get counts k 0
      + Z.of_nat (count_occ String.string_dec terms k).
Proof.
  induction terms as [|t terms IH]; intros counts k; cbn [fold_left count_occ].
  - lia.
  - rewrite IH, bump_get.
    destruct (String.string_dec t k) as [->|Hne];
      [rewrite String.eqb_refl|rewrite (proj2 (String.eqb_neq _ _) Hne)];
      lia.
Qed.

Lemma fold_bump_keys (terms : list string) :
  forall counts,
    (List.NoDup (dict_keys counts) ->
     List.NoDup (dict_keys (fold_left bump terms counts)))
    /\ forall k, In k (dict_keys (fold_left bump terms counts))
                 <-> In k (dict_keys counts) \/ In k terms.
Proof.
  induction terms as [|t terms IH]; intros counts; cbn [fold_left].
  - split; [done|]. intros k. cbn. tauto.
  - destruct (IH (bump counts t)) as [Hnd Hin].
    destruct (bump_keys counts t) as [Hnd' Hin'].
    split; [auto|]. intros k. rewrite Hin, Hin'. cbn. intuition.
Qed.

Lemma fold_bump_app (a b : list string) (counts : list (string * Z)) :
  fold_left bump (a ++ b) counts = fold_left bump b (fold_left bump a counts).
Proof. apply fold_left_app. Qed.

Lemma dict_lookup_In {V} (d : list (string * V)) (k : string) (v : V) :
  List.NoDup (dict_keys d) -> In (k, v) d -> dict_lookup d k = Some v.
Proof.
  induction d as [|[k0 v0] d IH]; [done|]. cbn.
  intros Hnd [[= -> ->]|Hin].
  - by rewrite String.eqb_refl.
  - inversion Hnd as [|? ? Hk0 Hrest]; subst.
    destruct (String.eqb_spec k0 k) as [->|]; [|by apply IH].
    exfalso. apply Hk0. unfold dict_keys. by apply (in_map fst) in Hin.
Qed.

(** *** Sorting by count *)

Lemma insert_desc_perm (x : string * Z) (l : list (string * Z)) :
  Permutation (insert_desc x l) (x :: l).
Proof.
  induction l as [|y l IH]; cbn [insert_desc]; [done|].
  destruct (snd y <? snd x); [done|].
  rewrite IH. apply perm_swap.
Qed.

Lemma sorted_desc_perm (l : list (string * Z)) : Permutation (sorted_desc l) l.
Proof.
  unfold sorted_desc.
  assert (Hacc : forall acc,
            Permutation (fold_left (fun acc x => insert_desc x acc) l acc)
              (acc ++ l)).
  { induction l as [|x l IH]; intros acc; cbn [fold_left].
    - by rewrite app_nil_r.
    - rewrite IH, insert_desc_perm. cbn [app]. apply Permutation_middle. }
  apply Hacc.
Qed.

Lemma insert_desc_sorted (x : string * Z) (l : list (string * Z)) :
  StronglySorted (fun a b => snd b <= snd a) l ->
  StronglySorted (fun a b => snd b <= snd a) (insert_desc x l).
Proof.
  induction 1 as [|y l Hl IH Hy]; cbn [insert_desc].
  - repeat constructor.
  - destruct (Z.ltb_spec (snd y) (snd x)).
    + constructor; [by constructor|].
      constructor; [lia|]. eapply Forall_impl; [exact Hy|].
      cbn. intros; lia.
    + constructor; [done|]. apply List.Forall_forall. intros z Hz.
      apply (Permutation_in _ (insert_desc_perm x l)) in Hz as [<-|Hz];
        [lia|].
      rewrite List.Forall_forall in Hy. by apply Hy.
Qed.

Lemma sorted_desc_sorted (l : list (string * Z)) :
  StronglySorted (fun a b => snd b <= snd a) (sorted_desc l).
Proof.
  unfold sorted_desc.
  assert (Hacc : forall acc,
            StronglySorted (fun a b => snd b <= snd a) acc ->
            StronglySorted (fun a b => snd b <= snd a)
              (fold_left (fun acc x => insert_desc x acc) l acc)).
  { induction l as [|x l IH]; intros acc Hsorted; cbn [fold_left]; [done|].
    by apply IH, insert_desc_sorted. }
  apply Hacc. constructor.
Qed.

Lemma firstn_sorted {A} (R : A -> A -> Prop) (n : nat) (l : list A) :
  StronglySorted R l -> StronglySorted R (firstn n l).
Proof.
  intros Hl. revert n. induction Hl as [|x l Hl IH Hx]; intros [|n]; cbn;
    try constructor; [apply IH|].
  apply List.Forall_forall. intros y Hy. rewrite List.Forall_forall in Hx.
  apply Hx. rewrite <- (firstn_skipn n l). apply in_or_app. by left.
Qed.

Lemma firstn_In {A} (n : nat) (l : list A) (x : A) :
  In x (firstn n l) -> In x l.
Proof.
  intros Hx. rewrite <- (firstn_skipn n l). apply in_or_app. by left.
Qed.

Lemma firstn_NoDup {A} (n : nat) (l : list A) :
  List.NoDup l -> List.NoDup (firstn n l).
Proof.
  intros Hl. revert n. induction Hl as [|x l Hx Hl IH]; intros [|n]; cbn;
    try constructor; [|apply IH].
  intros Hin. by apply Hx, (firstn_In n).
Qed.

(** What [firstn n] leaves out of a sorted list is no greater than
    anything it keeps, and it leaves something out only when it keeps
    [n]. *)
Lemma firstn_top {A} (R : A -> A -> Prop) (n : nat) (l : list A) (x : A) :
  StronglySorted R l -> In x l ->
  In x (firstn n l)
  \/ (length (firstn n l) = n /\ forall y, In y (firstn n l) -> R y x).
Proof.
  intros Hl. revert n. induction Hl as [|z l Hl IH Hz]; intros n Hx; [done|].
  destruct n as [|n]; [by right|]. cbn [firstn length].
  destruct Hx as [->|Hx]; [left; by left|].
  destruct (IH n Hx) as [Hin|[Hlen Htop]]; [left; by right|].
  right. split; [by rewrite Hlen|].
  intros y [<-|Hy]; [|by apply Htop].
  rewrite List.Forall_forall in Hz. by apply Hz.
Qed.

(** *** The loop over the entries *)

Lemma analyse_run (include_full_text include_bookmarks : bool)
    (entries : list CodexEntry) :
  forall acc a,
    analyse include_full_text include_bookmarks acc entries = Ok a ->
    length (entries_out a) = (length (entries_out acc) + length entries)%nat
    /\ length (text_corpus a)
       = (length (text_corpus acc)
          + if include_full_text then length entries else 0)%nat
    /\ total (dict_values (category_counts a))
       = total (dict_values (category_counts acc)) + Z.of_nat (length entries)
    /\ term_frequency a
       = fold_left bump (key_terms_of entries) (term_frequency acc)
    /\ Forall (fun e => processedDate e <> None) entries.
Proof.
  induction entries as [|entry entries IH]; intros acc a; cbn [analyse].
  - intros [= <-]. cbn. repeat split; try done; try lia.
    destruct include_full_text; lia.
  - destruct (analyse_entry _ _ acc entry) as [acc'|e] eqn:Hentry; [|done].
    intros Hrest. apply IH in Hrest as (He & Hc & Ht & Hf & Hd).
    unfold analyse_entry in Hentry.
    destruct (processedDate entry) as [date|] eqn:Hdate; [|done].
    destruct (key_chunks_of _ entry); [|done].
    destruct (bookmark_item _ entry); [|done].
    injection Hentry as <-.
    cbn [entries_out text_corpus category_counts term_frequency] in *.
    rewrite He, Hc, Ht, Hf. unfold bump at 1. rewrite histogram_bump.
    rewrite length_app. cbn [length key_terms_of flat_map].
    rewrite fold_bump_app.
    repeat split; try lia.
    + destruct include_full_text; rewrite ?length_app; cbn; lia.
    + constructor; [congruence|done].
Qed.

(** X27: the key term frequencies of an export for analysis.  They list
    at most fifty terms, no term twice, in the order of decreasing count;
    the count listed with a term is the number of times the term occurs
    among the key terms of the exported entries; and a term that occurs
    there but is not listed has a count no greater than any listed one,
    fifty terms being listed. *)
Theorem top_terms_spec (include_full_text include_bookmarks : bool)
    (entries : list CodexEntry) (a : analysis) :
  analyse include_full_text include_bookmarks empty_analysis entries = Ok a ->
  let occurrences term :=
    Z.of_nat (count_occ String.string_dec (key_terms_of entries) term) in
  let top := top_terms (term_frequency a) in
  (length top <= 50)%nat
  /\ StronglySorted (fun x y => snd y <= snd x) top
  /\ List.NoDup (map fst top)
  /\ (forall term n, In (term, n) top -> n = occurrences term /\ 0 < n)
  /\ (forall term,
        In term (key_terms_of entries) ->
        In term (map fst top)
        \/ (length top = 50%nat
            /\ forall x, In x top -> occurrences term <= snd x)).
Proof.
  intros Hanalyse occurrences top.
  apply analyse_run in Hanalyse as (_ & _ & _ & Hf & _).
  cbn [term_frequency empty_analysis] in Hf.
  destruct (fold_bump_keys (key_terms_of entries) []) as [Hnd Hkeys].
  rewrite <- Hf in Hnd, Hkeys. specialize (Hnd (List.NoDup_nil _)).
  assert (Hcount : forall term n,
            In (term, n) (term_frequency a) -> n = occurrences term).
  { intros term n Hin. apply dict_lookup_In in Hin; [|done].
    pose proof (fold_bump_get (key_terms_of entries) [] term) as Hget.
    rewrite <- Hf in Hget. unfold dict_get at 1 in Hget.
    rewrite Hin in Hget. cbn in Hget. subst occurrences. cbn. lia. }
  assert (Hlisted : forall x,
            In x (sorted_desc (term_frequency a))
            <-> In x (term_frequency a)).
  { intros x. split; apply Permutation_in;
      [|symmetry]; apply sorted_desc_perm. }
  subst top. unfold top_terms. split; [apply firstn_le_length|].
  split; [apply firstn_sorted, sorted_desc_sorted|]. split; [|split].
  - rewrite <- firstn_map. apply firstn_NoDup.
    eapply Permutation_NoDup; [|exact Hnd]. symmetry.
    apply Permutation_map, sorted_desc_perm.
  - intros term n Hin%firstn_In%Hlisted. split; [by apply Hcount|].
    rewrite (Hcount term n Hin). subst occurrences. cbn.
    assert (Hterm : In term (key_terms_of entries)).
    { assert (Hkey : In term (dict_keys (term_frequency a)))
        by (unfold dict_keys; by apply (in_map fst) in Hin).
      by apply Hkeys in Hkey as [[]|Ht]. }
    apply (count_occ_In String.string_dec) in Hterm. lia.
  - intros term Hterm.
    assert (Hkey : In term (dict_keys (term_frequency a)))
      by (apply Hkeys; by right).
    apply in_map_iff in Hkey as ([term' n] & [= ->] & Hin).
    pose proof (Hcount term n Hin) as ->.
    apply Hlisted in Hin.
    destruct (firstn_top (fun x y => snd y <= snd x) 50 _ _
                (sorted_desc_sorted _) Hin) as [Htop|[Hlen Htop]].
    + left. by apply (in_map fst) in Htop.
    + right. split; [done|]. intros x Hx. by apply Htop in Hx.
Qed.

(** X28: when the loop of the export for analysis fails.  It gets
    through exactly when every entry has a processing date, has key chunks
    unless the full text is included, and has a [bookmark] attribute unless
    bookmarks are left out. *)
Theorem analyse_succeeds_iff (include_full_text include_bookmarks : bool)
    (entries : list CodexEntry) (acc : analysis) :
  is_ok (analyse include_full_text include_bookmarks acc entries) = true
  <-> Forall (fun e =>
                processedDate e <> None
                /\ (include_full_text = false -> keyChunks e <> None)
                /\ (include_bookmarks = true -> bookmark e <> None))
        entries.
Proof.
  revert acc. induction entries as [|entry entries IH]; intros acc;
    cbn [analyse]; [by split|].
  assert (Hentry :
    is_ok (analyse_entry include_full_text include_bookmarks acc entry) = true
    <-> processedDate entry <> None
        /\ (include_full_text = false -> keyChunks entry <> None)
        /\ (include_bookmarks = true -> bookmark entry <> None)).
  { unfold analyse_entry, key_chunks_of, bookmark_item.
    destruct (processedDate entry), include_full_text, include_bookmarks,
      (keyChunks entry), (bookmark entry) as [[]|]; cbn;
      split; try done; try (intros (? & ? & ?)); try tauto; auto. }
  destruct (analyse_entry _ _ acc entry) as [acc'|e].
  - rewrite IH. split; [constructor; [by apply Hentry|done]|].
    intros Hall. by inversion Hall.
  - split; [done|]. intros Hall. inversion Hall as [|? ? Hfirst _]; subst.
    by apply Hentry in Hfirst.
Qed.

Section Entries.
Context {R : Type} `{Client R} `{EntryClient R}.
Implicit Types (s : @station R).

Lemma ask_run {A} (call : R -> result A * R) s :
  exists r x,
    ask call s
    = (r, {| bridge_of := set_client x (bridge_of s); journal := journal s |}).
Proof.
  unfold ask, on_bridge. destruct (call (client (bridge_of s))) as [r x].
  by exists r, x.
Qed.

Lemma fetch_run (entry_ids : list string) :
  forall (entries : list CodexEntry) s r s',
    fetch entry_ids entries s = (r, s') ->
    journal s' = journal s
    /\ match r with
       | Ok l =>
           exists found,
             l = entries ++ found
             /\ (length found <= length entry_ids)%nat
       | Raise _ => True
       end.
Proof.
  induction entry_ids as [|entry_id rest IH]; intros entries s r s';
    cbn [fetch].
  - intros [= <- <-]. split; [done|]. exists []. by rewrite app_nil_r.
  - unfold next at 1.
    destruct (ask_run (get_entry entry_id) s) as (r0 & x & ->).
    destruct r0 as [entry|e]; [|by intros [= <- <-]].
    intros Hrest. apply IH in Hrest as [Hj Hr]. split; [done|].
    destruct r as [l|]; [|done]. destruct Hr as (found & -> & Hlen).
    destruct entry as [e|].
    + exists (e :: found). rewrite <- app_assoc. cbn. split; [done|lia].
    + exists found. split; [done|]. cbn. lia.
Qed.

(** X26: what a successful export for analysis counts.  The number it
    reports as [total_entries] is the number of entries in the document and
    the sum of the category distribution; the text corpus has one item per
    entry when the full text is included and none otherwise.  Asked for
    given identifiers, it exports at most as many entries as identifiers:
    one that the client does not find is left out without a word.  Nothing
    is logged. *)
Theorem analysis_export_counts (entry_ids : option (list string))
    (include_full_text include_bookmarks : bool) s (doc : pyval) s' :
  export_entries_for_analysis entry_ids include_full_text include_bookmarks s
  = (Ok doc, s') ->
  exists (n : nat) meta items corpus distribution,
    py_getitem doc "analysis_metadata" = Ok meta
    /\ py_getitem meta "total_entries" = Ok (PInt (Z.of_nat n))
    /\ py_getitem doc "entries" = Ok (PList items)
    /\ length items = n
    /\ py_getitem doc "text_corpus" = Ok (PList corpus)
    /\ length corpus = (if include_full_text then n else 0%nat)
    /\ py_getitem doc "category_distribution" = Ok (PDict distribution)
    /\ sum_counts distribution = Some (Z.of_nat n)
    /\ journal s' = journal s
    /\ match entry_ids with
       | Some (entry_id :: rest) => (n <= length (entry_id :: rest))%nat
       | _ => True
       end.
Proof.
  unfold export_entries_for_analysis, guarded. unfold next at 1.
  match goal with |- context [match ?m s with _ => _ end] =>
    destruct (m s) as [[entries|e] s1] eqn:Hentries
  end; [|by unfold next, note_down, fail].
  assert (Hfetched : journal s1 = journal s
    /\ match entry_ids with
       | Some (entry_id :: rest) =>
           (length entries <= length (entry_id :: rest))%nat
       | _ => True
       end).
  { destruct entry_ids as [[|entry_id rest]|].
    - destruct (ask_run get_all_entries s) as (r & x & Hask).
      rewrite Hask in Hentries. by injection Hentries as _ <-.
    - by apply fetch_run in Hentries as [Hj (found & -> & Hlen)].
    - destruct (ask_run get_all_entries s) as (r & x & Hask).
      rewrite Hask in Hentries. by injection Hentries as _ <-. }
  destruct Hfetched as [Hj Hcount].
  unfold next, on_bridge, now, compute, pure. cbn [fst snd].
  destruct (analyse include_full_text include_bookmarks empty_analysis entries)
    as [a|e] eqn:Hanalyse; [|by unfold note_down, fail].
  intros [= <- <-].
  apply analyse_run in Hanalyse as (He & Hc & Ht & _).
  cbn [entries_out text_corpus category_counts empty_analysis length
       dict_values map total fold_right Nat.add] in He, Hc, Ht.
  exists (length entries). eexists _, _, _, _.
  split; [reflexivity|]. split; [reflexivity|].
  split; [reflexivity|]. split; [exact He|].
  split; [reflexivity|]. split; [exact Hc|].
  split; [reflexivity|]. split.
  { rewrite sum_counts_categories, Ht. f_equal; lia. }
  split; [exact Hj|exact Hcount].
Qed.

End Entries.

(** *** Examples *)

(** Two entries asked for, one of them unknown to the store: one entry is
    exported and nothing is said about the other. *)
Lemma analysis_export_counts_example :
  let store := {| shelved := [sample_entry "e1" "cosmogenesis" "the moon rises";
                              sample_entry "e2" "alchemy" "the tide turns"] |} in
  let s := {| bridge_of := blank default_config store FileAbsent true ticking;
              journal := [] |} in
  let run := export_entries_for_analysis (Some ["e1"; "e9"]) true true s in
  let doc := match fst run with Ok v => v | Raise _ => PNone end in
  exists meta,
    py_getitem doc "analysis_metadata" = Ok meta
    /\ py_getitem meta "total_entries" = Ok (PInt 1)
    /\ journal (snd run) = [].
Proof.
  intros store s run doc.
  assert (Hrun : export_entries_for_analysis (Some ["e1"; "e9"]) true true s
                 = (Ok doc, snd run)) by (vm_compute; reflexivity).
  destruct (analysis_export_counts _ _ _ _ _ _ Hrun)
    as (n & meta & items & corpus & distribution
        & Hmeta & _ & _ & _ & _ & _ & _ & _ & Hj & _).
  exists meta. split; [exact Hmeta|]. split; [|exact Hj].
  vm_compute in Hmeta. injection Hmeta as <-. reflexivity.
Defined.

(** The two sample entries share their key terms: each term is counted
    twice. *)
Lemma top_terms_spec_example :
  let entries := [sample_entry "e1" "cosmogenesis" "the moon rises";
                  sample_entry "e2" "alchemy" "the tide turns"] in
  let a := match analyse true true empty_analysis entries with
           | Ok a => a
           | Raise _ => empty_analysis
           end in
  top_terms (term_frequency a) = [("moon", 2); ("tide", 2)]
  /\ List.NoDup (map fst (top_terms (term_frequency a))).
Proof.
  intros entries a.
  assert (Hrun : analyse true true empty_analysis entries = Ok a)
    by reflexivity.
  split; [reflexivity|].
  exact (proj1 (proj2 (proj2 (top_terms_spec true true entries a Hrun)))).
Defined.

End AnalysisFacts.

(** ** The remote calls of a synchronisation *)

Module SendingFacts.
Import Bridge Sending BridgeFacts.

Section Facts.
Context {R : Type} `{Client R}.
Implicit Types (w : @bridge R) (es : list effect).

Lemma remote_calls_returned (calls : list remote_call) :
  remote_calls (returned_calls calls) = calls
  /\ failed_calls (returned_calls calls) = [].
Proof.
  induction calls as [|c calls [IH1 IH2]]; [done|]. cbn.
  unfold remote_calls, failed_calls, returned_calls in *.
  by rewrite IH1, IH2.
Qed.

Lemma sync_bookmark_run (bookmark_data : pyval) w w1 :
  sync_bookmark bookmark_data w = (Ok tt, w1) ->
  exists x c,
    bookmark_call bookmark_data = Some c
    /\ w1 = touch x [] 0 (returned_calls [c]) w.
Proof.
  unfold sync_bookmark, bookmark_call, bind, lift, remote, ret.
  destruct bookmark_data as [| | | | | |d]; try done. cbn.
  destruct (dict_lookup d "entryId") as [entry_id|]; [|done].
  destruct (create_bookmark _ _ _ (client w)) as [[b|e] x]; [|done].
  intros [= <-]. eexists x, _. split; [reflexivity|].
  rewrite record_touch. unfold touch, set_client. cbn.
  by rewrite Nat.add_0_r.
Qed.

Lemma sync_collection_run (collection_data : pyval) w w1 :
  sync_collection collection_data w = (Ok tt, w1) ->
  exists x c,
    collection_call collection_data = Some c
    /\ w1 = touch x [] 0 (returned_calls [c]) w.
Proof.
  unfold sync_collection, collection_call, bind, lift, remote, ret.
  destruct collection_data as [| | | | | |d]; try done. cbn.
  destruct (dict_lookup d "title") as [title|]; [|done].
  destruct (create_collection _ _ _ _ (client w)) as [[b|e] x]; [|done].
  intros [= <-]. eexists x, _. split; [reflexivity|].
  rewrite record_touch. unfold touch, set_client. cbn.
  by rewrite Nat.add_0_r.
Qed.

(** A loop whose every round makes one call that returns. *)
Lemma for_each_calls (body : pyval -> @M R unit)
    (call_of : pyval -> option remote_call) :
  (forall item w w1,
     body item w = (Ok tt, w1) ->
     exists x c,
       call_of item = Some c /\ w1 = touch x [] 0 (returned_calls [c]) w) ->
  forall items w w',
    for_each items body w = (Ok tt, w') ->
    exists x calls,
      w' = touch x [] 0 (returned_calls calls) w
      /\ map Some calls = map call_of items.
Proof.
  intros Hbody. induction items as [|item items IH]; intros w w';
    cbn [for_each].
  - intros [= <-]. exists (client w), []. by rewrite touch_nothing.
  - unfold bind at 1.
    destruct (body item w) as [[[]|e] w1] eqn:Hitem; [|done].
    apply Hbody in Hitem as (x1 & c & Hc & ->).
    intros Hrest. apply IH in Hrest as (x & calls & -> & Hcalls).
    exists x, (c :: calls). rewrite touch_touch. cbn [map].
    by rewrite Hc, Hcalls.
Qed.

Lemma when_present_calls (key : string) (body : pyval -> @M R unit)
    (call_of : pyval -> option remote_call) :
  (forall item w w1,
     body item w = (Ok tt, w1) ->
     exists x c,
       call_of item = Some c /\ w1 = touch x [] 0 (returned_calls [c]) w) ->
  forall python_data w w',
    when_present key python_data (fun found =>
      bind (lift (py_iter found)) (fun items => for_each items body)) w
    = (Ok tt, w') ->
    exists x calls,
      w' = touch x [] 0 (returned_calls calls) w
      /\ map Some calls = map call_of (items_under key python_data).
Proof.
  intros Hbody python_data w w'.
  assert (Hnone : (Ok tt, w) = (Ok tt, w') ->
    exists x calls,
      w' = touch x [] 0 (returned_calls calls) w /\ map Some calls = []).
  { intros [= <-]. exists (client w), []. by rewrite touch_nothing. }
  unfold when_present, items_under, bind, lift, ret.
  destruct python_data as [| | |text| |l|d]; try done; cbn.
  - destruct (str_contains key text); [done|apply Hnone].
  - destruct (existsb (eq_str key) l); [done|apply Hnone].
  - destruct (dict_lookup d key) as [found|]; [|apply Hnone].
    destruct (py_iter found) as [items|e]; [|done].
    by apply for_each_calls.
Qed.

Lemma annotations_sent (python_data : pyval) w r w' :
  when_present "annotations" python_data (fun annotations =>
    bind (import_python_annotations annotations) (fun _ => ret tt)) w
  = (r, w') ->
  exists x q n es,
    w' = touch x q n es w
    /\ Forall creates_annotation (remote_calls es)
    /\ (length (remote_calls es)
        <= length (items_under "annotations" python_data))%nat.
Proof.
  assert (Hnone : forall r0 (bound : nat),
    (r0, w) = (r, w') -> exists x q n es,
      w' = touch x q n es w
      /\ Forall creates_annotation (remote_calls es)
      /\ (length (remote_calls es) <= bound)%nat).
  { intros r0 bound [= <- <-]. exists (client w), [], 0%nat, [].
    rewrite touch_nothing. repeat split; [done|cbn; lia]. }
  unfold when_present, items_under, bind, lift, ret.
  destruct python_data as [| | |text| |l|d]; cbn; try apply Hnone.
  - destruct (str_contains "annotations" text); apply Hnone.
  - destruct (existsb (eq_str "annotations") l); apply Hnone.
  - destruct (dict_lookup d "annotations") as [annotations|]; [|apply Hnone].
    destruct (import_run annotations w)
      as (ids & x & q & n & es & -> & _ & Hcs & Hlen & Hitems).
    intros [= <- <-]. exists x, q, n, es. repeat split; [done|].
    destruct (py_iter annotations) as [items|e].
    + destruct Hitems as [[Hall Herr]|[Hsome Herr]]; rewrite Herr in Hlen;
        cbn in Hlen; lia.
    + destruct Hitems as [_ ->]. cbn. lia.
Qed.

Lemma saved_calls w :
  exists es, trace (saved w) = trace w ++ es /\ remote_calls es = [].
Proof.
  unfold saved. destruct (file_writable w); cbn;
    eexists; rewrite <- ?app_assoc; by split.
Qed.

(** A synchronisation that returns [True] called [create_bookmark] once
    for every item under ['bookmarks'], in their order, then made the
    [create_annotation] calls of the import, then called
    [create_collection] once for every item under ['collections'], in
    their order, each call with the item's fields and the defaults of the
    missing optional ones; it made no other remote call, and no more
    [create_annotation] calls than there are items under
    ['annotations']. *)
Theorem sync_calls_in_order (python_data : pyval) w w' :
  sync_python_data_to_react python_data w = (Ok true, w') ->
  exists es bookmark_calls annotation_calls collection_calls,
    trace w' = trace w ++ es
    /\ remote_calls es
       = bookmark_calls ++ annotation_calls ++ collection_calls
    /\ map Some bookmark_calls
       = map bookmark_call (items_under "bookmarks" python_data)
    /\ Forall creates_annotation annotation_calls
    /\ (length annotation_calls
        <= length (items_under "annotations" python_data))%nat
    /\ map Some collection_calls
       = map collection_call (items_under "collections" python_data).
Proof.
  unfold sync_python_data_to_react, try_except.
  match goal with |- context [match ?m w with _ => _ end] =>
    destruct (m w) as [[b|e] w4] eqn:Hbody
  end; [|discriminate].
  intros [= -> ->]. revert Hbody.
  unfold bind at 1.
  match goal with |- context [match ?m w with _ => _ end] =>
    destruct (m w) as [[[]|e] w1] eqn:Hbookmarks
  end; [|discriminate].
  apply (when_present_calls _ _ bookmark_call sync_bookmark_run) in Hbookmarks
    as (x1 & bookmark_calls & -> & Hbs).
  unfold bind at 1.
  match goal with |- context [match ?m ?w0 with _ => _ end] =>
    destruct (m w0) as [[[]|e] w2] eqn:Hannotations
  end; [|discriminate].
  apply annotations_sent in Hannotations
    as (x2 & q2 & n2 & es2 & -> & Has & Hlen).
  unfold bind at 1.
  match goal with |- context [match ?m ?w0 with _ => _ end] =>
    destruct (m w0) as [[[]|e] w3] eqn:Hcollections
  end; [|discriminate].
  apply (when_present_calls _ _ collection_call sync_collection_run)
    in Hcollections as (x3 & collection_calls & -> & Hcs).
  rewrite !touch_touch.
  match goal with |- context [touch ?x ?q ?n ?es w] =>
    set (w3 := touch x q n es w);
    assert (Htrace : trace w3 = trace w ++ es) by done
  end.
  clearbody w3.
  unfold bind at 1. unfold gets at 1. unfold bind at 1. unfold lift at 1.
  destruct (py_succ (python_version (sync_state w3))) as [v'|e]; [|discriminate].
  unfold bind, set_python_version, set_last_sync, now, gets, modify, ret.
  rewrite save_run. unfold lift.
  match goal with |- context [saved ?w0] =>
    set (w4 := w0); assert (Hkept : trace w4 = trace w3) by done;
    clearbody w4
  end.
  destruct (saved_calls w4) as (ses & Hsaved & Hnone).
  set (w5 := saved w4) in *.
  destruct (py_keys python_data) as [keys|e]; [|discriminate].
  rewrite emit_event_run.
  set (message := event_message _ _ _). set (hs := default [] _).
  destruct (deliveries_quiet message hs) as (Dr & _).
  intros [= <-]. cbn [trace touch].
  rewrite Hsaved, Hkept, Htrace, <- !app_assoc.
  eexists _, bookmark_calls, (remote_calls es2), collection_calls.
  split; [reflexivity|]. split; [|done].
  rewrite !remote_calls_app, Hnone.
  rewrite (proj1 (remote_calls_returned bookmark_calls)).
  rewrite (proj1 (remote_calls_returned collection_calls)).
  change (remote_calls (Queued message :: flat_map (delivery message) hs))
    with (remote_calls (flat_map (delivery message) hs)).
  by rewrite Dr, !app_nil_r.
Qed.

End Facts.

(** Two bookmarks, one of them with notes, and a collection. *)
Lemma sync_calls_in_order_example :
  let w := blank default_config (mock_store []) FileAbsent true ticking in
  let python_data :=
    PDict [("collections", PList [PDict [("title", PStr "Gates")]]);
           ("bookmarks",
            PList [PDict [("entryId", PStr "e1")];
                   PDict [("personalNotes", PStr "read again");
                          ("entryId", PStr "e2")]])] in
  exists w',
    sync_python_data_to_react python_data w = (Ok true, w')
    /\ exists es,
         trace w' = trace w ++ es
         /\ remote_calls es
            = [Create_bookmark (PStr "e1") (PBool true) PNone;
               Create_bookmark (PStr "e2") (PBool true) (PStr "read again");
               Create_collection (PStr "Gates") (PList []) PNone
                 (PBool false)].
Proof.
  intros w python_data.
  exists (snd (sync_python_data_to_react python_data w)).
  assert (Hrun : sync_python_data_to_react python_data w
                 = (Ok true, snd (sync_python_data_to_react python_data w)))
    by (vm_compute; reflexivity).
  split; [exact Hrun|].
  destruct (sync_calls_in_order python_data w _ Hrun)
    as (es & bs & ans & cs & Htrace & Hcalls & Hbs & _ & Hlen & Hcs).
  exists es. split; [exact Htrace|]. rewrite Hcalls.
  clear Hrun Htrace Hcalls. cbn in Hbs, Hcs, Hlen.
  destruct ans as [|an ans]; [|cbn in Hlen; lia].
  destruct bs as [|b1 [|b2 [|]]]; try discriminate.
  destruct cs as [|c1 [|]]; try discriminate.
  injection Hbs as -> ->. injection Hcs as ->. reflexivity.
Defined.

End SendingFacts.
